(** * 3D store planner: shelf packing, vacancy search, aisle editor and
      box interaction, embedded from the TypeScript sources.

    Numbers.  The sources compute with JavaScript numbers.  Lengths and
    coordinates are embedded as exact rationals ([Q]); counts, shelf levels
    and unit indices, which the sources only ever use as integers, are
    embedded as [Z].  Every concrete evaluation below is chosen so that each
    comparison the code makes is decided with a margin of at least one
    centimetre, far above double-precision rounding. *)

From Stdlib Require Import QArith Qround Qabs Qminmax Lqa Lia ZArith.
From stdpp Require Import gmap strings list fin_maps pretty.

Local Open Scope Z_scope.

(** ** JavaScript idioms *)

(** [v || d] on numbers: zero is falsy. *)
Definition orQ (v d : Q) : Q := if Qeq_bool v 0%Q then d else v.
Definition orZ (v d : Z) : Z := if Z.eqb v 0 then d else v.

(** [v || d] on strings: the empty string is falsy. *)
Definition orS (v d : string) : string := if String.eqb v "" then d else v.

(** Result of a computation that may raise a JavaScript exception. *)
Inductive outcome (A : Type) : Type :=
  | Ok (a : A)
  | Throw (e : string).
Arguments Ok {A} a.
Arguments Throw {A} e.

(** One turn of a [for] loop body. *)
Inductive turn (A : Type) : Type :=
  | Continue (a : A)
  | Break (a : A)
  | Raise (e : string).
Arguments Continue {A} a.
Arguments Break {A} a.
Arguments Raise {A} e.

(** [for (let i = 0; i < n; i++) body], the body not reading [i]. *)
Fixpoint forLoop {A : Type} (n : nat) (body : A -> turn A) (st : A) : outcome A :=
  match n with
  | O => Ok st
  | S n' =>
      match body st with
      | Continue st' => forLoop n' body st'
      | Break st' => Ok st'
      | Raise e => Throw e
      end
  end.

(** ** Data model (src/types/index.ts) *)

Record Dimensions : Type := mkDimensions {
  dim_width : Q;
  dim_height : Q;
  dim_depth : Q
}.

Record InventoryProduct : Type := mkInventoryProduct {
  inv_id : string;
  inv_name : string;
  boxDimensions : option Dimensions;
  inv_labelColor : string;
  totalBoxesStock : Z
}.

Record AisleProduct : Type := mkAisleProduct {
  ap_id : string;
  ap_productId : string;
  quantityBoxes : Z;
  ap_shelfLevel : Z
}.

Record Aisle : Type := mkAisle {
  aisle_id : string;
  aisle_storeId : string;
  aisle_name : string;
  aisle_x : Q;
  aisle_z : Q;
  aisle_width : Q;
  aisle_length : Q;
  aisle_height : Q;
  shelves : Z;
  products : list AisleProduct
}.

Record Store : Type := mkStore {
  store_id : string;
  store_width : Q;
  store_depth : Q
}.

(** ** Shelf packing (AisleRacks, [boxesByUnitAndLevel]) *)

Definition POST_SIZE : Q := 15 # 100.
Definition BOX_GAP : Q := 5 # 100.
Definition rackWidth : Q := 3%Q.
Definition rackDepth : Q := 15 # 10.

Record BoxData : Type := mkBoxData {
  boxId : string;
  box_aisleId : string;
  box_shelfLevel : Z;
  unitIndex : Z;
  box_x : Q;
  box_z : Q;
  box_width : Q;
  box_height : Q;
  box_depth : Q;
  box_labelColor : string;
  box_productId : string;
  box_product : InventoryProduct;
  quantity : Z
}.

Record Cursor : Type := mkCursor {
  cur_unit : Z;
  cur_x : Q;
  cur_z : Q;
  boxIdx : Z
}.

(** Origin and end of the usable shelf area, as the packing loop writes them. *)
Definition startX : Q := (- rackWidth / 2 + POST_SIZE + (1 # 10))%Q.
Definition startZ : Q := (- rackDepth / 2 + POST_SIZE + (1 # 10))%Q.
Definition endX : Q := (rackWidth / 2 - POST_SIZE - (1 # 10))%Q.
Definition endZ : Q := (rackDepth / 2 - POST_SIZE - (1 # 10))%Q.

(** [Math.max(1, Math.floor(aisle.length / rackWidth))] for a length that is
    a number, as every [Aisle] of this embedding has it.  The properties
    panel can also store NaN as the length or as the shelf count;
    [numUnitsJs] and [boxesByUnitAndLevelJs] below cover that case. *)
Definition numUnitsOf (a : Aisle) : Z :=
  Z.max 1 (Qfloor (aisle_length a / rackWidth)).

Definition freshCursor : Cursor :=
  {| cur_unit := 0; cur_x := startX; cur_z := startZ; boxIdx := 0 |}.

(** The template string
    [`${aisle.id}-${prod.productId}-${targetShelf}-${cursor.unit}-${cursor.boxIdx}`]. *)
Definition mkBoxId (aisleId productId : string) (shelf unit idx : Z) : string :=
  aisleId +:+ "-" +:+ productId +:+ "-" +:+ pretty shelf +:+ "-" +:+
  pretty unit +:+ "-" +:+ pretty idx.

Definition TypeError : string := "TypeError: Cannot read properties of undefined".

(** [result.get(u)!.get(l)!.push(box)]: the non-null assertions are erased at
    run time, so a missing unit or level raises a TypeError. *)
Definition pushBox (result : gmap Z (gmap Z (list BoxData))) (u l : Z) (box : BoxData)
  : option (gmap Z (gmap Z (list BoxData))) :=
  match result !! u with
  | None => None
  | Some levels =>
      match levels !! l with
      | None => None
      | Some boxes => Some (<[u := <[l := boxes ++ [box]]> levels]> result)
      end
  end.

Section PackProduct.
Variable aisle : Aisle.
Variable numUnits : Z.
Variable prod : AisleProduct.
Variable invItem : InventoryProduct.
Variable allocatedCount targetShelf : Z.
Variable boxW boxH boxD : Q.

(** [if (cursor.x + boxW > endX) { cursor.x = startX; cursor.z += boxD + BOX_GAP }] *)
Definition wrapRow (c : Cursor) : Cursor :=
  if Qlt_le_dec endX (cur_x c + boxW) then
    {| cur_unit := cur_unit c; cur_x := startX;
       cur_z := (cur_z c + (boxD + BOX_GAP))%Q; boxIdx := boxIdx c |}
  else c.

(** [if (cursor.z + boxD > endZ) { cursor.unit++; reset x, z;
      if (cursor.unit >= numUnits) break }]: the cursor after the test and
    whether the loop breaks. *)
Definition advanceUnit (c : Cursor) : Cursor * bool :=
  if Qlt_le_dec endZ (cur_z c + boxD) then
    ({| cur_unit := cur_unit c + 1; cur_x := startX; cur_z := startZ;
        boxIdx := boxIdx c |},
     Z.leb numUnits (cur_unit c + 1))
  else (c, false).

(** The object pushed at cursor [c] (read after [cursor.boxIdx++], which
    the box does not mention). *)
Definition boxAt (c : Cursor) : BoxData :=
  {| boxId := mkBoxId (aisle_id aisle) (ap_productId prod) targetShelf
                      (cur_unit c) (boxIdx c);
     box_aisleId := aisle_id aisle;
     box_shelfLevel := targetShelf;
     unitIndex := cur_unit c;
     box_x := (cur_x c + boxW / 2)%Q;
     box_z := (cur_z c + boxD / 2)%Q;
     box_width := boxW;
     box_height := boxH;
     box_depth := boxD;
     box_labelColor := orS (inv_labelColor invItem) "#3B82F6";
     box_productId := ap_productId prod;
     box_product := invItem;
     quantity := allocatedCount |}.

(** [cursor.boxIdx++] and [cursor.x += boxW + BOX_GAP]. *)
Definition afterBox (c : Cursor) : Cursor :=
  {| cur_unit := cur_unit c; cur_x := (cur_x c + (boxW + BOX_GAP))%Q;
     cur_z := cur_z c; boxIdx := boxIdx c + 1 |}.

(** One iteration of [for (let i = 0; i < allocatedCount; i++)]. *)
Definition placeBox (st : Cursor * gmap Z (gmap Z (list BoxData)))
  : turn (Cursor * gmap Z (gmap Z (list BoxData))) :=
  let '(c0, result) := st in
  let '(c, stop) := advanceUnit (wrapRow c0) in
  if stop then Break (c, result)
  else
    match pushBox result (cur_unit c) targetShelf (boxAt c) with
    | None => Raise TypeError
    | Some result' => Continue (afterBox c, result')
    end.
End PackProduct.

Definition defaultDims : Dimensions :=
  {| dim_width := 25 # 100; dim_height := 2 # 10; dim_depth := 2 # 10 |}.

Definition resolveDims (invItem : InventoryProduct) : Q * Q * Q :=
  let dims := default defaultDims (boxDimensions invItem) in
  (orQ (dim_width dims) (25 # 100),
   orQ (dim_height dims) (2 # 10),
   orQ (dim_depth dims) (2 # 10)).

(** Body of [for (const prod of aisle.products)]. *)
Definition packProduct (aisle : Aisle) (inventoryMap : gmap string InventoryProduct)
    (numUnits : Z)
    (st : gmap Z Cursor * gmap Z (gmap Z (list BoxData))) (prod : AisleProduct)
  : outcome (gmap Z Cursor * gmap Z (gmap Z (list BoxData))) :=
  let '(shelfCursors, result) := st in
  match inventoryMap !! ap_productId prod with
  | None => Ok st
  | Some invItem =>
      let allocatedCount := orZ (quantityBoxes prod) 0 in
      let targetShelf := orZ (ap_shelfLevel prod) 1 in
      let '(boxW, boxH, boxD) := resolveDims invItem in
      let cursor := default freshCursor (shelfCursors !! targetShelf) in
      match forLoop (Z.to_nat allocatedCount)
              (placeBox aisle numUnits prod invItem allocatedCount targetShelf
                        boxW boxH boxD)
              (cursor, result) with
      | Throw e => Throw e
      | Ok (cursor', result') => Ok (<[targetShelf := cursor']> shelfCursors, result')
      end
  end.

Fixpoint packProducts (aisle : Aisle) (inventoryMap : gmap string InventoryProduct)
    (numUnits : Z)
    (st : gmap Z Cursor * gmap Z (gmap Z (list BoxData))) (ps : list AisleProduct)
  : outcome (gmap Z Cursor * gmap Z (gmap Z (list BoxData))) :=
  match ps with
  | [] => Ok st
  | p :: ps' =>
      match packProduct aisle inventoryMap numUnits st p with
      | Throw e => Throw e
      | Ok st' => packProducts aisle inventoryMap numUnits st' ps'
      end
  end.

(** [for (let l = 1; l <= aisle.shelves; l++) m.set(l, v)]. *)
Definition perLevel {V : Type} (nShelves : Z) (v : V) : gmap Z V :=
  foldl (fun m l => <[l := v]> m) ∅ (seqZ 1 nShelves).

Definition initResult (numUnits nShelves : Z) : gmap Z (gmap Z (list BoxData)) :=
  foldl (fun m u => <[u := perLevel nShelves []]> m) ∅ (seqZ 0 numUnits).

(** The memoised [boxesByUnitAndLevel] of [AisleRacks]. *)
Definition boxesByUnitAndLevel (aisle : Aisle)
    (inventoryMap : gmap string InventoryProduct)
  : outcome (gmap Z (gmap Z (list BoxData))) :=
  let numUnits := numUnitsOf aisle in
  match packProducts aisle inventoryMap numUnits
          (perLevel (shelves aisle) freshCursor,
           initResult numUnits (shelves aisle))
          (products aisle) with
  | Throw e => Throw e
  | Ok (_, result) => Ok result
  end.

(** Boxes of one unit and level, [[]] where the structure has no such entry. *)
Definition boxesAt (result : gmap Z (gmap Z (list BoxData))) (u l : Z) : list BoxData :=
  default [] (result !! u ≫= (.!! l)).

(** ** Shelf packing when a stored size is not a number (AisleRacks) *)

(** A JavaScript number that may be NaN.  The properties panel stores
    [Math.max(1, parseFloat(text))] as the aisle's length and
    [Math.max(1, parseInt(text))] as its shelf count; both are NaN when the
    field has been emptied.  Below, a length is a [JsNumber] and a count of
    units or shelves an [option Z], [None] standing for NaN. *)
Inductive JsNumber : Type :=
  | Number (q : Q)
  | NaN.

(** [Math.max(1, Math.floor(length / rackWidth))]: [None] stands for NaN,
    which is what a NaN length gives. *)
Definition numUnitsJs (length : JsNumber) : option Z :=
  match length with
  | Number q => Some (Z.max 1 (Qfloor (q / rackWidth)))
  | NaN => None
  end.

(** [cursor.unit >= numUnits]: false when [numUnits] is NaN. *)
Definition unitsUsedUp (numUnits : option Z) (unit : Z) : bool :=
  match numUnits with
  | Some n => Z.leb n unit
  | None => false
  end.

(** [advanceUnit] for a unit count that may be NaN. *)
Definition advanceUnitJs (numUnits : option Z) (boxD : Q) (c : Cursor) : Cursor * bool :=
  if Qlt_le_dec endZ (cur_z c + boxD) then
    ({| cur_unit := cur_unit c + 1; cur_x := startX; cur_z := startZ;
        boxIdx := boxIdx c |},
     unitsUsedUp numUnits (cur_unit c + 1))
  else (c, false).

(** [placeBox] for a unit count that may be NaN. *)
Definition placeBoxJs (aisle : Aisle) (numUnits : option Z) (prod : AisleProduct)
    (invItem : InventoryProduct) (allocatedCount targetShelf : Z) (boxW boxH boxD : Q)
    (st : Cursor * gmap Z (gmap Z (list BoxData)))
  : turn (Cursor * gmap Z (gmap Z (list BoxData))) :=
  let '(c0, result) := st in
  let '(c, stop) := advanceUnitJs numUnits boxD (wrapRow boxW boxD c0) in
  if stop then Break (c, result)
  else
    match pushBox result (cur_unit c) targetShelf
            (boxAt aisle prod invItem allocatedCount targetShelf boxW boxH boxD c) with
    | None => Raise TypeError
    | Some result' => Continue (afterBox boxW c, result')
    end.

(** [packProduct] for a unit count that may be NaN. *)
Definition packProductJs (aisle : Aisle) (inventoryMap : gmap string InventoryProduct)
    (numUnits : option Z)
    (st : gmap Z Cursor * gmap Z (gmap Z (list BoxData))) (prod : AisleProduct)
  : outcome (gmap Z Cursor * gmap Z (gmap Z (list BoxData))) :=
  let '(shelfCursors, result) := st in
  match inventoryMap !! ap_productId prod with
  | None => Ok st
  | Some invItem =>
      let allocatedCount := orZ (quantityBoxes prod) 0 in
      let targetShelf := orZ (ap_shelfLevel prod) 1 in
      let '(boxW, boxH, boxD) := resolveDims invItem in
      let cursor := default freshCursor (shelfCursors !! targetShelf) in
      match forLoop (Z.to_nat allocatedCount)
              (placeBoxJs aisle numUnits prod invItem allocatedCount targetShelf
                          boxW boxH boxD)
              (cursor, result) with
      | Throw e => Throw e
      | Ok (cursor', result') => Ok (<[targetShelf := cursor']> shelfCursors, result')
      end
  end.

Fixpoint packProductsJs (aisle : Aisle) (inventoryMap : gmap string InventoryProduct)
    (numUnits : option Z)
    (st : gmap Z Cursor * gmap Z (gmap Z (list BoxData))) (ps : list AisleProduct)
  : outcome (gmap Z Cursor * gmap Z (gmap Z (list BoxData))) :=
  match ps with
  | [] => Ok st
  | p :: ps' =>
      match packProductJs aisle inventoryMap numUnits st p with
      | Throw e => Throw e
      | Ok st' => packProductsJs aisle inventoryMap numUnits st' ps'
      end
  end.

(** [for (let l = 1; l <= aisle.shelves; l++) m.set(l, v)] runs no turn when
    the shelf count is NaN. *)
Definition perLevelJs {V : Type} (nShelves : option Z) (v : V) : gmap Z V :=
  match nShelves with
  | Some n => perLevel n v
  | None => ∅
  end.

(** [for (let u = 0; u < numUnits; u++)] runs no turn when [numUnits] is NaN:
    the structure is left without units. *)
Definition initResultJs (numUnits nShelves : option Z)
  : gmap Z (gmap Z (list BoxData)) :=
  match numUnits with
  | Some n => foldl (fun m u => <[u := perLevelJs nShelves []]> m) ∅ (seqZ 0 n)
  | None => ∅
  end.

(** [boxesByUnitAndLevel] of an aisle whose stored length is [length] and
    whose stored shelf count is [nShelves]; the id and the products are read
    from [aisle]. *)
Definition boxesByUnitAndLevelJs (length : JsNumber) (nShelves : option Z)
    (aisle : Aisle) (inventoryMap : gmap string InventoryProduct)
  : outcome (gmap Z (gmap Z (list BoxData))) :=
  let numUnits := numUnitsJs length in
  match packProductsJs aisle inventoryMap numUnits
          (perLevelJs nShelves freshCursor, initResultJs numUnits nShelves)
          (products aisle) with
  | Throw e => Throw e
  | Ok (_, result) => Ok result
  end.

(** ** Vacant spots (RackUnit) *)

Definition Qltb (a b : Q) : bool := if Qlt_le_dec a b then true else false.

Record Size : Type := mkSize {
  size_width : Q;
  size_height : Q;
  size_depth : Q
}.

Record Spot : Type := mkSpot {
  spot_x : Q;
  spot_z : Q
}.

(** The centred-rectangle test of the [shelfBoxes.some] callback. *)
Definition overlapsSpot (vs : Size) (spotX spotZ : Q) (box : BoxData) : bool :=
  Qltb (Qabs (box_x box - spotX)) ((box_width box + size_width vs) / 2) &&
  Qltb (Qabs (box_z box - spotZ)) ((box_depth box + size_depth vs) / 2).

(** [for (let v = start; v + size <= limit; v += step) body(v)], collecting
    what the body pushes.  [None] stands for a loop that has not ended when
    the fuel is spent. *)
Fixpoint forGrid {A : Type} (fuel : nat) (v size limit step : Q)
    (body : Q -> option (list A)) : option (list A) :=
  if Qle_bool (v + size) limit then
    match fuel with
    | O => None
    | S fuel' =>
        match body v with
        | None => None
        | Some xs =>
            match forGrid fuel' (v + step)%Q size limit step body with
            | None => None
            | Some ys => Some (xs ++ ys)
            end
        end
    end
  else Some [].

(** Enough turns for the loop to end whenever its step is positive; with a
    step that is not positive the loop, once entered, never ends. *)
Definition gridFuel (start size limit step : Q) : nat :=
  if Qlt_le_dec 0 step
  then S (Z.to_nat (Qfloor ((limit - size - start) / step)))
  else O.

Definition vacantSpots (width depth : Q) (shelfBoxes : list BoxData)
    (showVacantSpots : bool) (vacantSpotSize : option Size) : option (list Spot) :=
  match showVacantSpots, vacantSpotSize with
  | true, Some vs =>
      let sX := (- width / 2 + POST_SIZE + (1 # 10))%Q in
      let sZ := (- depth / 2 + POST_SIZE + (1 # 10))%Q in
      let eX := (width / 2 - POST_SIZE - (1 # 10))%Q in
      let eZ := (depth / 2 - POST_SIZE - (1 # 10))%Q in
      let stepX := (size_width vs + BOX_GAP)%Q in
      let stepZ := (size_depth vs + BOX_GAP)%Q in
      forGrid (gridFuel sX (size_width vs) eX stepX) sX (size_width vs) eX stepX
        (fun x =>
           forGrid (gridFuel sZ (size_depth vs) eZ stepZ) sZ (size_depth vs) eZ stepZ
             (fun z =>
                let spotX := (x + size_width vs / 2)%Q in
                let spotZ := (z + size_depth vs / 2)%Q in
                if existsb (overlapsSpot vs spotX spotZ) shelfBoxes
                then Some []
                else Some [ {| spot_x := spotX; spot_z := spotZ |} ]))
  | _, _ => Some []
  end.

(** [boxes.find(b => b.shelfLevel === level)?.boxData || []], then the filter
    on the picked-up ids. *)
Definition shelfBoxesOf (boxes : list (Z * list BoxData))
    (pickedBoxIds : option (gset string)) (level : Z) : list BoxData :=
  let allShelfBoxes :=
    default [] (snd <$> List.find (fun b => Z.eqb (fst b) level) boxes) in
  match pickedBoxIds with
  | Some picked =>
      List.filter (fun box => negb (bool_decide (boxId box ∈ picked))) allShelfBoxes
  | None => allShelfBoxes
  end.

Inductive RackSide : Type := LeftRack | RightRack.

Record VacantSlot : Type := mkVacantSlot {
  slot_aisleId : string;
  slot_unitIndex : Z;
  slot_side : RackSide;
  slot_shelfLevel : Z;
  slot_spot : Spot
}.

(** The [boxes] prop of the two [RackUnit]s of a unit: the left rack gets the
    packed boxes of the unit, the right rack gets [[]]. *)
Definition rackBoxes (result : gmap Z (gmap Z (list BoxData))) (unitIdx : Z)
    (side : RackSide) : list (Z * list BoxData) :=
  match side with
  | LeftRack => default [] (map_to_list <$> result !! unitIdx)
  | RightRack => []
  end.

(** Vacant spots one [RackUnit] computes for one of its levels. *)
Definition rackVacantSpots (result : gmap Z (gmap Z (list BoxData)))
    (pickedBoxIds : option (gset string)) (showVacantSpots : bool)
    (heldBoxSize : option Size) (unitIdx : Z) (side : RackSide) (level : Z)
  : option (list Spot) :=
  vacantSpots rackWidth rackDepth
    (shelfBoxesOf (rackBoxes result unitIdx side) pickedBoxIds level)
    showVacantSpots heldBoxSize.

Definition collect {A B : Type} (f : A -> option (list B)) (xs : list A)
  : option (list B) :=
  foldr (fun x acc =>
           match f x, acc with
           | Some ys, Some zs => Some (ys ++ zs)
           | _, _ => None
           end) (Some []) xs.

(** Every vacant spot [AisleRacks] renders: units in order, left rack then
    right rack, levels bottom-up. *)
Definition aisleVacantSlots (aisle : Aisle) (inventoryMap : gmap string InventoryProduct)
    (pickedBoxIds : option (gset string)) (showVacantSpots : bool)
    (heldBoxSize : option Size) : outcome (option (list VacantSlot)) :=
  match boxesByUnitAndLevel aisle inventoryMap with
  | Throw e => Throw e
  | Ok result =>
      Ok (collect (fun unitIdx =>
            collect (fun side =>
              collect (fun level =>
                 List.map (mkVacantSlot (aisle_id aisle) unitIdx side level)
                 <$> rackVacantSpots result pickedBoxIds showVacantSpots
                       heldBoxSize unitIdx side level)
                (seqZ 1 (shelves aisle)))
              [LeftRack; RightRack])
            (seqZ 0 (numUnitsOf aisle)))
  end.

(** ** Box interaction (Scene3DView) *)

Record PlacedBoxData : Type := mkPlacedBoxData {
  pb_id : string;
  pb_aisleId : string;
  pb_unitIndex : Z;
  pb_shelfLevel : Z;
  pb_x : Q;
  pb_z : Q;
  pb_width : Q;
  pb_height : Q;
  pb_depth : Q;
  pb_labelColor : string;
  pb_productId : string;
  pb_productName : string
}.

Record PlacedBox : Type := mkPlacedBox {
  placed_id : string;
  placed_productId : string;
  placed_aisleId : string;
  placed_shelfLevel : Z;
  positionX : Q;
  positionZ : Q;
  sourceAisleId : string;
  sourceShelfLevel : Z
}.

Inductive ControlMode : Type := orbit | pan | walk.

(** The React state of [Scene3DView] together with the [placedBoxes] slice of
    the shared store.  The handlers below are taken as one transition each,
    from the state they are called on to the state they leave once their
    database calls have returned, no other event falling in between.  The
    states in between, and the effect that loads the saved placements, are
    those of [Session] further down. *)
Record SceneState : Type := mkSceneState {
  selectedProduct : option BoxData;
  controlMode : ControlMode;
  heldBox : option BoxData;
  pickedBoxIds : gset string;
  placedBoxesData : list PlacedBoxData;
  pickedUpCount : Z;
  placedBoxes : list PlacedBox
}.

Definition initialScene : SceneState :=
  {| selectedProduct := None; controlMode := orbit; heldBox := None;
     pickedBoxIds := ∅; placedBoxesData := []; pickedUpCount := 0;
     placedBoxes := [] |}.

Definition handleGrabBox (boxData : BoxData) (st : SceneState) : SceneState :=
  {| selectedProduct := None;
     controlMode := controlMode st;
     heldBox := Some boxData;
     pickedBoxIds := {[ boxId boxData ]} ∪ pickedBoxIds st;
     placedBoxesData := placedBoxesData st;
     pickedUpCount := pickedUpCount st + 1;
     placedBoxes := placedBoxes st |}.

(** [handlePlaceBox] run to its end, [now] being the value of [Date.now()].
    The [isPlacingRef] lock is taken on entry and released on exit, so a
    call that starts after the previous one has ended never finds it set;
    [placeBoxCalled] and [placeBoxResumed] below are the two parts of the
    call, before its first [await] and after its last. *)
Definition handlePlaceBox (currentStoreId : option string) (now : Z)
    (aisleId : string) (unitIdx shelfLevel : Z) (x z : Q) (st : SceneState)
  : SceneState :=
  match heldBox st, currentStoreId with
  | Some held, Some _ =>
      let newPlacedBox :=
        {| pb_id := "placed-" +:+ pretty now;
           pb_aisleId := aisleId;
           pb_unitIndex := unitIdx;
           pb_shelfLevel := shelfLevel;
           pb_x := x;
           pb_z := z;
           pb_width := box_width held;
           pb_height := box_height held;
           pb_depth := box_depth held;
           pb_labelColor := box_labelColor held;
           pb_productId := box_productId held;
           pb_productName := inv_name (box_product held) |} in
      {| selectedProduct := selectedProduct st;
         controlMode := controlMode st;
         heldBox := None;
         pickedBoxIds := pickedBoxIds st;
         placedBoxesData := placedBoxesData st ++ [newPlacedBox];
         pickedUpCount := pickedUpCount st;
         placedBoxes := placedBoxes st ++
           [ {| placed_id := pb_id newPlacedBox;
                placed_productId := box_productId held;
                placed_aisleId := aisleId;
                placed_shelfLevel := shelfLevel;
                positionX := x;
                positionZ := z;
                sourceAisleId := box_aisleId held;
                sourceShelfLevel := box_shelfLevel held |} ] |}
  | _, _ => st
  end.

Definition handleReset (st : SceneState) : SceneState :=
  {| selectedProduct := selectedProduct st;
     controlMode := controlMode st;
     heldBox := None;
     pickedBoxIds := ∅;
     placedBoxesData := [];
     pickedUpCount := 0;
     placedBoxes := [] |}.

Definition handleGrabPlacedBox (inventory : list InventoryProduct)
    (placedBox : PlacedBoxData) (st : SceneState) : SceneState :=
  match heldBox st with
  | Some _ => st
  | None =>
      match List.find (fun p => String.eqb (inv_id p) (pb_productId placedBox)) inventory with
      | None => st
      | Some product =>
          let boxData :=
            {| boxId := "placed-" +:+ pb_id placedBox;
               box_aisleId := pb_aisleId placedBox;
               box_shelfLevel := pb_shelfLevel placedBox;
               unitIndex := pb_unitIndex placedBox;
               box_x := pb_x placedBox;
               box_z := pb_z placedBox;
               box_width := pb_width placedBox;
               box_height := pb_height placedBox;
               box_depth := pb_depth placedBox;
               box_labelColor := pb_labelColor placedBox;
               box_productId := pb_productId placedBox;
               box_product := product;
               quantity := 1 |} in
          {| selectedProduct := selectedProduct st;
             controlMode := controlMode st;
             heldBox := Some boxData;
             pickedBoxIds := pickedBoxIds st;
             placedBoxesData :=
               List.filter (fun pb => negb (String.eqb (pb_id pb) (pb_id placedBox)))
                           (placedBoxesData st);
             pickedUpCount := pickedUpCount st;
             placedBoxes := placedBoxes st |}
      end
  end.

(** The three toolbar buttons: [setControlMode(m)], and for the walk button
    also [setHeldBox(null)]. *)
Definition clickModeButton (m : ControlMode) (st : SceneState) : SceneState :=
  {| selectedProduct := selectedProduct st;
     controlMode := m;
     heldBox := match m with walk => None | _ => heldBox st end;
     pickedBoxIds := pickedBoxIds st;
     placedBoxesData := placedBoxesData st;
     pickedUpCount := pickedUpCount st;
     placedBoxes := placedBoxes st |}.

(** What the user can do in the 3D view: press the panel's grab button for a
    box, click a vacant spot, click the [i]-th drawn override, press a mode
    button, press reset.  A list of these is a session in which the save of
    every placement returns before the next event and no saved placements
    are loaded ([sessionRun] has the others). *)
Inductive SceneEvent : Type :=
  | GrabBox (boxData : BoxData)
  | PlaceBox (now : Z) (aisleId : string) (unitIdx shelfLevel : Z) (x z : Q)
  | GrabPlacedBox (i : nat)
  | ModeButton (m : ControlMode)
  | ResetAll.

Section SceneRun.
Variable currentStoreId : option string.
Variable inventory : list InventoryProduct.

Definition sceneStep (st : SceneState) (ev : SceneEvent) : SceneState :=
  match ev with
  | GrabBox b => handleGrabBox b st
  | PlaceBox now a u l x z => handlePlaceBox currentStoreId now a u l x z st
  | GrabPlacedBox i =>
      match placedBoxesData st !! i with
      | Some pb => handleGrabPlacedBox inventory pb st
      | None => st
      end
  | ModeButton m => clickModeButton m st
  | ResetAll => handleReset st
  end.

Definition sceneRun (evs : list SceneEvent) : SceneState :=
  foldl sceneStep initialScene evs.
End SceneRun.

(** Number of overrides currently in hand or placed. *)
Definition heldOrPlaced (st : SceneState) : Z :=
  (match heldBox st with Some _ => 1 | None => 0 end) + Z.of_nat (length (placedBoxesData st)).

(** *** The session with its waits *)

(** [handlePlaceBox] and the effect [initData] wait for the database, and
    the view is drawn while they do.  The session below keeps the states in
    between: [handlePlaceBox] is taken in its two parts, before its first
    [await] and after its last, and the arrivals of the saved placements and
    of the inventory are events of their own.  [isPlacing] is the lock
    [isPlacingRef]; [sessionInventory] is the store's [inventory], which
    [handleGrabPlacedBox] reads and [initData] may set. *)
Record Session : Type := mkSession {
  scene : SceneState;
  isPlacing : bool;
  sessionInventory : list InventoryProduct
}.

Definition initialSession (inventory : list InventoryProduct) : Session :=
  {| scene := initialScene; isPlacing := false; sessionInventory := inventory |}.

(** [handlePlaceBox] up to its first [await]: the lock is taken, the override
    is appended to [placedBoxesData] and recorded in the store; the box is
    still in hand. *)
Definition placeBoxCalled (currentStoreId : option string) (now : Z)
    (aisleId : string) (unitIdx shelfLevel : Z) (x z : Q) (s : Session) : Session :=
  match heldBox (scene s), currentStoreId, isPlacing s with
  | Some held, Some _, false =>
      let newPlacedBox :=
        {| pb_id := "placed-" +:+ pretty now;
           pb_aisleId := aisleId;
           pb_unitIndex := unitIdx;
           pb_shelfLevel := shelfLevel;
           pb_x := x;
           pb_z := z;
           pb_width := box_width held;
           pb_height := box_height held;
           pb_depth := box_depth held;
           pb_labelColor := box_labelColor held;
           pb_productId := box_productId held;
           pb_productName := inv_name (box_product held) |} in
      {| scene :=
           {| selectedProduct := selectedProduct (scene s);
              controlMode := controlMode (scene s);
              heldBox := heldBox (scene s);
              pickedBoxIds := pickedBoxIds (scene s);
              placedBoxesData := placedBoxesData (scene s) ++ [newPlacedBox];
              pickedUpCount := pickedUpCount (scene s);
              placedBoxes := placedBoxes (scene s) ++
                [ {| placed_id := pb_id newPlacedBox;
                     placed_productId := box_productId held;
                     placed_aisleId := aisleId;
                     placed_shelfLevel := shelfLevel;
                     positionX := x;
                     positionZ := z;
                     sourceAisleId := box_aisleId held;
                     sourceShelfLevel := box_shelfLevel held |} ] |};
         isPlacing := true;
         sessionInventory := sessionInventory s |}
  | _, _, _ => s
  end.

(** [handlePlaceBox] after its last [await], whether the save succeeded or
    not: [setHeldBox(null)] and the lock is released.  Only a call that took
    the lock gets here. *)
Definition placeBoxResumed (s : Session) : Session :=
  if isPlacing s then
    {| scene :=
         {| selectedProduct := selectedProduct (scene s);
            controlMode := controlMode (scene s);
            heldBox := None;
            pickedBoxIds := pickedBoxIds (scene s);
            placedBoxesData := placedBoxesData (scene s);
            pickedUpCount := pickedUpCount (scene s);
            placedBoxes := placedBoxes (scene s) |};
       isPlacing := false;
       sessionInventory := sessionInventory s |}
  else s.

(** A saved placement as [getStorePlacedBoxes] hands it to [initData], with
    the fields [initData] reads; a missing [id] is [""]. *)
Record SavedPlacedBox : Type := mkSavedPlacedBox {
  saved_id : string;
  saved_boxId : string;
  saved_aisleId : string;
  saved_unitIndex : Z;
  saved_shelfLevel : Z;
  saved_x : Q;
  saved_z : Q;
  saved_width : Q;
  saved_height : Q;
  saved_depth : Q;
  saved_labelColor : string;
  saved_productId : string;
  saved_productName : string
}.

(** The callback of [savedPlacedBoxes.map]; [now] is the value of
    [Date.now()] when the box is converted. *)
Definition localBox (entry : Z * SavedPlacedBox) : PlacedBoxData :=
  let '(now, box) := entry in
  {| pb_id := orS (saved_id box) ("placed-" +:+ pretty now);
     pb_aisleId := saved_aisleId box;
     pb_unitIndex := saved_unitIndex box;
     pb_shelfLevel := saved_shelfLevel box;
     pb_x := saved_x box;
     pb_z := saved_z box;
     pb_width := saved_width box;
     pb_height := saved_height box;
     pb_depth := saved_depth box;
     pb_labelColor := saved_labelColor box;
     pb_productId := saved_productId box;
     pb_productName := saved_productName box |}.

(** The second half of the effect [initData], once [getStorePlacedBoxes] has
    answered with [savedPlacedBoxes], for a signed-in user: a non-empty
    answer replaces the drawn overrides, the picked-up ids and the counter;
    the hand and the store's record are left alone. *)
Definition initData_placedBoxes (currentStoreId : option string)
    (savedPlacedBoxes : list (Z * SavedPlacedBox)) (st : SceneState) : SceneState :=
  match currentStoreId, savedPlacedBoxes with
  | Some _, _ :: _ =>
      {| selectedProduct := selectedProduct st;
         controlMode := controlMode st;
         heldBox := heldBox st;
         pickedBoxIds := list_to_set ((fun entry => saved_boxId (snd entry)) <$> savedPlacedBoxes);
         placedBoxesData := localBox <$> savedPlacedBoxes;
         pickedUpCount := Z.of_nat (length savedPlacedBoxes);
         placedBoxes := placedBoxes st |}
  | _, _ => st
  end.

(** The first half of [initData], once [getUserInventory] has answered with
    [data]: [if (data.length > 0) setInventory(data)].  The test
    [inventory.length === 0] is made before the wait, so the answer may find
    an inventory that has been loaded meanwhile; it is set all the same. *)
Definition initData_inventory (data : list InventoryProduct) (s : Session) : Session :=
  match data with
  | [] => s
  | _ :: _ => {| scene := scene s; isPlacing := isPlacing s; sessionInventory := data |}
  end.

(** What happens in the 3D view: the events of [SceneEvent], the click on a
    vacant spot being split into the call of [handlePlaceBox] and its
    resumption after the save, and the arrivals of the saved placements and
    of the inventory. *)
Inductive SessionEvent : Type :=
  | Grabbed (boxData : BoxData)
  | PlaceCalled (now : Z) (aisleId : string) (unitIdx shelfLevel : Z) (x z : Q)
  | PlaceResumed
  | PlacedGrabbed (i : nat)
  | ModePressed (m : ControlMode)
  | ResetPressed
  | SavedArrived (savedPlacedBoxes : list (Z * SavedPlacedBox))
  | InventoryArrived (data : list InventoryProduct).

Definition onScene (f : SceneState -> SceneState) (s : Session) : Session :=
  {| scene := f (scene s); isPlacing := isPlacing s;
     sessionInventory := sessionInventory s |}.

Section SessionRun.
Variable currentStoreId : option string.
Variable inventory : list InventoryProduct.

Definition sessionStep (s : Session) (ev : SessionEvent) : Session :=
  match ev with
  | Grabbed b => onScene (handleGrabBox b) s
  | PlaceCalled now a u l x z => placeBoxCalled currentStoreId now a u l x z s
  | PlaceResumed => placeBoxResumed s
  | PlacedGrabbed i =>
      match placedBoxesData (scene s) !! i with
      | Some pb => onScene (handleGrabPlacedBox (sessionInventory s) pb) s
      | None => s
      end
  | ModePressed m => onScene (clickModeButton m) s
  | ResetPressed => onScene handleReset s
  | SavedArrived saved => onScene (initData_placedBoxes currentStoreId saved) s
  | InventoryArrived data => initData_inventory data s
  end.

(** The session that starts with the store's inventory being [inventory]. *)
Definition sessionRun (evs : list SessionEvent) : Session :=
  foldl sessionStep (initialSession inventory) evs.

(** The saved placements of [evs] all arrive while no box is in hand. *)
Definition arrivalsFindHandEmpty (evs : list SessionEvent) : Prop :=
  forall before saved after,
    evs = before ++ SavedArrived saved :: after ->
    heldBox (scene (sessionRun before)) = None.
End SessionRun.

(** A session of [SceneEvent]s, each save returning before the next event,
    as a session with its waits. *)
Definition atomically (ev : SceneEvent) : list SessionEvent :=
  match ev with
  | GrabBox b => [Grabbed b]
  | PlaceBox now a u l x z => [PlaceCalled now a u l x z; PlaceResumed]
  | GrabPlacedBox i => [PlacedGrabbed i]
  | ModeButton m => [ModePressed m]
  | ResetAll => [ResetPressed]
  end.

(** What a session keeps when the saved placements arrive on an empty hand. *)
Definition countsInv (s : Session) : Prop :=
  Z.of_nat (length (placedBoxesData (scene s)))
    + (match heldBox (scene s), isPlacing s with Some _, false => 1 | _, _ => 0 end)
  <= pickedUpCount (scene s).

(** [inventory.reduce((acc, p) => ({ ...acc, [p.id]: p }), {})]. *)
Definition inventoryMapOf (inventory : list InventoryProduct)
  : gmap string InventoryProduct :=
  foldl (fun acc p => <[inv_id p := p]> acc) ∅ inventory.

(** What [Scene] hands to every [AisleRacks]: the picked ids, whether a box is
    held in walk mode, and the held box's size.  [placedBoxesData] is drawn by
    [Scene] itself and is not among the props of [AisleRacks]. *)
Definition sceneVacantSlots (aisle : Aisle) (inventory : list InventoryProduct)
    (st : SceneState) : outcome (option (list VacantSlot)) :=
  aisleVacantSlots aisle (inventoryMapOf inventory)
    (Some (pickedBoxIds st))
    (match heldBox st, controlMode st with
     | Some _, walk => true
     | _, _ => false
     end)
    ((fun b => mkSize (box_width b) (box_height b) (box_depth b)) <$> heldBox st).

(** The centred-rectangle test between a placed override and a spot for a box
    of size [vs] on the same unit and level. *)
Definition placedOverlapsSpot (vs : Size) (s : Spot) (pb : PlacedBoxData) : bool :=
  Qltb (Qabs (pb_x pb - spot_x s)) ((pb_width pb + size_width vs) / 2) &&
  Qltb (Qabs (pb_z pb - spot_z s)) ((pb_depth pb + size_depth vs) / 2).

(** Where things are drawn on the floor plane ([AisleRacks], [Scene]): the two
    racks of a unit stand at x = -/+ (rackGap / 2 + rackDepth / 2) of the
    aisle's origin and at z = unitZ; an override is always drawn relative to
    the right rack. *)
Definition rackGap : Q := 2%Q.

Definition unitZ (unitIdx : Z) : Q :=
  (inject_Z unitIdx * rackWidth + rackWidth / 2)%Q.

Definition rackX (side : RackSide) : Q :=
  match side with
  | LeftRack => (- rackGap / 2 - rackDepth / 2)%Q
  | RightRack => (rackGap / 2 + rackDepth / 2)%Q
  end.

Definition slotWorld (aisle : Aisle) (s : VacantSlot) : Q * Q :=
  ((aisle_x aisle + rackX (slot_side s) + spot_x (slot_spot s))%Q,
   (aisle_z aisle + unitZ (slot_unitIndex s) + spot_z (slot_spot s))%Q).

Definition placedBoxWorld (aisle : Aisle) (placedBox : PlacedBoxData) : Q * Q :=
  let unitZ := (inject_Z (pb_unitIndex placedBox) * rackWidth + rackWidth / 2)%Q in
  let rackXOffset := (rackGap / 2 + rackDepth / 2)%Q in
  let worldX := (aisle_x aisle + rackXOffset)%Q in
  let worldZ := (aisle_z aisle + unitZ)%Q in
  ((worldX + pb_x placedBox)%Q, (worldZ + pb_z placedBox)%Q).

(** ** Shelf count (lib/constants) *)

Definition DEFAULT_AISLE_height : Q := 3%Q.
Definition DEFAULT_AISLE_shelves : Z := 6.

Definition calculateShelfCount (aisleHeight : Q) : Z :=
  let BOTTOM_CLEARANCE : Q := 15 # 100 in
  let MAX_ACCESSIBLE_HEIGHT : Q := 21 # 10 in
  let SHELF_SPACING : Q := 35 # 100 in
  let usableHeight := (Qmin aisleHeight MAX_ACCESSIBLE_HEIGHT - BOTTOM_CLEARANCE)%Q in
  let shelfCount := Qfloor (usableHeight / SHELF_SPACING) in
  Z.max 1 (Z.min 10 shelfCount).

(** The shelf count the claim's formula gives, written from its words:
    max(1, min(10, floor((min(h, 2.1) - 0.15) / 0.35))). *)
Definition shelfCountFormula (h : Q) : Z :=
  Z.max 1 (Z.min 10 (Qfloor ((Qmin h (21 # 10) - (15 # 100)) / (35 # 100)))).

(** [handleUpdate(field, value)] of [AislePropertiesPanel], one constructor
    per field the panel edits. *)
Inductive AisleEdit : Type :=
  | EditWidth (v : Q)
  | EditLength (v : Q)
  | EditHeight (v : Q)
  | EditX (v : Q)
  | EditZ (v : Q)
  | EditShelves (n : Z).

(** [handleUpdate] followed by the store's [updateAisle]: a height change
    also recomputes the shelf count. *)
Definition handleUpdate (e : AisleEdit) (a : Aisle) : Aisle :=
  match e with
  | EditWidth v =>
      mkAisle (aisle_id a) (aisle_storeId a) (aisle_name a) (aisle_x a) (aisle_z a)
              v (aisle_length a) (aisle_height a) (shelves a) (products a)
  | EditLength v =>
      mkAisle (aisle_id a) (aisle_storeId a) (aisle_name a) (aisle_x a) (aisle_z a)
              (aisle_width a) v (aisle_height a) (shelves a) (products a)
  | EditHeight v =>
      mkAisle (aisle_id a) (aisle_storeId a) (aisle_name a) (aisle_x a) (aisle_z a)
              (aisle_width a) (aisle_length a) v (calculateShelfCount v) (products a)
  | EditX v =>
      mkAisle (aisle_id a) (aisle_storeId a) (aisle_name a) v (aisle_z a)
              (aisle_width a) (aisle_length a) (aisle_height a) (shelves a) (products a)
  | EditZ v =>
      mkAisle (aisle_id a) (aisle_storeId a) (aisle_name a) (aisle_x a) v
              (aisle_width a) (aisle_length a) (aisle_height a) (shelves a) (products a)
  | EditShelves n =>
      mkAisle (aisle_id a) (aisle_storeId a) (aisle_name a) (aisle_x a) (aisle_z a)
              (aisle_width a) (aisle_length a) (aisle_height a) n (products a)
  end.

(** The [onChange] of the height input: [val] is the parsed number. *)
Definition onHeightChange (val : Q) (a : Aisle) : Aisle :=
  if Qlt_le_dec 0 val then handleUpdate (EditHeight (Qmax 1%Q val)) a else a.

(** The [onChange] of the shelf-count input: [parsed] is [parseInt] of the
    text; the input's [max="10"] attribute does not alter what is typed. *)
Definition onShelvesChange (parsed : Z) (a : Aisle) : Aisle :=
  handleUpdate (EditShelves (Z.max 1 parsed)) a.

(** ** 2D aisle editor (Canvas2DEditor) *)

Record Rect : Type := mkRect {
  rect_x : Q;
  rect_z : Q;
  rect_width : Q;
  rect_length : Q
}.

Inductive Handle : Type := H_n | H_s | H_e | H_w | H_ne | H_nw | H_se | H_sw.

(** The editor's React state together with the slices of the shared store it
    reads and writes. *)
Record EditorState : Type := mkEditorState {
  stores : list Store;
  aisles : list Aisle;
  currentStoreId : option string;
  selectedAisleId : option string;
  isDragging : bool;
  isPanning : bool;
  dragStart : Q * Q;
  panStart : Q * Q;
  currentDragRect : option Rect;
  isResizing : bool;
  resizeHandle : option Handle;
  resizeAisleId : option string;
  originalAisle : option Aisle;
  zoom : Q;
  panOffset : Q * Q;
  panToolActive : bool;
  scale : Q
}.

Definition getCurrentStore (st : EditorState) : option Store :=
  match currentStoreId st with
  | None => None
  | Some sid => List.find (fun s => String.eqb (store_id s) sid) (stores st)
  end.

Definition getCurrentAisles (st : EditorState) : list Aisle :=
  match currentStoreId st with
  | None => []
  | Some sid => List.filter (fun a => String.eqb (aisle_storeId a) sid) (aisles st)
  end.

(** [Math.round]: halves go up. *)
Definition snap (val : Q) : Q := inject_Z (Qfloor (val + (1 # 2))).

Definition toWorld (st : EditorState) (px py : Q) : Q * Q :=
  let padding : Q := 10%Q in
  let adjustedX := (px - fst (panOffset st))%Q in
  let adjustedY := (py - snd (panOffset st))%Q in
  ((adjustedX / (scale st * zoom st) - padding)%Q,
   (adjustedY / (scale st * zoom st) - padding)%Q).

Definition getResizeHandle (st : EditorState) (worldPos : Q * Q) (aisle : Aisle)
  : option Handle :=
  let handleSize := ((8 # 10) / zoom st)%Q in
  let left := aisle_x aisle in
  let right := (aisle_x aisle + aisle_width aisle)%Q in
  let top := aisle_z aisle in
  let bottom := (aisle_z aisle + aisle_length aisle)%Q in
  let near (a b : Q) := Qltb (Qabs (a - b)) handleSize in
  let wx := fst worldPos in
  let wz := snd worldPos in
  if near wx left && near wz top then Some H_nw
  else if near wx right && near wz top then Some H_ne
  else if near wx left && near wz bottom then Some H_sw
  else if near wx right && near wz bottom then Some H_se
  else if near wz top && Qltb left wx && Qltb wx right then Some H_n
  else if near wz bottom && Qltb left wx && Qltb wx right then Some H_s
  else if near wx left && Qltb top wz && Qltb wz bottom then Some H_w
  else if near wx right && Qltb top wz && Qltb wz bottom then Some H_e
  else None.

Definition setDrag (st : EditorState) (dragging panning : bool)
    (rect : option Rect) : EditorState :=
  mkEditorState (stores st) (aisles st) (currentStoreId st) (selectedAisleId st)
    dragging panning (dragStart st) (panStart st) rect (isResizing st)
    (resizeHandle st) (resizeAisleId st) (originalAisle st) (zoom st)
    (panOffset st) (panToolActive st) (scale st).

(** [button] is the mouse button, [shiftKey] the modifier, [(clientX, clientY)]
    the pointer in page pixels and [(px, py)] the pointer in canvas pixels. *)
Definition handleMouseDown (button : Z) (shiftKey : bool) (clientX clientY px py : Q)
    (st : EditorState) : EditorState :=
  if Z.eqb button 1 || (Z.eqb button 0 && shiftKey) || panToolActive st then
    mkEditorState (stores st) (aisles st) (currentStoreId st) (selectedAisleId st)
      (isDragging st) true (dragStart st)
      ((clientX - fst (panOffset st))%Q, (clientY - snd (panOffset st))%Q)
      (currentDragRect st) (isResizing st) (resizeHandle st) (resizeAisleId st)
      (originalAisle st) (zoom st) (panOffset st) (panToolActive st) (scale st)
  else
    let worldPos := toWorld st px py in
    match getCurrentStore st with
    | None => st
    | Some _ =>
        let currentAisles := getCurrentAisles st in
        let resizeStart :=
          match selectedAisleId st with
          | None => None
          | Some sel =>
              match List.find (fun a => String.eqb (aisle_id a) sel) currentAisles with
              | None => None
              | Some selectedAisle =>
                  match getResizeHandle st worldPos selectedAisle with
                  | None => None
                  | Some h => Some (h, sel, selectedAisle)
                  end
              end
          end in
        match resizeStart with
        | Some (h, sel, selectedAisle) =>
            mkEditorState (stores st) (aisles st) (currentStoreId st)
              (selectedAisleId st) (isDragging st) (isPanning st) (dragStart st)
              (panStart st) (currentDragRect st) true (Some h) (Some sel)
              (Some selectedAisle) (zoom st) (panOffset st) (panToolActive st)
              (scale st)
        | None =>
            let hit (a : Aisle) :=
              Qle_bool (aisle_x a) (fst worldPos) &&
              Qle_bool (fst worldPos) (aisle_x a + aisle_width a) &&
              Qle_bool (aisle_z a) (snd worldPos) &&
              Qle_bool (snd worldPos) (aisle_z a + aisle_length a) in
            match List.find hit (rev currentAisles) with
            | Some a =>
                mkEditorState (stores st) (aisles st) (currentStoreId st)
                  (Some (aisle_id a)) false (isPanning st) (dragStart st)
                  (panStart st) (currentDragRect st) (isResizing st)
                  (resizeHandle st) (resizeAisleId st) (originalAisle st)
                  (zoom st) (panOffset st) (panToolActive st) (scale st)
            | None =>
                mkEditorState (stores st) (aisles st) (currentStoreId st)
                  None true (isPanning st)
                  (snap (fst worldPos), snap (snd worldPos))
                  (panStart st) (currentDragRect st) (isResizing st)
                  (resizeHandle st) (resizeAisleId st) (originalAisle st)
                  (zoom st) (panOffset st) (panToolActive st) (scale st)
            end
        end
    end.

Definition hasN (h : Handle) : bool :=
  match h with H_n | H_ne | H_nw => true | _ => false end.
Definition hasS (h : Handle) : bool :=
  match h with H_s | H_se | H_sw => true | _ => false end.
Definition hasW (h : Handle) : bool :=
  match h with H_w | H_nw | H_sw => true | _ => false end.
Definition hasE (h : Handle) : bool :=
  match h with H_e | H_ne | H_se => true | _ => false end.

(** The preview rectangle of a resize drag. *)
Definition resizeRect (h : Handle) (orig : Aisle) (currentX currentZ : Q) : Rect :=
  let newZ := if hasN h
              then Qmin currentZ (aisle_z orig + aisle_length orig - 1)%Q
              else aisle_z orig in
  let newLength0 := if hasN h
                    then (aisle_length orig - (newZ - aisle_z orig))%Q
                    else aisle_length orig in
  let newLength := if hasS h then Qmax 1%Q (currentZ - aisle_z orig)%Q else newLength0 in
  let newX := if hasW h
              then Qmin currentX (aisle_x orig + aisle_width orig - 1)%Q
              else aisle_x orig in
  let newWidth0 := if hasW h
                   then (aisle_width orig - (newX - aisle_x orig))%Q
                   else aisle_width orig in
  let newWidth := if hasE h then Qmax 1%Q (currentX - aisle_x orig)%Q else newWidth0 in
  {| rect_x := newX; rect_z := newZ;
     rect_width := Qmax 1%Q newWidth; rect_length := Qmax 1%Q newLength |}.

(** The preview rectangle of a create drag: spans anchor and pointer, a zero
    span being replaced by 1 ([w || 1], [l || 1]). *)
Definition dragRect (start : Q * Q) (currentX currentZ : Q) : Rect :=
  let x := Qmin (fst start) currentX in
  let z := Qmin (snd start) currentZ in
  let w := Qabs (currentX - fst start) in
  let l := Qabs (currentZ - snd start) in
  {| rect_x := x; rect_z := z; rect_width := orQ w 1%Q; rect_length := orQ l 1%Q |}.

Definition handleMouseMove (clientX clientY px py : Q) (st : EditorState)
  : EditorState :=
  if isPanning st then
    mkEditorState (stores st) (aisles st) (currentStoreId st) (selectedAisleId st)
      (isDragging st) (isPanning st) (dragStart st) (panStart st)
      (currentDragRect st) (isResizing st) (resizeHandle st) (resizeAisleId st)
      (originalAisle st) (zoom st)
      ((clientX - fst (panStart st))%Q, (clientY - snd (panStart st))%Q)
      (panToolActive st) (scale st)
  else
    let worldPos := toWorld st px py in
    match isResizing st, originalAisle st, resizeHandle st with
    | true, Some orig, Some h =>
        setDrag st (isDragging st) (isPanning st)
          (Some (resizeRect h orig (snap (fst worldPos)) (snap (snd worldPos))))
    | _, _, _ =>
        if isDragging st then
          setDrag st (isDragging st) (isPanning st)
            (Some (dragRect (dragStart st) (snap (fst worldPos)) (snap (snd worldPos))))
        else st
    end.

(** [!(newRight <= left || newLeft >= right || newBottom <= top || newTop >= bottom)] *)
Definition rectOverlapsAisle (r : Rect) (aisle : Aisle) : bool :=
  negb (Qle_bool (rect_x r + rect_width r) (aisle_x aisle) ||
        Qle_bool (aisle_x aisle + aisle_width aisle) (rect_x r) ||
        Qle_bool (rect_z r + rect_length r) (aisle_z aisle) ||
        Qle_bool (aisle_z aisle + aisle_length aisle) (rect_z r)).

Definition outOfBounds (r : Rect) (store : Store) : bool :=
  Qltb (rect_x r) 0%Q || Qltb (rect_z r) 0%Q ||
  Qltb (store_width store) (rect_x r + rect_width r) ||
  Qltb (store_depth store) (rect_z r + rect_length r).

(** The store's [updateAisle(id, {x, z, width, length})]. *)
Definition updateAisleRect (aisleId : string) (r : Rect) (a : Aisle) : Aisle :=
  if String.eqb (aisle_id a) aisleId then
    mkAisle (aisle_id a) (aisle_storeId a) (aisle_name a) (rect_x r) (rect_z r)
            (rect_width r) (rect_length r) (aisle_height a) (shelves a) (products a)
  else a.

Definition endResize (st : EditorState) (newAisles : list Aisle) : EditorState :=
  mkEditorState (stores st) newAisles (currentStoreId st) (selectedAisleId st)
    (isDragging st) (isPanning st) (dragStart st) (panStart st) None false None
    None None (zoom st) (panOffset st) (panToolActive st) (scale st).

Definition endDrag (st : EditorState) (newAisles : list Aisle)
    (rect : option Rect) : EditorState :=
  mkEditorState (stores st) newAisles (currentStoreId st) (selectedAisleId st)
    false false (dragStart st) (panStart st) rect (isResizing st)
    (resizeHandle st) (resizeAisleId st) (originalAisle st) (zoom st)
    (panOffset st) (panToolActive st) (scale st).

(** The aisle [handleMouseUp] adds: the preview rectangle, the defaults of
    [DEFAULT_AISLE], no products, and the id the database returned. *)
Definition newAisleOf (storeId aisleId : string) (n : nat) (r : Rect) : Aisle :=
  {| aisle_id := aisleId;
     aisle_storeId := storeId;
     aisle_name := "Aisle " +:+ pretty (Z.of_nat n + 1);
     aisle_x := rect_x r;
     aisle_z := rect_z r;
     aisle_width := rect_width r;
     aisle_length := rect_length r;
     aisle_height := DEFAULT_AISLE_height;
     shelves := DEFAULT_AISLE_shelves;
     products := [] |}.

(** [handleMouseUp] run to its end, no other handler running while it waits
    for the database.  [db] is what the awaited database call resolves to:
    for a create the new document's id, for a resize anything; [None] when
    the call rejects.  [mouseUpCalled] and [mouseUpResumed] below are the
    two parts of the call, before and after its [await]. *)
Definition handleMouseUp (db : option string) (st : EditorState) : EditorState :=
  match isResizing st, currentDragRect st, resizeAisleId st, currentStoreId st with
  | true, Some r, Some rid, Some _ =>
      match getCurrentStore st with
      | None => endResize st (aisles st)
      | Some currentStore =>
          let isValid :=
            Qle_bool 0%Q (rect_x r) && Qle_bool 0%Q (rect_z r) &&
            Qle_bool (rect_x r + rect_width r) (store_width currentStore) &&
            Qle_bool (rect_z r + rect_length r) (store_depth currentStore) &&
            Qle_bool 1%Q (rect_width r) && Qle_bool 1%Q (rect_length r) in
          let overlaps :=
            existsb (fun aisle =>
                       if String.eqb (aisle_id aisle) rid then false
                       else rectOverlapsAisle r aisle)
                    (getCurrentAisles st) in
          if isValid && negb overlaps then
            match db with
            | Some _ => endResize st (List.map (updateAisleRect rid r) (aisles st))
            | None => endResize st (aisles st)
            end
          else endResize st (aisles st)
      end
  | _, _, _, _ =>
      match isDragging st, currentDragRect st, currentStoreId st with
      | true, Some r, Some sid =>
          match getCurrentStore st with
          | None => endDrag st (aisles st) None
          | Some currentStore =>
              let MIN_SIZE : Q := 1%Q in
              if Qltb (rect_width r) MIN_SIZE || Qltb (rect_length r) MIN_SIZE then
                endDrag st (aisles st) None
              else if outOfBounds r currentStore then
                endDrag st (aisles st) None
              else
                let currentAisles := getCurrentAisles st in
                if existsb (rectOverlapsAisle r) currentAisles then
                  endDrag st (aisles st) None
                else
                  match db with
                  | Some aisleId =>
                      endDrag st
                        (aisles st ++ [newAisleOf sid aisleId (length currentAisles) r])
                        None
                  | None => endDrag st (aisles st) None
                  end
          end
      | _, _, _ => endDrag st (aisles st) (currentDragRect st)
      end
  end.

(** What a call of [handleMouseUp] waits for when it reaches its [await]:
    the database's answer to [updateAisleDb] for the aisle [rid], or to
    [createAisle] for the [n + 1]-th aisle of the store [sid]; [r] is the
    preview the call has read. *)
Inductive MouseUpWait : Type :=
  | AwaitUpdate (rid : string) (r : Rect)
  | AwaitCreate (sid : string) (n : nat) (r : Rect).

(** [handleMouseUp] up to its [await]: a call that does not commit ends here,
    with the state it leaves; a call that commits has changed nothing yet.
    The canvas binds the handler to [onMouseUp] and to [onMouseLeave]. *)
Definition mouseUpCalled (st : EditorState) : EditorState + MouseUpWait :=
  match isResizing st, currentDragRect st, resizeAisleId st, currentStoreId st with
  | true, Some r, Some rid, Some _ =>
      match getCurrentStore st with
      | None => inl (endResize st (aisles st))
      | Some currentStore =>
          let isValid :=
            Qle_bool 0%Q (rect_x r) && Qle_bool 0%Q (rect_z r) &&
            Qle_bool (rect_x r + rect_width r) (store_width currentStore) &&
            Qle_bool (rect_z r + rect_length r) (store_depth currentStore) &&
            Qle_bool 1%Q (rect_width r) && Qle_bool 1%Q (rect_length r) in
          let overlaps :=
            existsb (fun aisle =>
                       if String.eqb (aisle_id aisle) rid then false
                       else rectOverlapsAisle r aisle)
                    (getCurrentAisles st) in
          if isValid && negb overlaps then inr (AwaitUpdate rid r)
          else inl (endResize st (aisles st))
      end
  | _, _, _, _ =>
      match isDragging st, currentDragRect st, currentStoreId st with
      | true, Some r, Some sid =>
          match getCurrentStore st with
          | None => inl (endDrag st (aisles st) None)
          | Some currentStore =>
              let MIN_SIZE : Q := 1%Q in
              if Qltb (rect_width r) MIN_SIZE || Qltb (rect_length r) MIN_SIZE then
                inl (endDrag st (aisles st) None)
              else if outOfBounds r currentStore then
                inl (endDrag st (aisles st) None)
              else
                let currentAisles := getCurrentAisles st in
                if existsb (rectOverlapsAisle r) currentAisles then
                  inl (endDrag st (aisles st) None)
                else inr (AwaitCreate sid (length currentAisles) r)
          end
      | _, _, _ => inl (endDrag st (aisles st) (currentDragRect st))
      end
  end.

(** [handleMouseUp] after its [await], on the state [st] the editor is in by
    then: the store's [updateAisle] or [addAisle] when the database call
    resolved ([db] as for [handleMouseUp]), then the resets. *)
Definition mouseUpResumed (db : option string) (wait : MouseUpWait) (st : EditorState)
  : EditorState :=
  match wait with
  | AwaitUpdate rid r =>
      match db with
      | Some _ => endResize st (List.map (updateAisleRect rid r) (aisles st))
      | None => endResize st (aisles st)
      end
  | AwaitCreate sid n r =>
      match db with
      | Some aisleId => endDrag st (aisles st ++ [newAisleOf sid aisleId n r]) None
      | None => endDrag st (aisles st) None
      end
  end.

(** ** Notions the statements below are phrased with *)

(** The centred-rectangle test applied to two boxes of one shelf. *)
Definition boxesOverlap (b1 b2 : BoxData) : bool :=
  overlapsSpot (mkSize (box_width b2) (box_height b2) (box_depth b2))
               (box_x b2) (box_z b2) b1.

(** A box lies in the usable shelf area, measured at its min corner. *)
Definition contained (b : BoxData) : Prop :=
  (startX <= box_x b - box_width b / 2 /\
   box_x b - box_width b / 2 <= endX - box_width b /\
   startZ <= box_z b - box_depth b / 2 /\
   box_z b - box_depth b / 2 <= endZ - box_depth b)%Q.

(** Every allocation that resolves to an inventory item has a footprint of
    at most 2.5 m by 1.0 m.  The sizes the application stores are positive
    (the presets of [BOX_SIZES]; zero and missing ones are replaced by the
    defaults); sides down to [- BOX_GAP] are admitted here. *)
Definition footprintsBounded (aisle : Aisle)
    (inventoryMap : gmap string InventoryProduct) : Prop :=
  forall prod invItem,
    prod ∈ products aisle ->
    inventoryMap !! ap_productId prod = Some invItem ->
    (- BOX_GAP <= (resolveDims invItem).1.1 <= 25 # 10)%Q /\
    (- BOX_GAP <= (resolveDims invItem).2 <= 1)%Q.

(** The cursor the packing loop fetches for a level. *)
Definition cursorOf (shelfCursors : gmap Z Cursor) (l : Z) : Cursor :=
  default freshCursor (shelfCursors !! l).

(** Number of boxes of one level in the units before [u]; [f] maps a unit to
    the level's boxes in it. *)
Definition countBefore (f : Z -> list BoxData) (u : Z) : Z :=
  foldr (fun u' acc => Z.of_nat (length (f u')) + acc) 0 (seqZ 0 u).

(** A per-level invariant [J] holds of every level's cursor and boxes. *)
Definition stateInv (J : Z -> Cursor -> (Z -> list BoxData) -> Prop)
    (st : gmap Z Cursor * gmap Z (gmap Z (list BoxData))) : Prop :=
  forall l, J l (cursorOf st.1 l) (fun u => boxesAt st.2 u l).

(** The level's counter equals its number of boxes, which sit in the units up
    to the cursor's, and each box's id ends in its sequence number. *)
Definition idsInv (aid : string) (l : Z) (c : Cursor) (f : Z -> list BoxData) : Prop :=
  0 <= cur_unit c /\
  (forall u, u < 0 \/ cur_unit c < u -> f u = []) /\
  boxIdx c = countBefore f (cur_unit c + 1) /\
  forall u i b, f u !! i = Some b ->
    unitIndex b = u /\ box_shelfLevel b = l /\ box_aisleId b = aid /\
    boxId b = mkBoxId aid (box_productId b) l u (countBefore f u + Z.of_nat i).

(** The cursor is not before the shelf origin and every box is contained. *)
Definition areaInv (l : Z) (c : Cursor) (f : Z -> list BoxData) : Prop :=
  (startX <= cur_x c)%Q /\ (startZ <= cur_z c)%Q /\
  forall u b, b ∈ f u -> contained b /\ unitIndex b = u /\ box_shelfLevel b = l.

Definition isInt (q : Q) : Prop := exists n : Z, (q == inject_Z n)%Q.

(** [n] boxes laid row by row from the shelf origin, [perRow] to a row. *)
Definition rowMajor (perRow : nat) (w d : Q) (boxes : list BoxData) : bool :=
  forallb
    (fun ib : nat * BoxData =>
       Qeq_bool (box_x ib.2)
                (startX + inject_Z (Z.of_nat (ib.1 mod perRow)) * (w + BOX_GAP) + w / 2) &&
       Qeq_bool (box_z ib.2)
                (startZ + inject_Z (Z.of_nat (ib.1 / perRow)) * (d + BOX_GAP) + d / 2))
    (imap (fun i b => (i, b)) boxes).

(** ** Concrete stores, aisles and gestures *)

Module Scenario.

Definition carton : InventoryProduct :=
  {| inv_id := "carton"; inv_name := "Carton";
     boxDimensions := Some (mkDimensions (25 # 100) (2 # 10) (2 # 10));
     inv_labelColor := "#3B82F6"; totalBoxesStock := 100 |}.

(** The [small] and [large] presets of [BOX_SIZES]. *)
Definition smallBox : InventoryProduct :=
  {| inv_id := "small"; inv_name := "Small";
     boxDimensions := Some (mkDimensions (15 # 100) (15 # 100) (10 # 100));
     inv_labelColor := "#10B981"; totalBoxesStock := 100 |}.

Definition largeBox : InventoryProduct :=
  {| inv_id := "large"; inv_name := "Large";
     boxDimensions := Some (mkDimensions (40 # 100) (35 # 100) (25 # 100));
     inv_labelColor := "#EF4444"; totalBoxesStock := 100 |}.

Definition stock : list InventoryProduct := [carton; smallBox; largeBox].

Definition alloc (productId : string) (n l : Z) : AisleProduct :=
  {| ap_id := "aprod"; ap_productId := productId; quantityBoxes := n;
     ap_shelfLevel := l |}.

Definition rackAisle (len : Q) (nShelves : Z) (ps : list AisleProduct) : Aisle :=
  {| aisle_id := "a1"; aisle_storeId := "s1"; aisle_name := "Aisle 1";
     aisle_x := 0%Q; aisle_z := 0%Q; aisle_width := 5%Q; aisle_length := len;
     aisle_height := 3%Q; shelves := nShelves; products := ps |}.

Definition pack (a : Aisle) : outcome (gmap Z (gmap Z (list BoxData))) :=
  boxesByUnitAndLevel a (inventoryMapOf stock).

(** 6 m long, one shelf, fifty cartons on level 1. *)
Definition sixMetres : Aisle := rackAisle 6%Q 1 [alloc "carton" 50 1].

(** 3 m long (one unit), one shelf: forty cartons, then one more. *)
Definition fullShelf : Aisle := rackAisle 3%Q 1 [alloc "carton" 40 1].
Definition fullShelfThenOne : Aisle :=
  rackAisle 3%Q 1 [alloc "carton" 40 1; alloc "carton" 1 1].

(** One large box, then eleven small ones, on the same level. *)
Definition mixedShelf : Aisle :=
  rackAisle 3%Q 1 [alloc "large" 1 1; alloc "small" 11 1].

(** Two cartons on level 1, and the two boxes packing gives them. *)
Definition twoCartons : Aisle := rackAisle 3%Q 1 [alloc "carton" 2 1].

Definition packedBox (i : nat) : option BoxData :=
  match pack twoCartons with
  | Ok result => boxesAt result 0 1 !! i
  | Throw _ => None
  end.

(** The carton the packing of [twoCartons] places first. *)
Definition firstCarton : BoxData :=
  boxAt twoCartons (alloc "carton" 2 1) carton 2 1 (25 # 100) (2 # 10) (2 # 10)
        freshCursor.

(** Enter walk mode, grab the first carton, drop it on the spot at
    [(x, z)] of unit 0, level 1, then grab the second carton. *)
Definition relocate (x z : Q) : SceneState :=
  match packedBox 0, packedBox 1 with
  | Some b0, Some b1 =>
      sceneRun (Some "s1") stock
        [ModeButton walk; GrabBox b0; PlaceBox 1000 "a1" 0 1 x z; GrabBox b1]
  | _, _ => initialScene
  end.

Definition shop : Store :=
  {| store_id := "s1"; store_width := 20%Q; store_depth := 20%Q |}.

Definition firstAisle : Aisle :=
  {| aisle_id := "a1"; aisle_storeId := "s1"; aisle_name := "Aisle 1";
     aisle_x := 0%Q; aisle_z := 0%Q; aisle_width := 10%Q; aisle_length := 10%Q;
     aisle_height := 3%Q; shelves := 6; products := [] |}.

(** The editor at rest on [shop]: 10 pixels to the metre, no zoom, no pan. *)
Definition idleEditor (existing : list Aisle) : EditorState :=
  {| stores := [shop]; aisles := existing; currentStoreId := Some "s1";
     selectedAisleId := None; isDragging := false; isPanning := false;
     dragStart := (0%Q, 0%Q); panStart := (0%Q, 0%Q); currentDragRect := None;
     isResizing := false; resizeHandle := None; resizeAisleId := None;
     originalAisle := None; zoom := 1%Q; panOffset := (0%Q, 0%Q);
     panToolActive := false; scale := 10%Q |}.

(** Press the left button at canvas pixel [p0], move to [p1], release. *)
Definition dragGesture (db : option string) (p0 p1 : Q * Q) (st : EditorState)
  : EditorState :=
  handleMouseUp db
    (handleMouseMove (fst p1) (snd p1) (fst p1) (snd p1)
       (handleMouseDown 0 false (fst p0) (snd p0) (fst p0) (snd p0) st)).

(** The canvas pixel of a world point in [idleEditor]. *)
Definition pixel (x z : Q) : Q * Q := (((x + 10) * 10)%Q, ((z + 10) * 10)%Q).

End Scenario.

(** Case analysis on the first [decide] of the goal. *)
Ltac split_decide :=
  match goal with
  | |- context [decide ?P] => destruct (decide P)
  end.

(** ** Notions of the further properties: packing *)

(** [result] has a list for unit [u] and level [l]. *)
Definition hasSlot (result : gmap Z (gmap Z (list BoxData))) (u l : Z) : Prop :=
  is_Some (result !! u ≫= (.!! l)).

(** The level an allocation is packed on, [prod.shelfLevel || 1]. *)
Definition targetOf (prod : AisleProduct) : Z := orZ (ap_shelfLevel prod) 1.

(** The allocation's product is in the inventory map. *)
Definition stocked (inventoryMap : gmap string InventoryProduct)
    (prod : AisleProduct) : bool :=
  bool_decide (is_Some (inventoryMap !! ap_productId prod)).

(** Boxes asked for on level [l]: the loop bounds of the stocked allocations
    that target it. *)
Fixpoint requested (inventoryMap : gmap string InventoryProduct) (l : Z)
    (ps : list AisleProduct) : Z :=
  match ps with
  | [] => 0
  | p :: ps' =>
      (if stocked inventoryMap p && Z.eqb (targetOf p) l
       then Z.of_nat (Z.to_nat (orZ (quantityBoxes p) 0)) else 0)
      + requested inventoryMap l ps'
  end.

(** The aisle with its allocations replaced, [{ ...aisle, products: ps }]. *)
Definition withProducts (a : Aisle) (ps : list AisleProduct) : Aisle :=
  mkAisle (aisle_id a) (aisle_storeId a) (aisle_name a) (aisle_x a) (aisle_z a)
          (aisle_width a) (aisle_length a) (aisle_height a) (shelves a) ps.

(** Every box of the level stems from one of its stocked allocations and
    carries that allocation's data. *)
Definition carriesInv (aisle : Aisle) (inventoryMap : gmap string InventoryProduct)
    (l : Z) (c : Cursor) (f : Z -> list BoxData) : Prop :=
  forall u b, b ∈ f u ->
    exists prod invItem,
      prod ∈ products aisle /\
      inventoryMap !! ap_productId prod = Some invItem /\
      targetOf prod = l /\
      box_productId b = ap_productId prod /\
      box_product b = invItem /\
      (box_width b, box_height b, box_depth b) = resolveDims invItem /\
      quantity b = orZ (quantityBoxes prod) 0 /\
      box_labelColor b = orS (inv_labelColor invItem) "#3B82F6".

(** Every stocked allocation on level [l] resolves to the footprint [w] x [d]. *)
Definition uniformLevel (aisle : Aisle) (inventoryMap : gmap string InventoryProduct)
    (l : Z) (w d : Q) : Prop :=
  forall prod invItem,
    prod ∈ products aisle ->
    inventoryMap !! ap_productId prod = Some invItem ->
    targetOf prod = l ->
    (resolveDims invItem).1.1 = w /\ (resolveDims invItem).2 = d.

(** The boxes of the cursor's unit lie in rows before the cursor's or, in its
    row, to the left of it; no two boxes of a unit overlap. *)
Definition rowInv (w d : Q) (c : Cursor) (f : Z -> list BoxData) : Prop :=
  (forall u b, b ∈ f u -> box_width b = w /\ box_depth b = d) /\
  (forall u, cur_unit c < u -> f u = []) /\
  (forall b, b ∈ f (cur_unit c) ->
     (box_z b - d / 2 <= cur_z c)%Q /\
     ((box_z b + d / 2 + BOX_GAP <= cur_z c)%Q \/
      (box_x b + w / 2 + BOX_GAP <= cur_x c)%Q)) /\
  (forall u i j b1 b2,
     f u !! i = Some b1 -> f u !! j = Some b2 -> i <> j ->
     boxesOverlap b1 b2 = false).

(** Cursor and boxes of a level sit on the grid of cells of [w] x [d] that
    starts at the origin of the usable area, gaps included, and the boxes lie
    inside the area. *)
Definition gridInv (w d : Q) (c : Cursor) (f : Z -> list BoxData) : Prop :=
  (exists k m : nat,
     (cur_x c == startX + inject_Z (Z.of_nat k) * (w + BOX_GAP))%Q /\
     (cur_z c == startZ + inject_Z (Z.of_nat m) * (d + BOX_GAP))%Q) /\
  forall u b, b ∈ f u ->
    exists i j : nat,
      (box_x b == startX + inject_Z (Z.of_nat i) * (w + BOX_GAP) + w / 2)%Q /\
      (box_z b == startZ + inject_Z (Z.of_nat j) * (d + BOX_GAP) + d / 2)%Q /\
      (box_x b + w / 2 <= endX)%Q /\ (box_z b + d / 2 <= endZ)%Q.

(** ** Notions of the further properties: vacant spots and overrides *)

(** The footprint of a box of size [vs] centred on the spot lies in the area
    the search scans on a rack of the given width and depth. *)
Definition spotOnShelf (width depth : Q) (vs : Size) (s : Spot) : Prop :=
  (- width / 2 + POST_SIZE + (1 # 10) <= spot_x s - size_width vs / 2 /\
   spot_x s + size_width vs / 2 <= width / 2 - POST_SIZE - (1 # 10) /\
   - depth / 2 + POST_SIZE + (1 # 10) <= spot_z s - size_depth vs / 2 /\
   spot_z s + size_depth vs / 2 <= depth / 2 - POST_SIZE - (1 # 10))%Q.

(** [s2] comes after [s1] in the scan: a later column, at least a box and a
    gap further along x, or the same column, at least a box and a gap further
    along z. *)
Definition spotAfter (vs : Size) (s1 s2 : Spot) : Prop :=
  (spot_x s1 + (size_width vs + BOX_GAP) <= spot_x s2)%Q \/
  ((spot_x s1 == spot_x s2)%Q /\
   (spot_z s1 + (size_depth vs + BOX_GAP) <= spot_z s2)%Q).

(** The store's record of a placement agrees with the override drawn. *)
Definition recorded (pb : PlacedBoxData) (p : PlacedBox) : Prop :=
  placed_id p = pb_id pb /\ placed_productId p = pb_productId pb /\
  placed_aisleId p = pb_aisleId pb /\ placed_shelfLevel p = pb_shelfLevel pb /\
  positionX p = pb_x pb /\ positionZ p = pb_z pb.

(** The values of [Date.now()] at the clicks on a vacant spot. *)
Definition clickTimes (evs : list SceneEvent) : list Z :=
  omap (fun ev => match ev with PlaceBox now _ _ _ _ _ => Some now | _ => None end) evs.

(** ** 2D aisle editor: floor plan, preview and view (Canvas2DEditor) *)

(** The rectangle an aisle covers on the floor plan. *)
Definition rectOfAisle (a : Aisle) : Rect :=
  {| rect_x := aisle_x a; rect_z := aisle_z a;
     rect_width := aisle_width a; rect_length := aisle_length a |}.

(** An aisle lies in the store and measures at least one metre each way. *)
Definition aisleInStore (store : Store) (a : Aisle) : Prop :=
  (0 <= aisle_x a /\ 0 <= aisle_z a /\
   aisle_x a + aisle_width a <= store_width store /\
   aisle_z a + aisle_length a <= store_depth store /\
   1 <= aisle_width a /\ 1 <= aisle_length a)%Q.

(** The floor plan of the current store is sound: every aisle lies in the
    store and no two aisles overlap under the editor's own test. *)
Definition layoutOK (st : EditorState) : Prop :=
  forall store, getCurrentStore st = Some store ->
    (forall a, a ∈ getCurrentAisles st -> aisleInStore store a) /\
    (forall i j a b,
       getCurrentAisles st !! i = Some a ->
       getCurrentAisles st !! j = Some b ->
       i <> j ->
       rectOverlapsAisle (rectOfAisle a) b = false).

(** What [renderCanvas] computes to colour the preview: red when [isInvalid]. *)
Definition previewInvalid (st : EditorState) (currentStore : Store) (r : Rect) : bool :=
  let isOutOfBounds :=
    Qltb (rect_x r) 0%Q || Qltb (rect_z r) 0%Q ||
    Qltb (store_width currentStore) (rect_x r + rect_width r) ||
    Qltb (store_depth currentStore) (rect_z r + rect_length r) in
  let overlapsExisting :=
    existsb (fun aisle =>
               if isResizing st &&
                  match resizeAisleId st with
                  | Some rid => String.eqb (aisle_id aisle) rid
                  | None => false
                  end
               then false
               else rectOverlapsAisle r aisle)
            (getCurrentAisles st) in
  let isTooSmall := Qltb (rect_width r) 1%Q || Qltb (rect_length r) 1%Q in
  isOutOfBounds || overlapsExisting || isTooSmall.

(** The canvas pixel at which [renderCanvas] draws the world point [(x, z)]:
    the context is translated by [panOffset] and the point is drawn at
    [paddingPx + v * scale * zoom]. *)
Definition toScreen (st : EditorState) (x z : Q) : Q * Q :=
  let padding : Q := 10%Q in
  let paddingPx := (padding * scale st * zoom st)%Q in
  ((fst (panOffset st) + (paddingPx + x * scale st * zoom st))%Q,
   (snd (panOffset st) + (paddingPx + z * scale st * zoom st))%Q).

(** The canvas pixel at which [drawAisle] centres the handle [h] of a
    selected aisle (the [handles] array). *)
Definition handlePixel (st : EditorState) (a : Aisle) (h : Handle) : Q * Q :=
  let padding : Q := 10%Q in
  let paddingPx := (padding * scale st * zoom st)%Q in
  let screenX := (paddingPx + aisle_x a * scale st * zoom st)%Q in
  let screenY := (paddingPx + aisle_z a * scale st * zoom st)%Q in
  let screenW := (aisle_width a * scale st * zoom st)%Q in
  let screenL := (aisle_length a * scale st * zoom st)%Q in
  let '(hx, hy) :=
    match h with
    | H_nw => (screenX, screenY)
    | H_n => ((screenX + screenW / 2)%Q, screenY)
    | H_ne => ((screenX + screenW)%Q, screenY)
    | H_e => ((screenX + screenW)%Q, (screenY + screenL / 2)%Q)
    | H_se => ((screenX + screenW)%Q, (screenY + screenL)%Q)
    | H_s => ((screenX + screenW / 2)%Q, (screenY + screenL)%Q)
    | H_sw => (screenX, (screenY + screenL)%Q)
    | H_w => (screenX, (screenY + screenL / 2)%Q)
    end in
  ((fst (panOffset st) + hx)%Q, (snd (panOffset st) + hy)%Q).

(** [setZoom(z); setPanOffset(p)]. *)
Definition setView (st : EditorState) (z : Q) (p : Q * Q) : EditorState :=
  mkEditorState (stores st) (aisles st) (currentStoreId st) (selectedAisleId st)
    (isDragging st) (isPanning st) (dragStart st) (panStart st)
    (currentDragRect st) (isResizing st) (resizeHandle st) (resizeAisleId st)
    (originalAisle st) z p (panToolActive st) (scale st).

(** The wheel listener; [(mouseX, mouseY)] is the pointer in canvas pixels. *)
Definition handleWheelCapture (deltaY mouseX mouseY : Q) (st : EditorState)
  : EditorState :=
  let currentZoom := zoom st in
  let currentPan := panOffset st in
  let zoomFactor : Q := if Qltb 0%Q deltaY then 9 # 10 else 11 # 10 in
  let newZoom := Qmax (1 # 10) (Qmin 5%Q (currentZoom * zoomFactor)) in
  let newPanX := (mouseX - (mouseX - fst currentPan) * (newZoom / currentZoom))%Q in
  let newPanY := (mouseY - (mouseY - snd currentPan) * (newZoom / currentZoom))%Q in
  setView st newZoom (newPanX, newPanY).

Definition handleZoomIn (st : EditorState) : EditorState :=
  setView st (Qmin 5%Q (zoom st * (12 # 10))) (panOffset st).

Definition handleZoomOut (st : EditorState) : EditorState :=
  setView st (Qmax (1 # 10) (zoom st / (12 # 10))) (panOffset st).

Definition CONFIG_scale : Q := 20%Q.
Definition CONFIG_canvasWidth : Q := 2000%Q.
Definition CONFIG_canvasHeight : Q := 2000%Q.

Definition handleFitToScreen (st : EditorState) : EditorState :=
  match getCurrentStore st with
  | None => setView st 1%Q (0%Q, 0%Q)
  | Some currentStore =>
      let width := store_width currentStore in
      let height := store_depth currentStore in
      let padding : Q := 5%Q in
      let zoomX := (CONFIG_canvasWidth * (9 # 10) / ((width + padding) * CONFIG_scale))%Q in
      let zoomY := (CONFIG_canvasHeight * (9 # 10) / ((height + padding) * CONFIG_scale))%Q in
      let newZoom := Qmin (Qmin zoomX zoomY) 2%Q in
      setView st newZoom (0%Q, 0%Q)
  end.

(** The editor's [handleReset]: the view goes back to no zoom, no pan. *)
Definition handleResetView (st : EditorState) : EditorState :=
  setView st 1%Q (0%Q, 0%Q).

(** What changes the view: the wheel and the four view buttons. *)
Inductive ViewEvent : Type :=
  | Wheel (deltaY mouseX mouseY : Q)
  | ZoomIn
  | ZoomOut
  | FitToScreen
  | ResetView.

Definition viewStep (st : EditorState) (ev : ViewEvent) : EditorState :=
  match ev with
  | Wheel deltaY mouseX mouseY => handleWheelCapture deltaY mouseX mouseY st
  | ZoomIn => handleZoomIn st
  | ZoomOut => handleZoomOut st
  | FitToScreen => handleFitToScreen st
  | ResetView => handleResetView st
  end.

(** The pointer's world position lies on the aisle, edges included. *)
Definition onAisle (worldPos : Q * Q) (a : Aisle) : Prop :=
  (aisle_x a <= fst worldPos <= aisle_x a + aisle_width a /\
   aisle_z a <= snd worldPos <= aisle_z a + aisle_length a)%Q.

(** ** Shelf capacity (lib/constants) *)

(** The generic product size of [PRODUCT_SIZE]. *)
Definition PRODUCT_SIZE_width : Q := 15 # 100.
Definition PRODUCT_SIZE_depth : Q := 15 # 100.
Definition PRODUCT_SIZE_height : Q := 25 # 100.

(** [calculateShelfCapacity]; the optional [productId] is not read. *)
Definition calculateShelfCapacity (aisleWidth aisleLength : Q) : Z :=
  let WALKWAY_WIDTH : Q := 15 # 10 in
  let countAlongLength := Qfloor (aisleLength / PRODUCT_SIZE_width) in
  let shelfDepthPerSide := Qmax (1 # 10) ((aisleWidth - WALKWAY_WIDTH) / 2) in
  let countDeep := Qfloor (shelfDepthPerSide / PRODUCT_SIZE_depth) in
  Z.max 1 (countAlongLength * countDeep * 2).

Definition calculateTotalAisleCapacity (aisleWidth aisleLength : Q) (shelfCount : Z) : Z :=
  let perShelfCapacity := calculateShelfCapacity aisleWidth aisleLength in
  perShelfCapacity * shelfCount.

(** ** The shared store (stores/useStore) *)

(** The slots of the store the actions below read or write; [viewMode] is
    left out. *)
Module UseStore.

Record StoreState : Type := mkStoreState {
  stores : list Store;
  aisles : list Aisle;
  inventory : list InventoryProduct;
  placedBoxes : list PlacedBox;
  currentStoreId : option string;
  selectedAisleId : option string
}.

(** [id === state.someId], the right-hand side being [null] or a string. *)
Definition isId (id : string) (current : option string) : bool :=
  match current with
  | Some c => String.eqb id c
  | None => false
  end.

(** [arr.findIndex(p)], [None] standing for -1. *)
Fixpoint findIndex {A : Type} (p : A -> bool) (arr : list A) : option nat :=
  match arr with
  | [] => None
  | x :: rest => if p x then Some O else S <$> findIndex p rest
  end.

Definition setCurrentStore (store : Store) (state : StoreState) : StoreState :=
  match findIndex (fun s => String.eqb (store_id s) (store_id store)) (stores state) with
  | Some existingIndex =>
      {| stores := <[existingIndex := store]> (stores state);
         aisles := aisles state; inventory := inventory state;
         placedBoxes := placedBoxes state;
         currentStoreId := Some (store_id store);
         selectedAisleId := None |}
  | None =>
      {| stores := stores state ++ [store];
         aisles := aisles state; inventory := inventory state;
         placedBoxes := placedBoxes state;
         currentStoreId := Some (store_id store);
         selectedAisleId := None |}
  end.

Definition deleteStore (storeId : string) (state : StoreState) : StoreState :=
  {| stores := List.filter (fun store => negb (String.eqb (store_id store) storeId))
                           (stores state);
     aisles := List.filter (fun aisle => negb (String.eqb (aisle_storeId aisle) storeId))
                           (aisles state);
     inventory := inventory state;
     placedBoxes := placedBoxes state;
     currentStoreId := if isId storeId (currentStoreId state) then None
                       else currentStoreId state;
     selectedAisleId := selectedAisleId state |}.

Definition addAisle (aisle : Aisle) (state : StoreState) : StoreState :=
  {| stores := stores state; aisles := aisles state ++ [aisle];
     inventory := inventory state; placedBoxes := placedBoxes state;
     currentStoreId := currentStoreId state;
     selectedAisleId := selectedAisleId state |}.

(** [updateAisle(aisleId, updates)]; [updates] is the effect of the spread
    [{ ...aisle, ...updates }] on an aisle. *)
Definition updateAisle (aisleId : string) (updates : Aisle -> Aisle)
    (state : StoreState) : StoreState :=
  {| stores := stores state;
     aisles := List.map (fun aisle => if String.eqb (aisle_id aisle) aisleId
                                      then updates aisle else aisle)
                        (aisles state);
     inventory := inventory state; placedBoxes := placedBoxes state;
     currentStoreId := currentStoreId state;
     selectedAisleId := selectedAisleId state |}.

Definition deleteAisle (aisleId : string) (state : StoreState) : StoreState :=
  {| stores := stores state;
     aisles := List.filter (fun aisle => negb (String.eqb (aisle_id aisle) aisleId))
                           (aisles state);
     inventory := inventory state; placedBoxes := placedBoxes state;
     currentStoreId := currentStoreId state;
     selectedAisleId := if isId aisleId (selectedAisleId state) then None
                        else selectedAisleId state |}.

Definition getCurrentStore (state : StoreState) : option Store :=
  List.find (fun store => isId (store_id store) (currentStoreId state)) (stores state).

Definition getCurrentAisles (state : StoreState) : list Aisle :=
  List.filter (fun aisle => isId (aisle_storeId aisle) (currentStoreId state))
              (aisles state).

Definition getSelectedAisle (state : StoreState) : option Aisle :=
  List.find (fun aisle => isId (aisle_id aisle) (selectedAisleId state)) (aisles state).

End UseStore.

(** ** Product manager (ProductManager) *)

(** [Array.from({ length: aisle.shelves }, () => 0)] followed by the
    [products.forEach] that counts the allocations of each level. *)
Definition shelfCounts (nShelves : Z) (products : list AisleProduct) : list Z :=
  foldl (fun counts p =>
           if Z.ltb 0 (ap_shelfLevel p) && Z.leb (ap_shelfLevel p) nShelves
           then alter Z.succ (Z.to_nat (ap_shelfLevel p - 1)) counts
           else counts)
        (replicate (Z.to_nat nShelves) 0) products.

(** [Math.min(...arr)]; [None] stands for the [Infinity] of an empty array. *)
Definition minOf (arr : list Z) : option Z :=
  match arr with
  | [] => None
  | x :: rest => Some (foldl Z.min x rest)
  end.

(** [arr.indexOf(v)]. *)
Fixpoint indexOf (v : Z) (arr : list Z) : Z :=
  match arr with
  | [] => -1
  | x :: rest =>
      if Z.eqb x v then 0
      else let i := indexOf v rest in if Z.eqb i (-1) then -1 else i + 1
  end.

(** [shelfCounts.indexOf(Math.min(...shelfCounts)) + 1]. *)
Definition targetShelfOf (nShelves : Z) (products : list AisleProduct) : Z :=
  let counts := shelfCounts nShelves products in
  match minOf counts with
  | None => -1
  | Some minVal => indexOf minVal counts
  end + 1.

(** The list [handleConfirmAdd] stores for the aisle once it is past its
    guard: [now] is [Date.now()], [aisle] the selected aisle and [products]
    the component's prop. *)
Definition handleConfirmAdd (now : Z) (selectedInvProduct : InventoryProduct)
    (boxQuantity : Z) (aisle : Aisle) (products : list AisleProduct)
  : list AisleProduct :=
  products ++
  [ {| ap_id := "aprod-" +:+ pretty now;
       ap_productId := inv_id selectedInvProduct;
       quantityBoxes := boxQuantity;
       ap_shelfLevel := targetShelfOf (shelves aisle) products |} ].

Definition handleRemoveProduct (id : string) (products : list AisleProduct)
  : list AisleProduct :=
  List.filter (fun p => negb (String.eqb (ap_id p) id)) products.

(** The sum [allocated] of [getAvailableStock], [allAisles] being
    [getCurrentAisles()]. *)
Definition allocatedBoxes (allAisles : list Aisle) (productId : string) : Z :=
  foldl (fun allocated a =>
           foldl (fun allocated p =>
                    if String.eqb (ap_productId p) productId
                    then allocated + orZ (quantityBoxes p) 0
                    else allocated)
                 allocated (products a))
        0 allAisles.

Definition getAvailableStock (allAisles : list Aisle) (productId : string)
    (totalStock : Z) : Z :=
  Z.max 0 (totalStock - allocatedBoxes allAisles productId).

(** The quantity [handleSelectProduct] starts with. *)
Definition handleSelectProduct (allAisles : list Aisle) (product : InventoryProduct) : Z :=
  let available := getAvailableStock allAisles (inv_id product) (totalBoxesStock product) in
  Z.min 10 available.

(** The [onChange] of the quantity input: [parsed] is [parseInt] of the text,
    [None] for [NaN]. *)
Definition onQuantityChange (allAisles : list Aisle) (selectedInvProduct : InventoryProduct)
    (parsed : option Z) : Z :=
  let max := getAvailableStock allAisles (inv_id selectedInvProduct)
                               (totalBoxesStock selectedInvProduct) in
  Z.min max (Z.max 1 (orZ (default 0 parsed) 1)).

(** Number of allocations on a level. *)
Definition loadOf (products : list AisleProduct) (l : Z) : Z :=
  Z.of_nat (length (List.filter (fun p => Z.eqb (ap_shelfLevel p) l) products)).

(** Every allocation sits on a level of the rack, and no two share one. *)
Definition onePerShelf (nShelves : Z) (ps : list AisleProduct) : Prop :=
  (forall p, p ∈ ps -> 1 <= ap_shelfLevel p <= nShelves) /\
  NoDup (ap_shelfLevel <$> ps).

(** Further scenarios the witnesses below run on. *)
Module Demo.

(** The session that moves the first carton: walk mode, grab, drop. *)
Definition moved : list SceneEvent :=
  [ModeButton walk; GrabBox Scenario.firstCarton;
   PlaceBox 1000 "a1" 0 1 (- (9 # 8)) (- (2 # 5))].

(** The editor in the middle of a create drag from (20, 10) to (10, 0), next
    to [firstAisle]. *)
Definition midDrag : EditorState :=
  handleMouseMove 200 100 200 100
    (handleMouseDown 0 false 300 200 300 200
       (Scenario.idleEditor [Scenario.firstAisle])).

(** Two shelves, two cartons allocated on level 1. *)
Definition twoShelves : Aisle :=
  Scenario.rackAisle 3%Q 2 [Scenario.alloc "carton" 2 1].

(** The shared store holding [shop] and [twoShelves], the latter selected. *)
Definition planner : UseStore.StoreState :=
  {| UseStore.stores := [Scenario.shop];
     UseStore.aisles := [twoShelves];
     UseStore.inventory := Scenario.stock;
     UseStore.placedBoxes := [];
     UseStore.currentStoreId := Some "s1";
     UseStore.selectedAisleId := Some "a1" |}.

(** A placement the database holds: the sixth carton, moved within unit 0. *)
Definition savedCarton : SavedPlacedBox :=
  {| saved_id := "doc1"; saved_boxId := "a1-carton-1-0-5"; saved_aisleId := "a1";
     saved_unitIndex := 0; saved_shelfLevel := 1;
     saved_x := 3 # 8; saved_z := 1 # 10;
     saved_width := 25 # 100; saved_height := 2 # 10; saved_depth := 2 # 10;
     saved_labelColor := "#3B82F6"; saved_productId := "carton";
     saved_productName := "Carton" |}.

(** A saved placement and the inventory arrive, a carton is grabbed and
    dropped, the walk button is pressed while the save is under way, the
    save returns. *)
Definition restored : list SessionEvent :=
  [ SavedArrived [(1000, savedCarton)];
    InventoryArrived Scenario.stock;
    ModePressed walk;
    Grabbed Scenario.firstCarton;
    PlaceCalled 2000 "a1" 0 1 (- (9 # 8)) (4 # 10);
    ModePressed walk;
    PlaceResumed ].

(** [shop] after it has been widened to 30 m. *)
Definition widerShop : Store :=
  {| store_id := "s1"; store_width := 30%Q; store_depth := 20%Q |}.

End Demo.

(** Case analysis on every [Qmax] and [Qmin] of the goal. *)
Ltac minmax_cases :=
  repeat match goal with
  | |- context [Qmax ?a ?b] =>
      lazymatch goal with
      | _ : (Qmax a b == _)%Q |- _ => fail
      | _ =>
          destruct (Q.max_spec a b
                    : ((a < b)%Q /\ (Qmax a b == b)%Q) \/
                      ((b <= a)%Q /\ (Qmax a b == a)%Q)) as [[? ?]|[? ?]]
      end
  | |- context [Qmin ?a ?b] =>
      lazymatch goal with
      | _ : (Qmin a b == _)%Q |- _ => fail
      | _ =>
          destruct (Q.min_spec a b
                    : ((a < b)%Q /\ (Qmin a b == a)%Q) \/
                      ((b <= a)%Q /\ (Qmin a b == b)%Q)) as [[? ?]|[? ?]]
      end
  end.

(** * Proofs *)

(** ** The usable shelf area in numbers *)

Lemma startX_val : (startX == - (5 # 4))%Q. Proof. reflexivity. Qed.
Lemma endX_val : (endX == 5 # 4)%Q. Proof. reflexivity. Qed.
Lemma startZ_val : (startZ == - (1 # 2))%Q. Proof. reflexivity. Qed.
Lemma endZ_val : (endZ == 1 # 2)%Q. Proof. reflexivity. Qed.
Lemma BOX_GAP_val : (BOX_GAP == 1 # 20)%Q. Proof. reflexivity. Qed.

Lemma forLoop_inv {A : Type} (P : A -> Prop) (body : A -> turn A) :
  (forall st, P st ->
     match body st with
     | Continue st' | Break st' => P st'
     | Raise _ => True
     end) ->
  forall n st st', P st -> forLoop n body st = Ok st' -> P st'.
Proof.
  intros Hbody n. induction n as [|n IH]; intros st st' HP Hrun; simpl in Hrun.
  - by injection Hrun as <-.
  - specialize (Hbody st HP). destruct (body st) as [s|s|e]; try done.
    + exact (IH _ _ Hbody Hrun).
    + by injection Hrun as <-.
Qed.

Lemma boxesAt_pushBox result u l b result' :
  pushBox result u l b = Some result' ->
  forall u' l',
    boxesAt result' u' l' =
      if decide (u' = u /\ l' = l) then boxesAt result u l ++ [b]
      else boxesAt result u' l'.
Proof.
  unfold pushBox, boxesAt. intros Hpush u' l'.
  destruct (result !! u) as [levels|] eqn:Hu; [|done].
  destruct (levels !! l) as [boxes|] eqn:Hl; [|done].
  injection Hpush as <-.
  destruct (decide (u' = u)) as [->|Hne].
  - rewrite lookup_insert_eq, Hu. simpl.
    destruct (decide (l' = l)) as [->|Hnl].
    + rewrite lookup_insert_eq, Hl. simpl. split_decide; [done | tauto].
    + rewrite lookup_insert_ne; [|done]. split_decide; [tauto | done].
  - rewrite lookup_insert_ne; [|done]. split_decide; [tauto | done].
Qed.

Lemma foldl_insert_lookup {V : Type} (v : V) (l : Z) (ls : list Z) :
  forall m : gmap Z V,
    foldl (fun m l => <[l := v]> m) m ls !! l =
    if decide (l ∈ ls) then Some v else m !! l.
Proof.
  induction ls as [|x ls IH]; intros m.
  - cbn [foldl]. split_decide; [|done]. by apply not_elem_of_nil in e.
  - cbn [foldl]. rewrite IH.
    destruct (decide (l ∈ ls)) as [Hin|Hnin];
      destruct (decide (l ∈ x :: ls)) as [Hin'|Hnin']; try done.
    + exfalso. apply Hnin'. by apply elem_of_cons; right.
    + apply elem_of_cons in Hin' as [->|Hin']; [|done]. by rewrite lookup_insert_eq.
    + rewrite lookup_insert_ne; [done|]. intros ->. apply Hnin'.
      by apply elem_of_cons; left.
Qed.

Lemma perLevel_lookup {V : Type} (n : Z) (v : V) (l : Z) :
  perLevel n v !! l = if decide (1 <= l <= n) then Some v else None.
Proof.
  unfold perLevel. rewrite foldl_insert_lookup, lookup_empty.
  destruct (decide (l ∈ seqZ 1 n)) as [Hin|Hnin];
    [apply elem_of_seqZ in Hin | rewrite elem_of_seqZ in Hnin];
    destruct (decide (1 <= l <= n)); try done; lia.
Qed.

Lemma boxesAt_initResult numUnits nShelves u l :
  boxesAt (initResult numUnits nShelves) u l = [].
Proof.
  unfold boxesAt, initResult.
  assert (Hgen : forall (us : list Z) (m : gmap Z (gmap Z (list BoxData))),
             (forall lv, m !! u = Some lv -> default [] (lv !! l) = []) ->
             forall lv, foldl (fun m u => <[u := perLevel nShelves []]> m) m us !! u = Some lv ->
                        default [] (lv !! l) = []).
  { induction us as [|x us IH]; intros m Hm lv; simpl; [by apply Hm|].
    apply IH. intros lv'. destruct (decide (x = u)) as [->|Hne].
    - rewrite lookup_insert_eq. intros [= <-]. rewrite perLevel_lookup.
      by split_decide.
    - rewrite lookup_insert_ne; [|done]. apply Hm. }
  destruct (foldl _ _ _ !! u) as [lv|] eqn:E; simpl; [|done].
  eapply Hgen; [|exact E]. intros lv'. by rewrite lookup_empty.
Qed.

Lemma cursorOf_perLevel n l : cursorOf (perLevel n freshCursor) l = freshCursor.
Proof. unfold cursorOf. rewrite perLevel_lookup. by split_decide. Qed.

Lemma cursorOf_insert sc l c l' :
  cursorOf (<[l := c]> sc) l' = if decide (l' = l) then c else cursorOf sc l'.
Proof.
  unfold cursorOf. destruct (decide (l' = l)) as [->|H].
  - by rewrite lookup_insert_eq.
  - by rewrite lookup_insert_ne.
Qed.

Section PackInvariant.
Variable aisle : Aisle.
Variable inventoryMap : gmap string InventoryProduct.
Variable numUnits : Z.
Variable J : Z -> Cursor -> (Z -> list BoxData) -> Prop.

Hypothesis J_ext : forall l c f g, (forall u, f u = g u) -> J l c f -> J l c g.

Hypothesis J_move : forall prod invItem c f,
  prod ∈ products aisle ->
  inventoryMap !! ap_productId prod = Some invItem ->
  let l := orZ (ap_shelfLevel prod) 1 in
  let '(w, _, d) := resolveDims invItem in
  J l c f -> J l (advanceUnit numUnits d (wrapRow w d c)).1 f.

Hypothesis J_place : forall prod invItem c f,
  prod ∈ products aisle ->
  inventoryMap !! ap_productId prod = Some invItem ->
  let l := orZ (ap_shelfLevel prod) 1 in
  let '(w, h, d) := resolveDims invItem in
  let c' := (advanceUnit numUnits d (wrapRow w d c)).1 in
  J l c f ->
  J l (afterBox w c')
    (fun u => if decide (u = cur_unit c')
              then f u ++ [boxAt aisle prod invItem (orZ (quantityBoxes prod) 0) l w h d c']
              else f u).

Lemma packProduct_inv st prod st' :
  prod ∈ products aisle ->
  stateInv J st ->
  packProduct aisle inventoryMap numUnits st prod = Ok st' ->
  stateInv J st'.
Proof.
  intros Hin Hinv. destruct st as [sc result]. unfold packProduct.
  destruct (inventoryMap !! ap_productId prod) as [invItem|] eqn:Hlook;
    [|by intros [= <-]].
  pose proof (J_move prod invItem) as Hmove.
  pose proof (J_place prod invItem) as Hplace.
  destruct (resolveDims invItem) as [[w h] d].
  set (l := orZ (ap_shelfLevel prod) 1) in *.
  set (cnt := orZ (quantityBoxes prod) 0) in *.
  destruct (forLoop _ _ _) as [[c' result']|e] eqn:Hloop; [|done].
  intros [= <-].
  pose (P := fun s : Cursor * gmap Z (gmap Z (list BoxData)) =>
               J l s.1 (fun u => boxesAt s.2 u l) /\
               forall l' u, l' <> l -> boxesAt s.2 u l' = boxesAt result u l').
  assert (HP : P (c', result')).
  { eapply (forLoop_inv P); [| |exact Hloop].
    - intros [c0 r0] [HJ Hother]. unfold placeBox.
      specialize (Hmove c0 _ Hin Hlook HJ).
      specialize (Hplace c0 _ Hin Hlook HJ).
      simpl in Hmove, Hplace, HJ.
      destruct (advanceUnit numUnits d (wrapRow w d c0)) as [c1 stop]; simpl in *.
      destruct stop; [by split|].
      destruct (pushBox r0 (cur_unit c1) l _) as [r1|] eqn:Hpush; [|done].
      pose proof (boxesAt_pushBox _ _ _ _ _ Hpush) as Hat.
      split; simpl.
      + eapply J_ext; [|exact Hplace]. intros u. simpl.
        rewrite Hat. destruct (decide (u = cur_unit c1)) as [->|Hne].
        * by rewrite decide_True.
        * rewrite decide_False; [done | tauto].
      + intros l' u Hne. rewrite Hat. rewrite decide_False; [|tauto].
        by apply Hother.
    - split; [apply (Hinv l) | done]. }
  destruct HP as [HJ Hother]. intros l'. simpl.
  rewrite cursorOf_insert. destruct (decide (l' = l)) as [->|Hl].
  - exact HJ.
  - eapply J_ext; [|apply (Hinv l')]. intros u. simpl.
    symmetry. by apply Hother.
Qed.

Lemma packProducts_inv ps : forall st st',
  (forall p, p ∈ ps -> p ∈ products aisle) ->
  stateInv J st ->
  packProducts aisle inventoryMap numUnits st ps = Ok st' ->
  stateInv J st'.
Proof.
  induction ps as [|p ps IH]; intros st st' Hsub Hinv; simpl.
  - by intros [= <-].
  - destruct (packProduct _ _ _ _ _) as [st1|e] eqn:Hp; [|done].
    apply IH.
    + intros q Hq. apply Hsub. by apply elem_of_cons; right.
    + eapply packProduct_inv; [|exact Hinv|exact Hp].
      apply Hsub. by apply elem_of_cons; left.
Qed.
End PackInvariant.

Lemma boxesByUnitAndLevel_inv aisle inventoryMap
    (J : Z -> Cursor -> (Z -> list BoxData) -> Prop) :
  (forall l c f g, (forall u, f u = g u) -> J l c f -> J l c g) ->
  (forall prod invItem c f,
    prod ∈ products aisle ->
    inventoryMap !! ap_productId prod = Some invItem ->
    let l := orZ (ap_shelfLevel prod) 1 in
    let '(w, _, d) := resolveDims invItem in
    J l c f -> J l (advanceUnit (numUnitsOf aisle) d (wrapRow w d c)).1 f) ->
  (forall prod invItem c f,
    prod ∈ products aisle ->
    inventoryMap !! ap_productId prod = Some invItem ->
    let l := orZ (ap_shelfLevel prod) 1 in
    let '(w, h, d) := resolveDims invItem in
    let c' := (advanceUnit (numUnitsOf aisle) d (wrapRow w d c)).1 in
    J l c f ->
    J l (afterBox w c')
      (fun u => if decide (u = cur_unit c')
                then f u ++ [boxAt aisle prod invItem (orZ (quantityBoxes prod) 0) l w h d c']
                else f u)) ->
  (forall l, J l freshCursor (fun _ => [])) ->
  forall result l,
    boxesByUnitAndLevel aisle inventoryMap = Ok result ->
    exists c, J l c (fun u => boxesAt result u l).
Proof.
  intros Hext Hmove Hplace Hinit result l. unfold boxesByUnitAndLevel.
  destruct (packProducts _ _ _ _ _) as [[sc r]|e] eqn:Hrun; [|done].
  intros [= <-].
  exists (cursorOf sc l).
  eapply (packProducts_inv aisle inventoryMap (numUnitsOf aisle) J Hext Hmove Hplace)
    in Hrun; [exact (Hrun l) | done |].
  intros l'. simpl. rewrite cursorOf_perLevel.
  eapply Hext; [|apply Hinit]. intros u. simpl. by rewrite boxesAt_initResult.
Qed.

Lemma foldr_count_ext (f g : Z -> list BoxData) (ls : list Z) :
  (forall x, x ∈ ls -> length (f x) = length (g x)) ->
  foldr (fun u' acc => Z.of_nat (length (f u')) + acc) 0 ls =
  foldr (fun u' acc => Z.of_nat (length (g u')) + acc) 0 ls.
Proof.
  induction ls as [|x ls IH]; intros H; simpl; [done|].
  rewrite IH, H; [done | by apply elem_of_cons; left |].
  intros y Hy. apply H. by apply elem_of_cons; right.
Qed.

Lemma countBefore_ext f g u :
  (forall u', 0 <= u' < u -> length (f u') = length (g u')) ->
  countBefore f u = countBefore g u.
Proof.
  intros H. apply foldr_count_ext. intros x Hx.
  apply elem_of_seqZ in Hx. apply H. lia.
Qed.

Lemma countBefore_succ f u :
  0 <= u -> countBefore f (u + 1) = countBefore f u + Z.of_nat (length (f u)).
Proof.
  intros Hu. unfold countBefore.
  rewrite (seqZ_app 0 u 1) by lia. rewrite foldr_app.
  assert (seqZ (0 + u) 1 = [u]) as ->.
  { unfold seqZ. simpl. f_equal; lia. }
  simpl. generalize (seqZ 0 u). intros ls.
  induction ls as [|x ls IH]; simpl; lia.
Qed.

Lemma move_cursor numUnits w d c :
  let c1 := (advanceUnit numUnits d (wrapRow w d c)).1 in
  boxIdx c1 = boxIdx c /\ (cur_unit c1 = cur_unit c \/ cur_unit c1 = cur_unit c + 1).
Proof.
  unfold advanceUnit, wrapRow.
  destruct (Qlt_le_dec endX _); simpl; destruct (Qlt_le_dec endZ _); simpl; auto.
Qed.

Lemma idsInv_ext aid l c f g :
  (forall u, f u = g u) -> idsInv aid l c f -> idsInv aid l c g.
Proof.
  intros Hfg (Hu & Hemp & Hidx & Hids).
  assert (Hcnt : forall u, countBefore g u = countBefore f u).
  { intros u. apply countBefore_ext. intros. by rewrite Hfg. }
  split; [done|]. split; [|split].
  - intros u Hr. rewrite <- Hfg. by apply Hemp.
  - by rewrite Hcnt.
  - intros u i b Hlk. rewrite <- Hfg in Hlk. rewrite Hcnt. by apply Hids.
Qed.

Lemma idsInv_move aid l numUnits w d c f :
  idsInv aid l c f ->
  idsInv aid l (advanceUnit numUnits d (wrapRow w d c)).1 f.
Proof.
  intros (Hu & Hemp & Hidx & Hids).
  destruct (move_cursor numUnits w d c) as [Hi Hc].
  split; [lia|]. split; [|split; [|done]].
  - intros u Hr. apply Hemp. lia.
  - rewrite Hi, Hidx. destruct Hc as [->| ->]; [done|].
    rewrite (countBefore_succ f (cur_unit c + 1)) by lia.
    rewrite (Hemp (cur_unit c + 1)) by lia. simpl. lia.
Qed.

Lemma idsInv_place aisle prod invItem cnt l w h d c f :
  idsInv (aisle_id aisle) l c f ->
  idsInv (aisle_id aisle) l (afterBox w c)
    (fun u => if decide (u = cur_unit c)
              then f u ++ [boxAt aisle prod invItem cnt l w h d c]
              else f u).
Proof.
  intros (Hu & Hemp & Hidx & Hids).
  set (f' := fun u => if decide (u = cur_unit c) then _ else f u).
  assert (Hbefore : forall u, u <= cur_unit c -> countBefore f' u = countBefore f u).
  { intros u Hle. apply countBefore_ext. intros u' Hu'. unfold f'.
    rewrite decide_False; [done | lia]. }
  split; [done|]. split; [|split].
  - intros u Hr. unfold f'. simpl in Hr. rewrite decide_False by lia. by apply Hemp.
  - simpl. rewrite countBefore_succ by done. rewrite Hbefore by lia.
    rewrite Hidx, countBefore_succ by done. unfold f'. rewrite decide_True by done.
    rewrite length_app. simpl. lia.
  - intros u i b. unfold f' at 1. destruct (decide (u = cur_unit c)) as [->|Hne].
    + rewrite Hbefore by lia. intros Hlk.
      apply lookup_app_Some in Hlk as [Hlk | [Hlen Hlk]].
      * by apply Hids.
      * apply list_lookup_singleton_Some in Hlk as [Hi <-]. simpl.
        repeat split; try done. f_equal. rewrite Hidx, countBefore_succ by done. lia.
    + intros Hlk. destruct (decide (u <= cur_unit c)).
      * rewrite Hbefore by done. by apply Hids.
      * rewrite Hemp in Hlk by lia. done.
Qed.

Lemma areaInv_ext l c f g :
  (forall u, f u = g u) -> areaInv l c f -> areaInv l c g.
Proof.
  intros Hfg (Hx & Hz & Hb). split; [done|]. split; [done|].
  intros u b Hin. rewrite <- Hfg in Hin. by apply Hb.
Qed.

Lemma move_in_area numUnits w d c :
  (- BOX_GAP <= w <= 25 # 10)%Q -> (- BOX_GAP <= d <= 1)%Q ->
  (startX <= cur_x c)%Q -> (startZ <= cur_z c)%Q ->
  let c1 := (advanceUnit numUnits d (wrapRow w d c)).1 in
  (startX <= cur_x c1 /\ cur_x c1 + w <= endX /\
   startZ <= cur_z c1 /\ cur_z c1 + d <= endZ)%Q.
Proof.
  intros Hw Hd Hx Hz.
  pose proof startX_val. pose proof endX_val. pose proof startZ_val.
  pose proof endZ_val. pose proof BOX_GAP_val.
  unfold advanceUnit, wrapRow.
  destruct (Qlt_le_dec endX _); simpl; destruct (Qlt_le_dec endZ _); simpl in *;
    repeat split; lra.
Qed.

Lemma areaInv_move l numUnits w d c f :
  (- BOX_GAP <= w <= 25 # 10)%Q -> (- BOX_GAP <= d <= 1)%Q ->
  areaInv l c f ->
  areaInv l (advanceUnit numUnits d (wrapRow w d c)).1 f.
Proof.
  intros Hw Hd (Hx & Hz & Hb).
  destruct (move_in_area numUnits w d c Hw Hd Hx Hz) as (? & ? & ? & ?).
  split; [done|]. split; [done|]. exact Hb.
Qed.

Lemma areaInv_place aisle prod invItem cnt l numUnits w h d c f :
  (- BOX_GAP <= w <= 25 # 10)%Q -> (- BOX_GAP <= d <= 1)%Q ->
  let c' := (advanceUnit numUnits d (wrapRow w d c)).1 in
  areaInv l c f ->
  areaInv l (afterBox w c')
    (fun u => if decide (u = cur_unit c')
              then f u ++ [boxAt aisle prod invItem cnt l w h d c']
              else f u).
Proof.
  intros Hw Hd c' (Hx & Hz & Hb).
  destruct (move_in_area numUnits w d c Hw Hd Hx Hz) as (Hx1 & Hx2 & Hz1 & Hz2).
  fold c' in Hx1, Hx2, Hz1, Hz2.
  split; [|split].
  - simpl. lra.
  - simpl. lra.
  - intros u b. destruct (decide (u = cur_unit c')) as [->|Hne]; [|by apply Hb].
    intros Hin. apply elem_of_app in Hin as [Hin|Hin]; [by apply Hb|].
    apply list_elem_of_singleton in Hin as ->.
    split; [|done]. unfold contained. simpl. repeat split; lra.
Qed.

Lemma forLoop_ext {A : Type} (f g : A -> turn A) :
  (forall st, f st = g st) -> forall n st, forLoop n f st = forLoop n g st.
Proof.
  intros Hfg n. induction n as [|n IH]; intros st; simpl; [done|].
  rewrite Hfg. destruct (g st); auto.
Qed.

Lemma packProducts_aisle_id a1 a2 inventoryMap numUnits ps :
  aisle_id a1 = aisle_id a2 ->
  forall st, packProducts a1 inventoryMap numUnits st ps =
             packProducts a2 inventoryMap numUnits st ps.
Proof.
  intros Hid. induction ps as [|p ps IH]; intros st; simpl; [done|].
  assert (Hp : packProduct a1 inventoryMap numUnits st p =
               packProduct a2 inventoryMap numUnits st p).
  { unfold packProduct. destruct st as [sc r].
    destruct (inventoryMap !! ap_productId p) as [invItem|]; [|done].
    destruct (resolveDims invItem) as [[w h] d].
    erewrite forLoop_ext; [reflexivity|].
    intros [c0 r0]. unfold placeBox, boxAt. by rewrite Hid. }
  rewrite Hp. destruct (packProduct a2 _ _ _ _); [apply IH | done].
Qed.


(** ** A level whose cursor has left the units *)

(** Once a level's cursor stands on a unit that [result] does not hold (as
    it does after the level has overflowed) an allocation whose box fits at
    the cursor raises at its first box. *)
Lemma exhausted_level_throws aisle numUnits prod invItem cnt l w h d c result n :
  result !! cur_unit c = None ->
  (cur_x c + w <= endX)%Q -> (cur_z c + d <= endZ)%Q ->
  forLoop (S n) (placeBox aisle numUnits prod invItem cnt l w h d) (c, result)
    = Throw TypeError.
Proof.
  intros Hnone Hx Hz. cbn [forLoop]. unfold placeBox, wrapRow.
  destruct (Qlt_le_dec endX (cur_x c + w)) as [Hgt|_]; [lra|].
  unfold advanceUnit.
  destruct (Qlt_le_dec endZ (cur_z c + d)) as [Hgt|_]; [lra|].
  unfold pushBox. by rewrite Hnone.
Qed.

(** ** The grid of candidate spots *)

Lemma forGrid_sound {A : Type} (P : A -> Prop) size limit step
    (body : Q -> option (list A)) :
  (forall x xs, body x = Some xs -> Forall P xs) ->
  forall fuel v res,
    forGrid fuel v size limit step body = Some res -> Forall P res.
Proof.
  intros Hbody fuel. induction fuel as [|fuel IH]; intros v res; cbn [forGrid].
  - destruct (Qle_bool (v + size) limit); [done|]. intros [= <-]. constructor.
  - destruct (Qle_bool (v + size) limit); [|intros [= <-]; constructor].
    destruct (body v) as [xs|] eqn:Hxs; [|done].
    destruct (forGrid fuel _ _ _ _ _) as [ys|] eqn:Hys; [|done].
    intros [= <-]. apply Forall_app. split; [by eapply Hbody | by eapply IH].
Qed.

(** The spots a rack offers are clear, under the centred-rectangle test, of
    every box the rack was given. *)
Lemma vacantSpots_clear_of_given_boxes width depth shelfBoxes vs spots :
  vacantSpots width depth shelfBoxes true (Some vs) = Some spots ->
  Forall (fun s => existsb (overlapsSpot vs (spot_x s) (spot_z s)) shelfBoxes = false)
         spots.
Proof.
  unfold vacantSpots. apply forGrid_sound. intros x xs.
  apply forGrid_sound. intros z zs.
  destruct (existsb _ shelfBoxes) eqn:Hex; intros [= <-]; repeat constructor.
  exact Hex.
Qed.

Lemma Qfloor_pred (y : Q) : Qfloor (y - 1) < Qfloor y.
Proof.
  pose proof (Qfloor_le (y - 1)) as Hlo. pose proof (Qlt_floor y) as Hhi.
  rewrite inject_Z_plus in Hhi. change (inject_Z 1) with 1%Q in Hhi.
  rewrite Zlt_Qlt. lra.
Qed.

Lemma forGrid_enough {A : Type} size limit step (body : Q -> option (list A)) :
  (0 < step)%Q -> (forall x, is_Some (body x)) ->
  forall fuel v,
    Qfloor ((limit - size - v) / step) < Z.of_nat fuel ->
    is_Some (forGrid fuel v size limit step body).
Proof.
  intros Hstep Hbody fuel. induction fuel as [|fuel IH]; intros v Hfuel; cbn [forGrid].
  - destruct (Qle_bool (v + size) limit) eqn:Hle; [|done].
    apply Qle_bool_iff in Hle. exfalso.
    assert (0 <= (limit - size - v) / step)%Q as Hpos.
    { apply Qle_shift_div_l; [done | lra]. }
    apply Qfloor_resp_le in Hpos. change (Qfloor 0) with 0 in Hpos. lia.
  - destruct (Qle_bool (v + size) limit) eqn:Hle; [|done].
    destruct (Hbody v) as [xs ->].
    destruct (IH (v + step)%Q) as [ys ->]; [|done].
    assert (Heq : ((limit - size - (v + step)) / step == (limit - size - v) / step - 1)%Q).
    { field. lra. }
    rewrite Heq. pose proof (Qfloor_pred ((limit - size - v) / step)). lia.
Qed.

Lemma forGrid_total {A : Type} start size limit step (body : Q -> option (list A)) :
  (0 < step)%Q -> (forall x, is_Some (body x)) ->
  is_Some (forGrid (gridFuel start size limit step) start size limit step body).
Proof.
  intros Hstep Hbody. apply forGrid_enough; try done.
  unfold gridFuel. destruct (Qlt_le_dec 0 step); [lia | lra].
Qed.

(** For a held box whose sides exceed [- BOX_GAP] the search ends. *)
Lemma vacantSpots_total width depth shelfBoxes show size :
  (forall vs, size = Some vs ->
     (0 < size_width vs + BOX_GAP)%Q /\ (0 < size_depth vs + BOX_GAP)%Q) ->
  is_Some (vacantSpots width depth shelfBoxes show size).
Proof.
  intros Hpos. unfold vacantSpots. destruct show; [|done].
  destruct size as [vs|]; [|done]. destruct (Hpos vs eq_refl) as [Hw Hd].
  apply forGrid_total; [done|]. intros x.
  apply forGrid_total; [done|]. intros z.
  by destruct (existsb _ shelfBoxes).
Qed.

(** * The claims *)

(** ** Packing *)

(** C1.  Overflow of one allocation is silent: of forty cartons asked for on
    the single level of a one-unit aisle, thirty-two are placed and nothing is
    raised.  A later allocation on that exhausted level, however, makes the
    packing raise a TypeError instead of placing nothing: the cursor was left
    on unit 1, which [result] does not hold. *)
Theorem later_product_on_exhausted_shelf_throws :
  (exists result,
     Scenario.pack Scenario.fullShelf = Ok result /\
     length (boxesAt result 0 1) = 32%nat) /\
  Scenario.pack Scenario.fullShelfThenOne = Throw TypeError.
Proof.
  split.
  - eexists. split; vm_compute; reflexivity.
  - vm_compute. reflexivity.
Qed.

(** C2.  With one large box followed by eleven small ones on the same level,
    the first and the last box placed in unit 0 overlap under the
    centred-rectangle test: the row advance uses the depth of the box being
    placed, not that of the deepest box of the row. *)
Theorem mixed_footprints_overlap_on_shared_shelf :
  exists result b1 b2,
    Scenario.pack Scenario.mixedShelf = Ok result /\
    boxesAt result 0 1 !! 0%nat = Some b1 /\
    boxesAt result 0 1 !! 11%nat = Some b2 /\
    box_productId b1 = "large" /\
    box_productId b2 = "small" /\
    boxesOverlap b1 b2 = true.
Proof.
  do 3 eexists.
  split; [vm_compute; reflexivity|].
  split; [vm_compute; reflexivity|].
  split; [vm_compute; reflexivity|].
  split; [reflexivity|]. split; [reflexivity|].
  vm_compute. reflexivity.
Qed.

(** C3, as stated, fails: in the 6 m, one-shelf aisle with fifty cartons of
    0.25 x 0.2 x 0.2, it is not the case that fewer than fifty boxes are
    placed with both units non-empty. *)
Lemma fifty_cartons_are_all_placed :
  ~ (exists result,
       Scenario.pack Scenario.sixMetres = Ok result /\
       (length (boxesAt result 0 1) + length (boxesAt result 1 1) < 50)%nat /\
       (0 < length (boxesAt result 0 1))%nat /\
       (0 < length (boxesAt result 1 1))%nat).
Proof.
  intros (result & Hpack & Hlt & _).
  assert (Hall : match Scenario.pack Scenario.sixMetres with
                 | Ok r => (length (boxesAt r 0 1) + length (boxesAt r 1 1))%nat = 50%nat
                 | Throw _ => False
                 end) by (vm_compute; reflexivity).
  rewrite Hpack in Hall. lia.
Qed.

(** C3, amended.  The aisle has two units; unit 0 is filled row by row with
    4 rows of 8 cartons, the remaining 18 continue row by row in unit 1, and
    the packer stops when all fifty cartons are placed, so that the total is
    exactly 50 and both units hold boxes. *)
Theorem capacity_scenario_fills_unit_then_continues :
  numUnitsOf Scenario.sixMetres = 2 /\
  exists result,
    Scenario.pack Scenario.sixMetres = Ok result /\
    length (boxesAt result 0 1) = 32%nat /\
    length (boxesAt result 1 1) = 18%nat /\
    rowMajor 8 (25 # 100) (2 # 10) (boxesAt result 0 1) = true /\
    rowMajor 8 (25 # 100) (2 # 10) (boxesAt result 1 1) = true /\
    (length (boxesAt result 0 1) + length (boxesAt result 1 1))%nat = 50%nat.
Proof.
  split; [vm_compute; reflexivity|].
  eexists. split; [vm_compute; reflexivity|].
  repeat split; vm_compute; reflexivity.
Qed.

(** C4.  The packing is a function of the aisle's id, products, shelf count
    and length and of the inventory map only, so that recomputing it with
    these unchanged gives the same boxes with the same ids and positions; and
    the id of the [i]-th box of unit [u] on level [l] is built from the aisle
    id, the box's product id, [l], [u] and the number of boxes placed on
    level [l] before it. *)
Theorem pack_deterministic_stable_ids a1 a2 inventoryMap :
  aisle_id a1 = aisle_id a2 ->
  products a1 = products a2 ->
  shelves a1 = shelves a2 ->
  aisle_length a1 = aisle_length a2 ->
  boxesByUnitAndLevel a1 inventoryMap = boxesByUnitAndLevel a2 inventoryMap /\
  forall result u l i b,
    boxesByUnitAndLevel a1 inventoryMap = Ok result ->
    boxesAt result u l !! i = Some b ->
    unitIndex b = u /\ box_shelfLevel b = l /\ box_aisleId b = aisle_id a1 /\
    boxId b = mkBoxId (aisle_id a1) (box_productId b) l u
                (countBefore (fun u' => boxesAt result u' l) u + Z.of_nat i).
Proof.
  intros Hid Hps Hsh Hlen. split.
  - unfold boxesByUnitAndLevel, numUnitsOf. rewrite Hps, Hsh, Hlen.
    by rewrite (packProducts_aisle_id a1 a2).
  - intros result u l i b Hpack Hlk.
    destruct (boxesByUnitAndLevel_inv a1 inventoryMap (idsInv (aisle_id a1)))
      with (result := result) (l := l) as [c (_ & _ & _ & Hids)]; try done.
    + apply idsInv_ext.
    + intros prod invItem c f _ _. destruct (resolveDims invItem) as [[w h] d].
      apply idsInv_move.
    + intros prod invItem c f _ _. destruct (resolveDims invItem) as [[w h] d].
      cbv zeta. intros HJ. apply idsInv_place. by apply idsInv_move.
    + by apply Hids.
Qed.

(** Witness of C4: two aisles that differ in name, position, width and
    height pack alike, and the second carton's id is built from the aisle id,
    the product id, level 1, unit 0 and sequence number 1. *)
Lemma pack_deterministic_stable_ids_witness :
  Scenario.pack Scenario.twoCartons =
  Scenario.pack
    (mkAisle "a1" "s1" "Renamed" 7%Q 9%Q 4%Q 3%Q 2%Q 1 [Scenario.alloc "carton" 2 1]) /\
  exists b, Scenario.packedBox 1 = Some b /\ boxId b = "a1-carton-1-0-1".
Proof.
  destruct (pack_deterministic_stable_ids Scenario.twoCartons
              (mkAisle "a1" "s1" "Renamed" 7%Q 9%Q 4%Q 3%Q 2%Q 1
                       [Scenario.alloc "carton" 2 1])
              (inventoryMapOf Scenario.stock)
              eq_refl eq_refl eq_refl eq_refl) as [Hsame Hids].
  split; [exact Hsame|].
  destruct (Scenario.pack Scenario.twoCartons) as [result|e] eqn:Hpack;
    [|vm_compute in Hpack; discriminate].
  destruct (boxesAt result 0 1 !! 1%nat) as [b|] eqn:Hb.
  - exists b. split.
    + unfold Scenario.packedBox. rewrite Hpack. exact Hb.
    + destruct (Hids result 0 1 1%nat b Hpack Hb) as (_ & _ & _ & Hid).
      rewrite Hid. vm_compute in Hpack. injection Hpack as <-.
      vm_compute in Hb. injection Hb as <-. vm_compute. reflexivity.
  - vm_compute in Hpack. injection Hpack as <-. vm_compute in Hb. discriminate.
Defined.

(** C10.  When every resolved footprint is at most 2.5 m wide and 1.0 m
    deep (and not negative: sides down to -0.05 m are covered), each box of
    a finished packing lies in the usable area of the unit and level that
    hold it: its min corner is in
    [startX, endX - width] x [startZ, endZ - depth]. *)
Theorem packed_boxes_within_usable_area aisle inventoryMap result :
  footprintsBounded aisle inventoryMap ->
  boxesByUnitAndLevel aisle inventoryMap = Ok result ->
  forall u l b, b ∈ boxesAt result u l ->
    contained b /\ unitIndex b = u /\ box_shelfLevel b = l.
Proof.
  intros Hdims Hpack u l b Hin.
  destruct (boxesByUnitAndLevel_inv aisle inventoryMap areaInv) with (result := result) (l := l)
    as [c (_ & _ & Hb)]; try done.
  - apply areaInv_ext.
  - intros prod invItem c f Hp Hlk. specialize (Hdims prod invItem Hp Hlk).
    destruct (resolveDims invItem) as [[w h] d]. simpl in Hdims.
    apply areaInv_move; tauto.
  - intros prod invItem c f Hp Hlk. specialize (Hdims prod invItem Hp Hlk).
    destruct (resolveDims invItem) as [[w h] d]. simpl in Hdims.
    apply areaInv_place; tauto.
  - intros l'. split; [apply Qle_refl|]. split; [apply Qle_refl|].
    intros u0 b0 Hb0. by apply elem_of_nil in Hb0.
  - by apply Hb.
Qed.

(** Witness of C10: the two units of the 6 m aisle with fifty cartons. *)
Lemma packed_boxes_within_usable_area_witness :
  match Scenario.pack Scenario.sixMetres with
  | Ok result =>
      Forall contained (boxesAt result 0 1) /\ Forall contained (boxesAt result 1 1)
  | Throw _ => False
  end.
Proof.
  assert (Hfit : footprintsBounded Scenario.sixMetres (inventoryMapOf Scenario.stock)).
  { intros prod invItem Hin Hlk. apply list_elem_of_singleton in Hin as ->.
    vm_compute in Hlk. injection Hlk as <-. repeat split; vm_compute; discriminate. }
  pose proof (packed_boxes_within_usable_area Scenario.sixMetres
                (inventoryMapOf Scenario.stock)) as Hthm.
  unfold Scenario.pack.
  destruct (boxesByUnitAndLevel Scenario.sixMetres (inventoryMapOf Scenario.stock))
    as [result|e] eqn:Hpack; [|vm_compute in Hpack; discriminate].
  split; apply Forall_forall; intros b Hin; by apply (Hthm result Hfit eq_refl _ _ b Hin).
Defined.

(** ** Vacant spots *)

(** C5.  After the first carton has been dropped on the spot at
    (-1.125, -0.4) of unit 0, level 1, and the second carton has been grabbed,
    the search still offers a spot on the right rack of unit 0, level 1, at
    the very place where the override is drawn, although the spot's footprint
    overlaps the override's under the centred-rectangle test: the overrides
    are not among the boxes the search tests against. *)
Theorem vacant_search_offers_spot_under_override :
  exists pb held slots slot,
    placedBoxesData (Scenario.relocate (- (9 # 8)) (- (2 # 5))) = [pb] /\
    heldBox (Scenario.relocate (- (9 # 8)) (- (2 # 5))) = Some held /\
    pb_aisleId pb = "a1" /\ pb_unitIndex pb = 0 /\ pb_shelfLevel pb = 1 /\
    sceneVacantSlots Scenario.twoCartons Scenario.stock
      (Scenario.relocate (- (9 # 8)) (- (2 # 5))) = Ok (Some slots) /\
    slots !! 32%nat = Some slot /\
    slot_aisleId slot = "a1" /\ slot_unitIndex slot = 0 /\
    slot_side slot = RightRack /\ slot_shelfLevel slot = 1 /\
    Qeq_bool (slotWorld Scenario.twoCartons slot).1
             (placedBoxWorld Scenario.twoCartons pb).1 = true /\
    Qeq_bool (slotWorld Scenario.twoCartons slot).2
             (placedBoxWorld Scenario.twoCartons pb).2 = true /\
    placedOverlapsSpot (mkSize (box_width held) (box_height held) (box_depth held))
                       (slot_spot slot) pb = true.
Proof.
  do 4 eexists.
  split; [vm_compute; reflexivity|].
  split; [vm_compute; reflexivity|].
  split; [reflexivity|]. split; [reflexivity|]. split; [reflexivity|].
  split; [vm_compute; reflexivity|].
  split; [vm_compute; reflexivity|].
  repeat split; vm_compute; reflexivity.
Qed.

(** ** Aisle editor *)

Lemma Qltb_false (a b : Q) : (b <= a)%Q -> Qltb a b = false.
Proof. intros H. unfold Qltb. destruct (Qlt_le_dec a b); [lra | done]. Qed.

Lemma Qmin_cases (a b : Q) : Qmin a b = a \/ Qmin a b = b.
Proof.
  unfold Qmin, GenericMinMax.gmin. destruct (a ?= b)%Q; auto.
Qed.

Lemma isInt_inject (n : Z) : isInt (inject_Z n).
Proof. by exists n. Qed.

(** A span between two integers, a zero span being replaced by 1, is an
    integer not below 1. *)
Lemma span_integral (a b : Z) :
  isInt (orQ (Qabs (inject_Z a - inject_Z b)) 1%Q) /\
  (1 <= orQ (Qabs (inject_Z a - inject_Z b)) 1%Q)%Q.
Proof.
  assert (Habs : (Qabs (inject_Z a - inject_Z b) == inject_Z (Z.abs (a - b)))%Q).
  { unfold Qabs, Qminus, Qplus, Qopp, inject_Z, Qeq. simpl. f_equal. lia. }
  unfold orQ. destruct (Qeq_bool _ 0%Q) eqn:Hz.
  - split; [exists 1; reflexivity | lra].
  - split; [by exists (Z.abs (a - b))|].
    rewrite Habs. apply Qeq_bool_neq in Hz. rewrite Habs in Hz.
    assert (Z.abs (a - b) <> 0).
    { intros H0. apply Hz. rewrite H0. reflexivity. }
    change 1%Q with (inject_Z 1). rewrite <- Zle_Qle. lia.
Qed.

(** The preview of a create drag is an integer rectangle whose sides are at
    least one metre long, wherever the pointer is. *)
Lemma drag_preview_integral (sx sz : Z) (wx wz : Q) :
  let r := dragRect (inject_Z sx, inject_Z sz) (snap wx) (snap wz) in
  isInt (rect_x r) /\ isInt (rect_z r) /\
  isInt (rect_width r) /\ isInt (rect_length r) /\
  (1 <= rect_width r)%Q /\ (1 <= rect_length r)%Q.
Proof.
  unfold dragRect, snap. cbn [rect_x rect_z rect_width rect_length fst snd].
  destruct (span_integral (Qfloor (wx + (1 # 2))) sx) as [Hw1 Hw2].
  destruct (span_integral (Qfloor (wz + (1 # 2))) sz) as [Hl1 Hl2].
  repeat split; try done.
  - destruct (Qmin_cases (inject_Z sx) (inject_Z (Qfloor (wx + (1 # 2))))) as [-> | ->];
      apply isInt_inject.
  - destruct (Qmin_cases (inject_Z sz) (inject_Z (Qfloor (wz + (1 # 2))))) as [-> | ->];
      apply isInt_inject.
Qed.

Lemma handleMouseMove_drag st cX cY px py :
  isPanning st = false -> isResizing st = false -> isDragging st = true ->
  handleMouseMove cX cY px py st =
    setDrag st true false
      (Some (dragRect (dragStart st) (snap (toWorld st px py).1)
                      (snap (toWorld st px py).2))).
Proof.
  intros Hp Hr Hd. unfold handleMouseMove. rewrite Hp, Hr, Hd. done.
Qed.

(** Releasing on a preview that passes the three tests appends one aisle. *)
Lemma handleMouseUp_accepts st r sid store id :
  isResizing st = false -> isDragging st = true ->
  currentDragRect st = Some r -> currentStoreId st = Some sid ->
  getCurrentStore st = Some store ->
  (1 <= rect_width r)%Q -> (1 <= rect_length r)%Q ->
  (0 <= rect_x r)%Q -> (0 <= rect_z r)%Q ->
  (rect_x r + rect_width r <= store_width store)%Q ->
  (rect_z r + rect_length r <= store_depth store)%Q ->
  (forall a, a ∈ getCurrentAisles st -> rectOverlapsAisle r a = false) ->
  handleMouseUp (Some id) st =
    endDrag st (aisles st ++ [newAisleOf sid id (length (getCurrentAisles st)) r]) None.
Proof.
  intros Hr Hd Hrect Hsid Hstore Hw Hl Hx Hz Hright Hbottom Hfree.
  assert (Hno : existsb (rectOverlapsAisle r) (getCurrentAisles st) = false).
  { apply not_true_is_false. intros Hex. apply existsb_exists in Hex as (a & Hin & Ha).
    apply list_elem_of_In in Hin. rewrite (Hfree a Hin) in Ha. done. }
  assert (Hin : outOfBounds r store = false).
  { unfold outOfBounds. rewrite !Qltb_false; done. }
  unfold handleMouseUp. rewrite Hr, Hd, Hrect, Hsid, Hstore.
  rewrite !Qltb_false by done. simpl. by rewrite Hin, Hno.
Qed.

(** Releasing on a preview that overlaps an aisle of the store adds nothing. *)
Lemma handleMouseUp_rejects_overlap st r db :
  isResizing st = false -> currentDragRect st = Some r ->
  (exists a, a ∈ getCurrentAisles st /\ rectOverlapsAisle r a = true) ->
  aisles (handleMouseUp db st) = aisles st.
Proof.
  intros Hr Hrect (a & Hin & Ha).
  assert (Hex : existsb (rectOverlapsAisle r) (getCurrentAisles st) = true).
  { apply existsb_exists. exists a. split; [by apply list_elem_of_In | done]. }
  unfold handleMouseUp. rewrite Hr, Hrect.
  destruct (isDragging st); [|done].
  destruct (currentStoreId st); [|done].
  destruct (getCurrentStore st) as [store|]; [|done].
  destruct (_ || _); [done|].
  destruct (outOfBounds r store); [done|].
  by rewrite Hex.
Qed.

(** C6.  While a create drag is under way the preview is the rectangle
    spanned by the snapped anchor and the snapped pointer, with integer
    coordinates and sides.  Releasing the button on a preview that lies in the
    store and overlaps no aisle of the store adds, once the database has
    returned the new id, exactly one aisle, whose x, z, width and length are
    the preview's; releasing on a preview that overlaps an aisle of the store
    adds none.  With an aisle at (0,0,10,10) in a 20 m x 20 m store, the drag
    to (5,5,10,10) adds nothing and the drag to (10,0,10,10), which only
    touches it, adds that aisle. *)
Theorem commit_drag_create_round_trip :
  (forall st cX cY px py sx sz sid store id,
     isPanning st = false -> isResizing st = false -> isDragging st = true ->
     dragStart st = (inject_Z sx, inject_Z sz) ->
     currentStoreId st = Some sid -> getCurrentStore st = Some store ->
     exists r,
       currentDragRect (handleMouseMove cX cY px py st) = Some r /\
       r = dragRect (dragStart st) (snap (toWorld st px py).1)
                    (snap (toWorld st px py).2) /\
       isInt (rect_x r) /\ isInt (rect_z r) /\
       isInt (rect_width r) /\ isInt (rect_length r) /\
       ((0 <= rect_x r)%Q -> (0 <= rect_z r)%Q ->
        (rect_x r + rect_width r <= store_width store)%Q ->
        (rect_z r + rect_length r <= store_depth store)%Q ->
        (forall a, a ∈ getCurrentAisles st -> rectOverlapsAisle r a = false) ->
        exists a',
          aisles (handleMouseUp (Some id) (handleMouseMove cX cY px py st))
            = aisles st ++ [a'] /\
          aisle_id a' = id /\ aisle_storeId a' = sid /\
          aisle_x a' = rect_x r /\ aisle_z a' = rect_z r /\
          aisle_width a' = rect_width r /\ aisle_length a' = rect_length r /\
          currentDragRect (handleMouseUp (Some id) (handleMouseMove cX cY px py st))
            = None) /\
       ((exists a, a ∈ getCurrentAisles st /\ rectOverlapsAisle r a = true) ->
        forall db,
          aisles (handleMouseUp db (handleMouseMove cX cY px py st)) = aisles st)) /\
  aisles (Scenario.dragGesture (Some "a2") (Scenario.pixel 15 15) (Scenario.pixel 5 5)
            (Scenario.idleEditor [Scenario.firstAisle])) = [Scenario.firstAisle] /\
  exists a',
    aisles (Scenario.dragGesture (Some "a2") (Scenario.pixel 20 10) (Scenario.pixel 10 0)
              (Scenario.idleEditor [Scenario.firstAisle])) = [Scenario.firstAisle; a'] /\
    aisle_id a' = "a2" /\
    (aisle_x a', aisle_z a', aisle_width a', aisle_length a') = (10%Q, 0%Q, 10%Q, 10%Q).
Proof.
  split; [|split].
  - intros st cX cY px py sx sz sid store id Hp Hr Hd Hstart Hsid Hstore.
    rewrite (handleMouseMove_drag st cX cY px py Hp Hr Hd).
    eexists. split; [reflexivity|]. split; [reflexivity|].
    rewrite Hstart.
    destruct (drag_preview_integral sx sz (toWorld st px py).1 (toWorld st px py).2)
      as (Hix & Hiz & Hiw & Hil & Hw & Hl).
    split; [done|]. split; [done|]. split; [done|]. split; [done|]. split.
    + intros Hx Hz Hright Hbottom Hfree.
      erewrite handleMouseUp_accepts; try done.
      eexists. split; [reflexivity|]. done.
    + intros Hover db.
      exact (handleMouseUp_rejects_overlap (setDrag st true false (Some _)) _ db
               Hr eq_refl Hover).
  - vm_compute. reflexivity.
  - eexists. split; [vm_compute; reflexivity|]. split; reflexivity.
Qed.

(** Witness of C6: in the 20 m x 20 m store holding the aisle at (0,0,10,10),
    a drag anchored at (20,10) with the pointer at (10,0). *)
Lemma commit_drag_create_round_trip_witness :
  exists a',
    aisles (handleMouseUp (Some "a2")
              (handleMouseMove 200 100 200 100
                 (handleMouseDown 0 false 300 200 300 200
                    (Scenario.idleEditor [Scenario.firstAisle])))) =
      [Scenario.firstAisle] ++ [a'] /\
    Qeq_bool (aisle_x a') 10 = true /\ Qeq_bool (aisle_z a') 0 = true /\
    Qeq_bool (aisle_width a') 10 = true /\ Qeq_bool (aisle_length a') 10 = true.
Proof.
  destruct commit_drag_create_round_trip as (Hdrag & _).
  destruct (Hdrag
              (handleMouseDown 0 false 300 200 300 200
                 (Scenario.idleEditor [Scenario.firstAisle]))
              200%Q 100%Q 200%Q 100%Q 20 10 "s1" Scenario.shop "a2")
    as (r & Hrect & Hr & _ & _ & _ & _ & Haccept & _);
    try (vm_compute; reflexivity).
  subst r.
  destruct Haccept as (a' & Hadd & _ & _ & Hx & Hz & Hw & Hl & _);
    try (vm_compute; discriminate).
  - intros a Ha. vm_compute in Ha. apply list_elem_of_singleton in Ha as ->.
    vm_compute. reflexivity.
  - exists a'. split; [exact Hadd|]. rewrite Hx, Hz, Hw, Hl.
    repeat split; vm_compute; reflexivity.
Defined.

(** C7.  A drag from (2,2) to (2.2,5.3) spans 0.2 m across, which snaps to a
    span of zero; the preview replaces the zero by 1, the minimum-size test
    on release finds nothing under 1 m, and an aisle 1 m wide and 3 m long is
    created rather than the gesture being dropped as a click. *)
Theorem narrow_drag_still_creates_aisle :
  Qeq_bool (toWorld (Scenario.idleEditor []) 122 153).1 (22 # 10) = true /\
  Qeq_bool (toWorld (Scenario.idleEditor []) 122 153).2 (53 # 10) = true /\
  currentDragRect
    (handleMouseMove 122 153 122 153
       (handleMouseDown 0 false 120 120 120 120 (Scenario.idleEditor []))) =
    Some (mkRect 2%Q 2%Q 1%Q 3%Q) /\
  exists a,
    aisles (Scenario.dragGesture (Some "a1") (Scenario.pixel 2 2) (122%Q, 153%Q)
              (Scenario.idleEditor [])) = [a] /\
    (aisle_x a, aisle_z a, aisle_width a, aisle_length a) = (2%Q, 2%Q, 1%Q, 3%Q).
Proof.
  split; [vm_compute; reflexivity|].
  split; [vm_compute; reflexivity|].
  split; [vm_compute; reflexivity|].
  eexists. split; [vm_compute; reflexivity|]. reflexivity.
Qed.

(** ** Shelf count *)

Lemma calculateShelfCount_range (h : Q) : 1 <= calculateShelfCount h <= 10.
Proof. unfold calculateShelfCount. lia. Qed.

(** C9.  [calculateShelfCount] is the formula of the claim and its value lies
    in 1..10, and a height edit stores that value; but a newly created aisle
    takes the constants of [DEFAULT_AISLE], height 3 and 6 shelves, where the
    formula gives 5 for height 3; and the shelf-count input stores any parsed
    integer from 1 up, such as 25. *)
Theorem default_shelves_differ_from_formula :
  (forall h, calculateShelfCount h = shelfCountFormula h /\
             1 <= calculateShelfCount h <= 10) /\
  (forall a, shelves (onHeightChange 3 a) = calculateShelfCount 3) /\
  calculateShelfCount DEFAULT_AISLE_height = 5 /\
  (forall sid id n r,
     aisle_height (newAisleOf sid id n r) = DEFAULT_AISLE_height /\
     shelves (newAisleOf sid id n r) = 6) /\
  (exists a,
     aisles (Scenario.dragGesture (Some "a2") (Scenario.pixel 20 10) (Scenario.pixel 10 0)
               (Scenario.idleEditor [Scenario.firstAisle])) = [Scenario.firstAisle; a] /\
     shelves a = 6 /\ calculateShelfCount (aisle_height a) = 5) /\
  (forall a, shelves (onShelvesChange 25 a) = 25).
Proof.
  split; [|split; [|split; [|split; [|split]]]].
  - intros h. split; [reflexivity | apply calculateShelfCount_range].
  - intros a. reflexivity.
  - vm_compute. reflexivity.
  - intros. split; reflexivity.
  - eexists. split; [vm_compute; reflexivity|]. split; vm_compute; reflexivity.
  - intros a. reflexivity.
Qed.

(** ** Box interaction *)

Lemma filter_shrinks {A : Type} (f : A -> bool) (l : list A) (x : A) :
  In x l -> f x = false -> (length (List.filter f l) < length l)%nat.
Proof.
  induction l as [|y l IH]; intros Hin Hf; simpl in *; [done|].
  pose proof (List.filter_length_le f l) as Hle.
  destruct Hin as [->|Hin].
  - rewrite Hf. lia.
  - specialize (IH Hin Hf). destruct (f y); simpl; lia.
Qed.

Lemma size_add_picked (x : string) (s : gset string) :
  (size ({[x]} ∪ s) <= S (size s))%nat.
Proof.
  rewrite size_union_alt, size_singleton.
  assert (size (s ∖ {[x]}) <= size s)%nat; [|lia].
  apply subseteq_size. intros y Hy. apply elem_of_difference in Hy. tauto.
Qed.

(** [handlePlaceBox] is its call followed at once by its resumption. *)
Lemma handlePlaceBox_two_parts sid now a u l x z st inventory :
  placeBoxResumed (placeBoxCalled sid now a u l x z
                     {| scene := st; isPlacing := false; sessionInventory := inventory |})
  = {| scene := handlePlaceBox sid now a u l x z st; isPlacing := false;
       sessionInventory := inventory |}.
Proof.
  unfold placeBoxCalled, placeBoxResumed, handlePlaceBox.
  cbn [scene isPlacing sessionInventory].
  destruct (heldBox st) eqn:Hh, sid; cbn [scene isPlacing sessionInventory]; try done.
  all: by destruct st.
Qed.

(** The sessions of [sceneRun] are among those of [sessionRun]. *)
Lemma sessionRun_atomically sid inventory evs :
  sessionRun sid inventory (evs ≫= atomically)
  = {| scene := sceneRun sid inventory evs; isPlacing := false;
       sessionInventory := inventory |}.
Proof.
  unfold sessionRun, sceneRun. induction evs as [|ev evs IH] using rev_ind; [done|].
  rewrite bind_app, !foldl_app, IH. cbn [mbind list_bind foldl app atomically].
  destruct ev as [b|now a u l x z|i|m|];
    cbn [atomically app foldl sessionStep sceneStep onScene scene isPlacing
         sessionInventory];
    try done.
  - apply handlePlaceBox_two_parts.
  - by destruct (placedBoxesData _ !! i).
Qed.

Lemma sessionStep_countsInv sid s ev :
  (forall saved, ev = SavedArrived saved -> heldBox (scene s) = None) ->
  countsInv s -> countsInv (sessionStep sid s ev).
Proof.
  unfold countsInv. intros Hload HI.
  destruct s as [st lk inventory]. cbn [scene isPlacing sessionInventory] in *.
  destruct ev as [b|now a u l x z| |i|m| |saved|data];
    cbn [sessionStep onScene scene isPlacing sessionInventory].
  - unfold handleGrabBox. cbn [heldBox placedBoxesData pickedUpCount].
    destruct (heldBox st), lk; cbv beta iota in *; lia.
  - unfold placeBoxCalled. cbn [scene isPlacing].
    destruct (heldBox st) as [held|] eqn:Hh, sid, lk;
      cbn [scene isPlacing heldBox placedBoxesData pickedUpCount];
      rewrite ?Hh, ?length_app; cbn [length]; cbv beta iota in *; lia.
  - unfold placeBoxResumed. cbn [scene isPlacing].
    destruct (heldBox st) eqn:Hh, lk;
      cbn [scene isPlacing heldBox placedBoxesData pickedUpCount];
      rewrite ?Hh; cbv beta iota in *; lia.
  - destruct (placedBoxesData st !! i) as [pb|] eqn:Hi; cbn [onScene scene isPlacing]; [|done].
    unfold handleGrabPlacedBox. destruct (heldBox st) eqn:Hh; [by rewrite Hh|].
    destruct (List.find _ inventory); [|by rewrite Hh].
    cbn [heldBox placedBoxesData pickedUpCount].
    assert (length (List.filter (fun p => negb (String.eqb (pb_id p) (pb_id pb)))
                      (placedBoxesData st)) < length (placedBoxesData st))%nat.
    { apply (filter_shrinks _ _ pb).
      - apply list_elem_of_In, list_elem_of_lookup. eauto.
      - by rewrite String.eqb_refl. }
    destruct lk; cbv beta iota in *; lia.
  - unfold clickModeButton. cbn [heldBox placedBoxesData pickedUpCount].
    destruct m, (heldBox st), lk; cbv beta iota in *; lia.
  - unfold handleReset. cbn [heldBox placedBoxesData pickedUpCount length]. lia.
  - specialize (Hload saved eq_refl). unfold initData_placedBoxes.
    destruct sid; [|done]. destruct saved as [|e saved]; [done|].
    cbn [heldBox placedBoxesData pickedUpCount]. rewrite Hload, length_fmap. lia.
  - unfold initData_inventory. by destruct data.
Qed.

Lemma sessionRun_countsInv sid inventory evs :
  arrivalsFindHandEmpty sid inventory evs -> countsInv (sessionRun sid inventory evs).
Proof.
  induction evs as [|ev evs IH] using rev_ind; intros Harr.
  - unfold sessionRun, countsInv. cbn. lia.
  - unfold sessionRun. rewrite foldl_app. cbn [foldl].
    apply sessionStep_countsInv.
    + intros saved ->. apply (Harr evs saved []). done.
    + apply IH. intros before saved after ->.
      apply (Harr before saved (after ++ [ev])). by rewrite <- app_assoc.
Qed.

(** One step keeps the distinct picked-up ids at most as many as the
    counter says. *)
Lemma sessionStep_ids_bound sid s ev :
  Z.of_nat (size (pickedBoxIds (scene s))) <= pickedUpCount (scene s) ->
  Z.of_nat (size (pickedBoxIds (scene (sessionStep sid s ev))))
    <= pickedUpCount (scene (sessionStep sid s ev)).
Proof.
  intros Hs. destruct s as [st lk inventory]. cbn [scene isPlacing sessionInventory] in *.
  destruct ev as [b|now a u l x z| |i|m| |saved|data];
    cbn [sessionStep onScene scene isPlacing sessionInventory].
  - unfold handleGrabBox. cbn [pickedUpCount pickedBoxIds].
    pose proof (size_add_picked (boxId b) (pickedBoxIds st)). lia.
  - unfold placeBoxCalled. cbn [scene isPlacing].
    destruct (heldBox st), sid, lk; done.
  - unfold placeBoxResumed. cbn [scene isPlacing]. destruct lk; done.
  - destruct (placedBoxesData st !! i) as [pb|]; cbn [onScene scene]; [|done].
    unfold handleGrabPlacedBox. destruct (heldBox st); [done|].
    destruct (List.find _ inventory); done.
  - done.
  - unfold handleReset. cbn [pickedUpCount pickedBoxIds]. rewrite size_empty. lia.
  - unfold initData_placedBoxes. destruct sid; [|done]. destruct saved as [|e saved]; [done|].
    cbn [pickedUpCount pickedBoxIds].
    generalize (e :: saved). intros l. clear.
    induction l as [|x l IH]; [rewrite fmap_nil, list_to_set_nil, size_empty; cbn; lia|].
    rewrite fmap_cons, list_to_set_cons.
    pose proof (size_add_picked (saved_boxId (snd x))
                  (list_to_set ((fun entry => saved_boxId (snd entry)) <$> l))).
    cbn [length]. lia.
  - unfold initData_inventory. by destruct data.
Qed.

Lemma sessionRun_ids_bound sid inventory evs :
  Z.of_nat (size (pickedBoxIds (scene (sessionRun sid inventory evs))))
    <= pickedUpCount (scene (sessionRun sid inventory evs)).
Proof.
  unfold sessionRun. induction evs as [|ev evs IH] using rev_ind.
  - cbn. rewrite size_empty. lia.
  - rewrite foldl_app. cbn [foldl]. by apply sessionStep_ids_bound.
Qed.

(** C8, as stated, fails: after grabbing a box in walk mode and pressing the
    walk button, one id is picked up and the counter is 1, while no override
    is in hand or placed. *)
Lemma walk_button_breaks_equality :
  ~ (forall evs,
       Z.of_nat (size (pickedBoxIds (sceneRun (Some "s1") Scenario.stock evs))) =
       heldOrPlaced (sceneRun (Some "s1") Scenario.stock evs)) /\
  ~ (forall evs,
       pickedUpCount (sceneRun (Some "s1") Scenario.stock evs) =
       heldOrPlaced (sceneRun (Some "s1") Scenario.stock evs)).
Proof.
  split; intros H;
    specialize (H [ModeButton walk; GrabBox Scenario.firstCarton; ModeButton walk]);
    vm_compute in H; discriminate.
Qed.

(** While a placement waits for its save the override is drawn and the box
    still in hand: two overrides against a counter of one. *)
Lemma placement_under_way_counts_twice :
  heldOrPlaced (scene (sessionRun (Some "s1") Scenario.stock
                         [Grabbed Scenario.firstCarton;
                          PlaceCalled 2000 "a1" 0 1 (- (9 # 8)) (4 # 10)])) = 2 /\
  pickedUpCount (scene (sessionRun (Some "s1") Scenario.stock
                          [Grabbed Scenario.firstCarton;
                           PlaceCalled 2000 "a1" 0 1 (- (9 # 8)) (4 # 10)])) = 1.
Proof. split; vm_compute; reflexivity. Qed.

(** Saved placements that arrive while a box is in hand set the counter to
    their number, below the overrides in hand or drawn. *)
Lemma late_arrival_lowers_counter :
  heldOrPlaced (scene (sessionRun (Some "s1") Scenario.stock
                         [Grabbed Scenario.firstCarton;
                          SavedArrived [(1000, Demo.savedCarton)]])) = 2 /\
  pickedUpCount (scene (sessionRun (Some "s1") Scenario.stock
                          [Grabbed Scenario.firstCarton;
                           SavedArrived [(1000, Demo.savedCarton)]])) = 1.
Proof. split; vm_compute; reflexivity. Qed.

(** C8, amended.  Take the states reached from the initial one by grabs,
    clicks on vacant spots (the override is drawn at the click, the hand is
    emptied when the save has returned), re-grabs of a drawn override, mode
    buttons, resets and arrivals of saved placements or of the inventory.
    At each of them the distinct picked-up ids number at most the pick-up
    counter.  When the saved placements arrive on an empty hand, the drawn
    overrides number at most the counter, and so do the overrides in hand or
    drawn whenever no placement waits for its save.  No event other than
    reset and the arrival of saved placements removes a picked-up id or
    lowers the counter; no event other than reset takes the ids from some to
    none or the counter from positive to zero; and reset empties the one and
    zeroes the other. *)
Theorem session_counts_bounded_and_monotone sid inventory evs :
  Z.of_nat (size (pickedBoxIds (scene (sessionRun sid inventory evs))))
    <= pickedUpCount (scene (sessionRun sid inventory evs)) /\
  (arrivalsFindHandEmpty sid inventory evs ->
     Z.of_nat (length (placedBoxesData (scene (sessionRun sid inventory evs))))
       <= pickedUpCount (scene (sessionRun sid inventory evs)) /\
     (isPlacing (sessionRun sid inventory evs) = false ->
      heldOrPlaced (scene (sessionRun sid inventory evs))
        <= pickedUpCount (scene (sessionRun sid inventory evs)))) /\
  (forall ev, ev <> ResetPressed -> (forall saved, ev <> SavedArrived saved) ->
     pickedBoxIds (scene (sessionRun sid inventory evs))
       ⊆ pickedBoxIds (scene (sessionStep sid (sessionRun sid inventory evs) ev)) /\
     pickedUpCount (scene (sessionRun sid inventory evs))
       <= pickedUpCount (scene (sessionStep sid (sessionRun sid inventory evs) ev))) /\
  (forall ev, ev <> ResetPressed ->
     (pickedBoxIds (scene (sessionRun sid inventory evs)) <> ∅ ->
      pickedBoxIds (scene (sessionStep sid (sessionRun sid inventory evs) ev)) <> ∅) /\
     (0 < pickedUpCount (scene (sessionRun sid inventory evs)) ->
      0 < pickedUpCount (scene (sessionStep sid (sessionRun sid inventory evs) ev)))) /\
  pickedBoxIds (scene (sessionStep sid (sessionRun sid inventory evs) ResetPressed)) = ∅ /\
  pickedUpCount (scene (sessionStep sid (sessionRun sid inventory evs) ResetPressed)) = 0.
Proof.
  split; [apply sessionRun_ids_bound|].
  split.
  { intros Harr. pose proof (sessionRun_countsInv sid inventory evs Harr) as HI.
    unfold countsInv, heldOrPlaced in *.
    destruct (heldBox (scene (sessionRun sid inventory evs))),
             (isPlacing (sessionRun sid inventory evs));
      cbv beta iota in HI; (split; [lia|intros Hlk; (lia || done)]). }
  assert (Hmono : forall s ev, ev <> ResetPressed -> (forall saved, ev <> SavedArrived saved) ->
            pickedBoxIds (scene s) ⊆ pickedBoxIds (scene (sessionStep sid s ev)) /\
            pickedUpCount (scene s) <= pickedUpCount (scene (sessionStep sid s ev))).
  { intros [st lk inv] ev Hreset Hload.
    destruct ev as [b|now a u l x z| |i|m| |saved|data];
      cbn [sessionStep onScene scene isPlacing sessionInventory].
    - unfold handleGrabBox. cbn [pickedBoxIds pickedUpCount]. split; [|lia].
      intros id Hid. by apply elem_of_union_r.
    - unfold placeBoxCalled. cbn [scene isPlacing].
      destruct (heldBox st), sid, lk; cbn [scene pickedBoxIds pickedUpCount];
        split; (done || lia).
    - unfold placeBoxResumed. cbn [scene isPlacing].
      destruct lk; cbn [scene pickedBoxIds pickedUpCount]; split; (done || lia).
    - destruct (placedBoxesData st !! i); cbn [onScene scene]; [|split; (done || lia)].
      unfold handleGrabPlacedBox. destruct (heldBox st); [split; (done || lia)|].
      destruct (List.find _ inv); cbn [pickedBoxIds pickedUpCount];
        split; (done || lia).
    - unfold clickModeButton. cbn [pickedBoxIds pickedUpCount]. split; (done || lia).
    - done.
    - by specialize (Hload saved).
    - unfold initData_inventory. destruct data; cbn [scene]; split; (done || lia). }
  split; [apply Hmono|]. split; [|done].
  intros ev Hreset.
  assert (Hcases : (exists saved, ev = SavedArrived saved) \/
                   (forall saved, ev <> SavedArrived saved)).
  { destruct ev; try (by right); left; eauto. }
  destruct Hcases as [[saved ->]|Hother].
  - generalize (sessionRun sid inventory evs). intros [st lk inv].
    cbn [sessionStep onScene scene isPlacing]. unfold initData_placedBoxes.
    destruct sid; [|done]. destruct saved as [|entry saved]; [done|].
    cbn [pickedBoxIds pickedUpCount]. split; intros _.
    + rewrite fmap_cons, list_to_set_cons. intros Hnone.
      apply (not_elem_of_empty (C := gset string) (saved_boxId (snd entry))).
      rewrite <- Hnone. apply elem_of_union_l. by apply elem_of_singleton.
    + cbn [length]. lia.
  - destruct (Hmono (sessionRun sid inventory evs) ev Hreset Hother) as [Hsub Hle].
    split; [|lia]. intros Hsome Hnone. apply Hsome.
    apply leibniz_equiv, elem_of_equiv_empty. intros x Hx.
    apply Hsub in Hx. rewrite Hnone in Hx. by apply not_elem_of_empty in Hx.
Qed.

(** In [restored] the saved placement arrives first, on an empty hand. *)
Lemma restored_arrivals :
  arrivalsFindHandEmpty (Some "s1") Scenario.stock Demo.restored.
Proof.
  intros before saved after Heq. unfold Demo.restored in Heq.
  destruct before as [|e0 before]; [reflexivity|].
  exfalso. simpl in Heq. injection Heq as _ Heq.
  do 6 (destruct before as [|? before]; simpl in Heq;
        [discriminate | injection Heq as _ Heq]).
  destruct before; discriminate.
Qed.

(** Witness of C8: a saved placement arrives, a carton is grabbed and
    dropped, the walk button is pressed while the save is under way and the
    save returns; two overrides are then drawn against a counter of two. *)
Lemma session_counts_bounded_and_monotone_witness :
  heldOrPlaced (scene (sessionRun (Some "s1") Scenario.stock Demo.restored))
  <= pickedUpCount (scene (sessionRun (Some "s1") Scenario.stock Demo.restored)).
Proof.
  destruct (session_counts_bounded_and_monotone (Some "s1") Scenario.stock Demo.restored)
    as (_ & Hcount & _).
  destruct (Hcount restored_arrivals) as [_ Hheld].
  apply Hheld. vm_compute. reflexivity.
Defined.

(** * Further properties *)

(** ** Arithmetic and list helpers *)

Lemma elem_of_filter_list {A} (P : A -> bool) (l : list A) x :
  x ∈ List.filter P l -> x ∈ l.
Proof. intros H. apply list_elem_of_In, filter_In in H as [H _]. by apply list_elem_of_In. Qed.

Lemma NoDup_fmap_filter {A B} (f : A -> B) (P : A -> bool) (l : list A) :
  NoDup (f <$> l) -> NoDup (f <$> List.filter P l).
Proof.
  induction l as [|a l IH]; [done|]. cbn [List.filter fmap list_fmap].
  intros Hnd. apply NoDup_cons in Hnd as [Hnin Hnd].
  destruct (P a); [|by apply IH]. cbn [fmap list_fmap]. apply NoDup_cons. split; [|by apply IH].
  intros Hin. apply Hnin. apply list_elem_of_fmap in Hin as (b & -> & Hb).
  apply list_elem_of_fmap. exists b. split; [done|]. by eapply elem_of_filter_list.
Qed.

Lemma Qltb_true (a b : Q) : Qltb a b = true <-> (a < b)%Q.
Proof. unfold Qltb. destruct (Qlt_le_dec a b); split; (done || lra). Qed.

Lemma Qltb_false_iff (a b : Q) : Qltb a b = false <-> (b <= a)%Q.
Proof. unfold Qltb. destruct (Qlt_le_dec a b); split; (done || lra). Qed.

Lemma Qle_bool_false (a b : Q) : Qle_bool a b = false <-> (b < a)%Q.
Proof.
  destruct (Qle_bool a b) eqn:H.
  - apply Qle_bool_iff in H. split; [done | lra].
  - split; [|done]. intros _. apply Qnot_le_lt. intros Hle.
    apply Qle_bool_iff in Hle. congruence.
Qed.

Lemma Qmax_spec (a b : Q) :
  ((a < b)%Q /\ (Qmax a b == b)%Q) \/ ((b <= a)%Q /\ (Qmax a b == a)%Q).
Proof. apply Q.max_spec. Qed.

Lemma Qmin_spec (a b : Q) :
  ((a < b)%Q /\ (Qmin a b == a)%Q) \/ ((b <= a)%Q /\ (Qmin a b == b)%Q).
Proof. apply Q.min_spec. Qed.

Lemma half_half (d : Q) : (d / 2 + d / 2 == d)%Q.
Proof. field. Qed.

Lemma double_half (d : Q) : ((d + d) / 2 == d)%Q.
Proof. field. Qed.

Lemma Qltb_abs_false (a b t : Q) :
  (t <= a - b)%Q \/ (t <= b - a)%Q -> Qltb (Qabs (a - b)) t = false.
Proof.
  intros H. apply Qltb_false.
  pose proof (Qle_Qabs (a - b)) as H1.
  pose proof (Qle_Qabs (- (a - b))) as H2. rewrite Qabs_opp in H2.
  destruct H; lra.
Qed.

(** ** Packing: the shape of the result *)

Lemma hasSlot_pushBox result u l b result' :
  pushBox result u l b = Some result' ->
  forall u' l', hasSlot result' u' l' <-> hasSlot result u' l'.
Proof.
  unfold pushBox, hasSlot. intros Hpush u' l'.
  destruct (result !! u) as [levels|] eqn:Hu; [|done].
  destruct (levels !! l) as [boxes|] eqn:Hl; [|done].
  injection Hpush as <-.
  destruct (decide (u' = u)) as [->|Hne].
  - rewrite lookup_insert_eq, Hu. simpl.
    destruct (decide (l' = l)) as [->|Hnl].
    + rewrite lookup_insert_eq, Hl. split; eauto.
    + by rewrite lookup_insert_ne.
  - by rewrite lookup_insert_ne.
Qed.

Lemma pushBox_of_hasSlot result u l b :
  hasSlot result u l -> is_Some (pushBox result u l b).
Proof.
  unfold hasSlot, pushBox. destruct (result !! u) as [levels|]; simpl; [|by intros [? ?]].
  destruct (levels !! l); [eauto | by intros [? ?]].
Qed.

Lemma boxesAt_no_slot result u l : ~ hasSlot result u l -> boxesAt result u l = [].
Proof.
  unfold hasSlot, boxesAt. destruct (result !! u ≫= (.!! l)); [|done].
  intros H. exfalso. apply H. eauto.
Qed.

Lemma hasSlot_initResult numUnits nShelves u l :
  hasSlot (initResult numUnits nShelves) u l <->
  0 <= u < numUnits /\ 1 <= l <= nShelves.
Proof.
  unfold hasSlot, initResult. rewrite foldl_insert_lookup, lookup_empty.
  destruct (decide (u ∈ seqZ 0 numUnits)) as [Hin|Hnin]; simpl.
  - apply elem_of_seqZ in Hin. rewrite perLevel_lookup.
    destruct (decide (1 <= l <= nShelves)); split.
    + intros _. lia.
    + eauto.
    + by intros [? ?].
    + lia.
  - rewrite elem_of_seqZ in Hnin. split; [by intros [? ?] | lia].
Qed.

Lemma placeBox_hasSlot aisle numUnits prod invItem cnt l w h d c r :
  match placeBox aisle numUnits prod invItem cnt l w h d (c, r) with
  | Continue (_, r') | Break (_, r') => forall u' l', hasSlot r' u' l' <-> hasSlot r u' l'
  | Raise _ => True
  end.
Proof.
  unfold placeBox. destruct (advanceUnit _ _ _) as [c1 stop].
  destruct stop; [done|].
  destruct (pushBox _ _ _ _) eqn:Hp; [|done].
  by apply (hasSlot_pushBox _ _ _ _ _ Hp).
Qed.

Lemma packProduct_hasSlot aisle inventoryMap numUnits st prod st' :
  packProduct aisle inventoryMap numUnits st prod = Ok st' ->
  forall u l, hasSlot st'.2 u l <-> hasSlot st.2 u l.
Proof.
  destruct st as [sc r]. unfold packProduct.
  destruct (inventoryMap !! ap_productId prod) as [invItem|]; [|by intros [= <-]].
  destruct (resolveDims invItem) as [[w h] d].
  destruct (forLoop _ _ _) as [[c' r']|e] eqn:Hloop; [|done].
  intros [= <-]. simpl.
  refine (forLoop_inv (fun s : Cursor * gmap Z (gmap Z (list BoxData)) =>
           forall u l, hasSlot s.2 u l <-> hasSlot r u l) _ _ _ _ (c', r') _ Hloop);
    [|done].
  intros [c0 r0] HP.
  pose proof (placeBox_hasSlot aisle numUnits prod invItem
                (orZ (quantityBoxes prod) 0) (orZ (ap_shelfLevel prod) 1) w h d c0 r0) as Hstep.
  destruct (placeBox _ _ _ _ _ _ _ _ _ _) as [[c1 r1]|[c1 r1]|e]; [| |done];
    simpl in *; intros u l; by rewrite Hstep.
Qed.

Lemma packProducts_hasSlot aisle inventoryMap numUnits ps : forall st st',
  packProducts aisle inventoryMap numUnits st ps = Ok st' ->
  forall u l, hasSlot st'.2 u l <-> hasSlot st.2 u l.
Proof.
  induction ps as [|p ps IH]; intros st st'; simpl.
  - by intros [= <-].
  - destruct (packProduct _ _ _ _ _) as [st1|e] eqn:Hp; [|done].
    intros Hrun u l. rewrite (IH _ _ Hrun). by apply (packProduct_hasSlot _ _ _ _ _ _ Hp).
Qed.

Lemma boxesByUnitAndLevel_hasSlot aisle inventoryMap result :
  boxesByUnitAndLevel aisle inventoryMap = Ok result ->
  forall u l, hasSlot result u l <->
              0 <= u < numUnitsOf aisle /\ 1 <= l <= shelves aisle.
Proof.
  unfold boxesByUnitAndLevel.
  destruct (packProducts _ _ _ _ _) as [[sc r]|e] eqn:Hrun; [|done].
  intros [= <-] u l. rewrite (packProducts_hasSlot _ _ _ _ _ _ Hrun u l). simpl.
  apply hasSlot_initResult.
Qed.

Lemma box_tags aisle inventoryMap result u l b :
  boxesByUnitAndLevel aisle inventoryMap = Ok result ->
  b ∈ boxesAt result u l ->
  unitIndex b = u /\ box_shelfLevel b = l.
Proof.
  intros Hpack Hin. apply list_elem_of_lookup in Hin as [i Hi].
  destruct (boxesByUnitAndLevel_inv aisle inventoryMap (idsInv (aisle_id aisle)))
    with (result := result) (l := l) as [c (_ & _ & _ & Hids)]; try done.
  - apply idsInv_ext.
  - intros prod invItem c f _ _. destruct (resolveDims invItem) as [[w h] d].
    apply idsInv_move.
  - intros prod invItem c f _ _. destruct (resolveDims invItem) as [[w h] d].
    cbv zeta. intros HJ. apply idsInv_place. by apply idsInv_move.
  - destruct (Hids u i b Hi) as (? & ? & _). done.
Qed.

(** X1.  The structure the packing returns has a list for exactly the units
    0 .. numUnits - 1 and the levels 1 .. shelves, and a box filed under unit
    [u] and level [l] carries that unit index and that shelf level: packing
    puts nothing outside the rack grid. *)
Theorem packing_fills_only_the_rack_grid aisle inventoryMap result :
  boxesByUnitAndLevel aisle inventoryMap = Ok result ->
  (forall u l, hasSlot result u l <->
               0 <= u < numUnitsOf aisle /\ 1 <= l <= shelves aisle) /\
  forall u l b, b ∈ boxesAt result u l ->
    unitIndex b = u /\ box_shelfLevel b = l /\
    0 <= unitIndex b < numUnitsOf aisle /\ 1 <= box_shelfLevel b <= shelves aisle.
Proof.
  intros Hpack. split; [exact (boxesByUnitAndLevel_hasSlot _ _ _ Hpack)|].
  intros u l b Hin. destruct (box_tags _ _ _ _ _ _ Hpack Hin) as [-> ->].
  split; [done|]. split; [done|].
  apply (boxesByUnitAndLevel_hasSlot _ _ _ Hpack).
  destruct (decide (hasSlot result u l)) as [Hyes|Hno].
  - exact Hyes.
  - rewrite (boxesAt_no_slot _ _ _ Hno) in Hin. by apply elem_of_nil in Hin.
Qed.

(** The packing of [twoCartons] and its two boxes. *)
Lemma twoCartons_packed :
  exists result b0 b1,
    Scenario.pack Scenario.twoCartons = Ok result /\
    boxesAt result 0 1 !! 0%nat = Some b0 /\
    boxesAt result 0 1 !! 1%nat = Some b1.
Proof. do 3 eexists. split; [|split]; vm_compute; reflexivity. Qed.

(** Level 1 of [twoCartons] holds cartons only. *)
Lemma twoCartons_uniform :
  uniformLevel Scenario.twoCartons (inventoryMapOf Scenario.stock) 1 (25 # 100) (2 # 10).
Proof.
  intros prod invItem Hin Hlk _. apply list_elem_of_singleton in Hin as ->.
  vm_compute in Hlk. injection Hlk as <-. split; reflexivity.
Qed.

(** Witness of X1. *)
Lemma packing_fills_only_the_rack_grid_witness :
  exists result,
    Scenario.pack Scenario.twoCartons = Ok result /\
    (forall u l, hasSlot result u l <->
       0 <= u < numUnitsOf Scenario.twoCartons /\ 1 <= l <= shelves Scenario.twoCartons).
Proof.
  destruct twoCartons_packed as (result & _ & _ & Hpack & _).
  exists result. split; [exact Hpack|].
  exact (proj1 (packing_fills_only_the_rack_grid _ _ result Hpack)).
Defined.


(** ** Packing: what is packed *)

Lemma packProducts_skips_unstocked aisle inventoryMap numUnits ps : forall st,
  packProducts aisle inventoryMap numUnits st (List.filter (stocked inventoryMap) ps) =
  packProducts aisle inventoryMap numUnits st ps.
Proof.
  induction ps as [|p ps IH]; intros st; [done|]. cbn [List.filter].
  unfold stocked at 1. destruct (inventoryMap !! ap_productId p) as [item|] eqn:Hlk.
  - rewrite bool_decide_eq_true_2 by eauto. cbn [packProducts].
    destruct (packProduct _ _ _ _ _); [apply IH | done].
  - rewrite bool_decide_eq_false_2 by (by intros [? ?]).
    cbn [packProducts]. unfold packProduct. destruct st as [sc r]. rewrite Hlk. apply IH.
Qed.

(** X2.  Allocations whose product is not in the inventory map are skipped:
    packing an aisle gives what packing it without them gives, exception
    included. *)
Theorem dangling_allocations_are_skipped aisle inventoryMap :
  boxesByUnitAndLevel aisle inventoryMap =
  boxesByUnitAndLevel
    (withProducts aisle (List.filter (stocked inventoryMap) (products aisle)))
    inventoryMap.
Proof.
  unfold boxesByUnitAndLevel, withProducts, numUnitsOf. cbn [products shelves aisle_length].
  rewrite packProducts_skips_unstocked.
  by rewrite (packProducts_aisle_id aisle
               (mkAisle (aisle_id aisle) (aisle_storeId aisle) (aisle_name aisle)
                  (aisle_x aisle) (aisle_z aisle) (aisle_width aisle) (aisle_length aisle)
                  (aisle_height aisle) (shelves aisle)
                  (List.filter (stocked inventoryMap) (products aisle)))).
Qed.

Lemma orQ_nonzero v d : ~ (d == 0)%Q -> ~ (orQ v d == 0)%Q.
Proof.
  intros Hd. unfold orQ. destruct (Qeq_bool v 0) eqn:Hv; [done|].
  by apply Qeq_bool_neq.
Qed.

(** X3.  Every packed box stems from an allocation of the aisle on the box's
    level whose product is in the inventory: it carries that product's id and
    inventory record, the resolved dimensions, the allocation's quantity and
    the label colour (blue when none is stored); and none of its three
    dimensions is zero. *)
Theorem box_carries_its_allocation aisle inventoryMap result u l b :
  boxesByUnitAndLevel aisle inventoryMap = Ok result ->
  b ∈ boxesAt result u l ->
  (exists prod invItem,
     prod ∈ products aisle /\
     inventoryMap !! ap_productId prod = Some invItem /\
     targetOf prod = l /\
     box_productId b = ap_productId prod /\
     box_product b = invItem /\
     (box_width b, box_height b, box_depth b) = resolveDims invItem /\
     quantity b = orZ (quantityBoxes prod) 0 /\
     box_labelColor b = orS (inv_labelColor invItem) "#3B82F6") /\
  ~ (box_width b == 0)%Q /\ ~ (box_height b == 0)%Q /\ ~ (box_depth b == 0)%Q.
Proof.
  intros Hpack Hin.
  assert (Hc : exists c, carriesInv aisle inventoryMap l c (fun u => boxesAt result u l)).
  { apply (boxesByUnitAndLevel_inv aisle inventoryMap (carriesInv aisle inventoryMap));
      try done.
    - intros l0 c f g Hfg HJ u0 b0 Hb0. rewrite <- Hfg in Hb0. exact (HJ u0 b0 Hb0).
    - intros prod invItem c f _ _. by destruct (resolveDims invItem) as [[w h] d].
    - intros prod invItem c f Hp Hlk. destruct (resolveDims invItem) as [[w h] d] eqn:Hdims.
      cbv zeta. intros HJ u0 b0. split_decide; [|exact (HJ u0 b0)].
      intros Hb0. apply elem_of_app in Hb0 as [Hb0|Hb0]; [exact (HJ u0 b0 Hb0)|].
      apply list_elem_of_singleton in Hb0 as ->.
      exists prod, invItem. rewrite Hdims. by repeat split.
    - intros l0 u0 b0 Hb0. by apply elem_of_nil in Hb0. }
  destruct Hc as [c Hc]. destruct (Hc u b Hin) as (prod & invItem & H).
  split; [by exists prod, invItem|].
  destruct H as (_ & _ & _ & _ & _ & Hdims & _).
  unfold resolveDims in Hdims. injection Hdims as -> -> ->.
  repeat split; by apply orQ_nonzero.
Qed.

(** Witness of X3. *)
Lemma box_carries_its_allocation_witness :
  exists result b,
    Scenario.pack Scenario.twoCartons = Ok result /\
    b ∈ boxesAt result 0 1 /\
    ~ (box_width b == 0)%Q /\ ~ (box_height b == 0)%Q /\ ~ (box_depth b == 0)%Q.
Proof.
  destruct twoCartons_packed as (result & b0 & _ & Hpack & Hb0 & _).
  assert (Hin : b0 ∈ boxesAt result 0 1) by (apply list_elem_of_lookup; eauto).
  exists result, b0. split; [exact Hpack|]. split; [exact Hin|].
  exact (proj2 (box_carries_its_allocation _ _ result 0 1 b0 Hpack Hin)).
Defined.


(** ** Packing: how much is packed, and when nothing is raised *)

Lemma forLoop_count {A : Type} (m : A -> Z) (body : A -> turn A) :
  (forall st,
     match body st with
     | Continue st' => m st' <= m st + 1
     | Break st' => m st' <= m st
     | Raise _ => True
     end) ->
  forall n st st', forLoop n body st = Ok st' -> m st' <= m st + Z.of_nat n.
Proof.
  intros Hbody n. induction n as [|n IH]; intros st st' Hrun; cbn [forLoop] in Hrun.
  - injection Hrun as <-. lia.
  - specialize (Hbody st). destruct (body st) as [s|s|e]; [| |done].
    + specialize (IH _ _ Hrun). lia.
    + injection Hrun as <-. lia.
Qed.

Lemma countBefore_nonneg f u : 0 <= countBefore f u.
Proof.
  unfold countBefore. generalize (seqZ 0 u). intros ls.
  induction ls as [|x ls IH]; simpl; lia.
Qed.

Lemma countBefore_le f (k : nat) u :
  0 <= u -> countBefore f u <= countBefore f (u + Z.of_nat k).
Proof.
  intros Hu. induction k as [|k IH]; [by rewrite Z.add_0_r|].
  replace (u + Z.of_nat (S k)) with (u + Z.of_nat k + 1) by lia.
  rewrite countBefore_succ by lia. lia.
Qed.

Lemma countBefore_beyond f U (k : nat) :
  0 <= U + 1 -> (forall u, U < u -> f u = []) ->
  countBefore f (U + 1 + Z.of_nat k) = countBefore f (U + 1).
Proof.
  intros HU Hemp. induction k as [|k IH]; [by rewrite Z.add_0_r|].
  replace (U + 1 + Z.of_nat (S k)) with (U + 1 + Z.of_nat k + 1) by lia.
  rewrite countBefore_succ by lia. rewrite Hemp by lia. simpl. lia.
Qed.

Lemma countBefore_nonpos f u : u <= 0 -> countBefore f u = 0.
Proof.
  intros Hu. unfold countBefore, seqZ. by replace (Z.to_nat u) with 0%nat by lia.
Qed.

(** Under [idsInv] the level's counter bounds the boxes of any leading units. *)
Lemma idsInv_total aid l c f N :
  idsInv aid l c f -> countBefore f N <= boxIdx c.
Proof.
  intros (Hu & Hemp & Hidx & _). rewrite Hidx.
  destruct (decide (N <= 0)) as [Hn|Hn]; [rewrite countBefore_nonpos by done; apply countBefore_nonneg|].
  destruct (decide (N <= cur_unit c + 1)) as [Hle|Hgt].
  - replace (cur_unit c + 1) with (N + Z.of_nat (Z.to_nat (cur_unit c + 1 - N))) by lia.
    apply countBefore_le. lia.
  - replace N with (cur_unit c + 1 + Z.of_nat (Z.to_nat (N - (cur_unit c + 1)))) by lia.
    rewrite countBefore_beyond; [lia | lia |]. intros u Hlt. apply Hemp. lia.
Qed.

Lemma boxesByUnitAndLevel_run aisle inventoryMap result :
  boxesByUnitAndLevel aisle inventoryMap = Ok result ->
  exists sc,
    packProducts aisle inventoryMap (numUnitsOf aisle)
      (perLevel (shelves aisle) freshCursor,
       initResult (numUnitsOf aisle) (shelves aisle)) (products aisle) = Ok (sc, result).
Proof.
  unfold boxesByUnitAndLevel. destruct (packProducts _ _ _ _ _) as [[sc r]|e]; [|done].
  intros [= <-]. by exists sc.
Qed.

Lemma run_idsInv aisle inventoryMap sc result :
  packProducts aisle inventoryMap (numUnitsOf aisle)
    (perLevel (shelves aisle) freshCursor,
     initResult (numUnitsOf aisle) (shelves aisle)) (products aisle) = Ok (sc, result) ->
  forall l, idsInv (aisle_id aisle) l (cursorOf sc l) (fun u => boxesAt result u l).
Proof.
  intros Hrun.
  apply (packProducts_inv aisle inventoryMap (numUnitsOf aisle) (idsInv (aisle_id aisle)))
    in Hrun; [exact Hrun | | | | |].
  - apply idsInv_ext.
  - intros prod invItem c f _ _. destruct (resolveDims invItem) as [[w h] d].
    apply idsInv_move.
  - intros prod invItem c f _ _. destruct (resolveDims invItem) as [[w h] d].
    cbv zeta. intros HJ. apply idsInv_place. by apply idsInv_move.
  - done.
  - intros l. cbn [fst snd]. rewrite cursorOf_perLevel.
    apply (idsInv_ext _ _ _ (fun _ => [])); [by intros; rewrite boxesAt_initResult|].
    unfold idsInv. cbn [cur_unit boxIdx freshCursor]. split; [lia|]. split; [done|].
    split; [|by intros u i b Hlk; rewrite lookup_nil in Hlk].
    rewrite countBefore_succ by lia. simpl. by rewrite countBefore_nonpos.
Qed.

Lemma placeBox_boxIdx aisle numUnits prod invItem cnt l w h d c r :
  match placeBox aisle numUnits prod invItem cnt l w h d (c, r) with
  | Continue (c', _) => boxIdx c' <= boxIdx c + 1
  | Break (c', _) => boxIdx c' <= boxIdx c
  | Raise _ => True
  end.
Proof.
  unfold placeBox. pose proof (move_cursor numUnits w d c) as [Hi _].
  destruct (advanceUnit _ _ _) as [c1 stop]. cbn [fst] in Hi.
  destruct stop; [lia|]. destruct (pushBox _ _ _ _); [|done].
  cbn [afterBox boxIdx]. lia.
Qed.

Lemma packProduct_boxIdx aisle inventoryMap numUnits st prod st' l :
  packProduct aisle inventoryMap numUnits st prod = Ok st' ->
  boxIdx (cursorOf st'.1 l) <=
  boxIdx (cursorOf st.1 l) + requested inventoryMap l [prod].
Proof.
  destruct st as [sc r]. unfold packProduct, requested, stocked, targetOf.
  destruct (inventoryMap !! ap_productId prod) as [invItem|] eqn:Hlk.
  - rewrite bool_decide_eq_true_2 by eauto.
    destruct (resolveDims invItem) as [[w h] d].
    destruct (forLoop _ _ _) as [[c' r']|e] eqn:Hloop; [|done].
    intros [= <-]. cbn [fst]. rewrite cursorOf_insert.
    destruct (decide (l = orZ (ap_shelfLevel prod) 1)) as [->|Hne].
    + rewrite Z.eqb_refl. cbn [andb].
      apply (forLoop_count (fun s : Cursor * gmap Z (gmap Z (list BoxData)) => boxIdx s.1))
        in Hloop; [cbn [fst] in Hloop; unfold cursorOf; lia|].
      intros [c0 r0].
      pose proof (placeBox_boxIdx aisle numUnits prod invItem (orZ (quantityBoxes prod) 0)
                    (orZ (ap_shelfLevel prod) 1) w h d c0 r0) as Hstep.
      by destruct (placeBox _ _ _ _ _ _ _ _ _ _) as [[c1 r1]|[c1 r1]|e0].
    + destruct (_ && _); lia.
  - intros [= <-]. cbn [fst].
    rewrite bool_decide_eq_false_2 by (by intros [? ?]). cbn [andb]. lia.
Qed.

Lemma requested_nonneg inventoryMap l ps : 0 <= requested inventoryMap l ps.
Proof. induction ps as [|p ps IH]; simpl; [done|]. destruct (_ && _); lia. Qed.

Lemma packProducts_boxIdx aisle inventoryMap numUnits l ps : forall st st',
  packProducts aisle inventoryMap numUnits st ps = Ok st' ->
  boxIdx (cursorOf st'.1 l) <= boxIdx (cursorOf st.1 l) + requested inventoryMap l ps.
Proof.
  induction ps as [|p ps IH]; intros st st'; cbn [packProducts].
  - intros [= <-]. simpl. lia.
  - destruct (packProduct _ _ _ _ _) as [st1|e] eqn:Hp; [|done].
    intros Hrun. specialize (IH _ _ Hrun).
    pose proof (packProduct_boxIdx _ _ _ _ _ _ l Hp) as H1.
    cbn [requested] in *. lia.
Qed.

(** X4.  On every level the boxes placed, counted over any number of
    units, are at most as many as the stocked allocations of that level ask
    for. *)
Theorem placed_boxes_bounded_by_requested aisle inventoryMap result l N :
  boxesByUnitAndLevel aisle inventoryMap = Ok result ->
  countBefore (fun u => boxesAt result u l) N <= requested inventoryMap l (products aisle).
Proof.
  intros Hpack. destruct (boxesByUnitAndLevel_run _ _ _ Hpack) as [sc Hrun].
  pose proof (idsInv_total _ _ _ _ N (run_idsInv _ _ _ _ Hrun l)) as Htotal.
  pose proof (packProducts_boxIdx _ _ _ l _ _ _ Hrun) as Hidx.
  cbn [fst] in Hidx. rewrite cursorOf_perLevel in Hidx. cbn [boxIdx freshCursor] in Hidx.
  lia.
Qed.

(** Witness of X4. *)
Lemma placed_boxes_bounded_by_requested_witness :
  exists result,
    Scenario.pack Scenario.sixMetres = Ok result /\
    countBefore (fun u => boxesAt result u 1) 2
      <= requested (inventoryMapOf Scenario.stock) 1 (products Scenario.sixMetres).
Proof.
  assert (H : exists result, Scenario.pack Scenario.sixMetres = Ok result)
    by (eexists; vm_compute; reflexivity).
  destruct H as [result Hpack]. exists result. split; [exact Hpack|].
  exact (placed_boxes_bounded_by_requested _ _ result 1 2 Hpack).
Defined.


Lemma forLoop_ok {A : Type} (P : A -> Prop) (body : A -> turn A) :
  (forall st, P st ->
     match body st with
     | Continue st' => P st'
     | Break _ => True
     | Raise _ => False
     end) ->
  forall n st, P st -> exists st', forLoop n body st = Ok st'.
Proof.
  intros Hbody n. induction n as [|n IH]; intros st HP; cbn [forLoop]; [eauto|].
  specialize (Hbody st HP). destruct (body st) as [s|s|e]; [by apply IH | eauto | done].
Qed.

Lemma packProduct_ok aisle inventoryMap numUnits sc r prod :
  (forall u, 0 <= u < numUnits -> hasSlot r u (targetOf prod)) ->
  0 <= cur_unit (cursorOf sc (targetOf prod)) < numUnits ->
  exists st', packProduct aisle inventoryMap numUnits (sc, r) prod = Ok st'.
Proof.
  intros Hslots Hcur. unfold packProduct.
  destruct (inventoryMap !! ap_productId prod) as [invItem|]; [|eauto].
  destruct (resolveDims invItem) as [[w h] d]. fold (targetOf prod).
  destruct (forLoop_ok
              (fun s : Cursor * gmap Z (gmap Z (list BoxData)) =>
                 0 <= cur_unit s.1 < numUnits /\
                 forall u, 0 <= u < numUnits -> hasSlot s.2 u (targetOf prod))
              (placeBox aisle numUnits prod invItem (orZ (quantityBoxes prod) 0)
                        (targetOf prod) w h d))
    with (n := Z.to_nat (orZ (quantityBoxes prod) 0))
         (st := (default freshCursor (sc !! targetOf prod), r)) as [[c' r'] ->];
    [| |eauto].
  - intros [c0 r0] [Hc0 Hs0]. cbn [fst snd] in *. unfold placeBox.
    destruct (advanceUnit numUnits d (wrapRow w d c0)) as [c1 stop] eqn:Hadv.
    destruct stop; [done|].
    assert (Hc1 : 0 <= cur_unit c1 < numUnits).
    { revert Hadv. unfold advanceUnit.
      assert (Hw : cur_unit (wrapRow w d c0) = cur_unit c0).
      { unfold wrapRow. by destruct (Qlt_le_dec endX _). }
      destruct (Qlt_le_dec endZ _); intros Heq.
      - injection Heq as <- Hstop. apply Z.leb_gt in Hstop. cbn [cur_unit]. lia.
      - injection Heq as <-. lia. }
    destruct (pushBox_of_hasSlot r0 (cur_unit c1) (targetOf prod)
                (boxAt aisle prod invItem (orZ (quantityBoxes prod) 0) (targetOf prod) w h d c1)
                (Hs0 _ Hc1)) as [r1 Hpush].
    rewrite Hpush. cbn [fst snd afterBox cur_unit]. split; [done|].
    intros u Hu. apply (hasSlot_pushBox _ _ _ _ _ Hpush). by apply Hs0.
  - cbn [fst snd]. split; [exact Hcur | exact Hslots].
Qed.

Lemma packProducts_ok aisle inventoryMap numUnits nShelves ps : forall sc r,
  1 <= numUnits ->
  (forall u l, 0 <= u < numUnits -> 1 <= l <= nShelves -> hasSlot r u l) ->
  (forall p, p ∈ ps -> stocked inventoryMap p = true -> 1 <= targetOf p <= nShelves) ->
  NoDup (targetOf <$> List.filter (stocked inventoryMap) ps) ->
  (forall p, p ∈ ps -> stocked inventoryMap p = true ->
             cursorOf sc (targetOf p) = freshCursor) ->
  exists st', packProducts aisle inventoryMap numUnits (sc, r) ps = Ok st'.
Proof.
  induction ps as [|p ps IH]; intros sc r Hn Hslots Hvalid Hnd Hfresh; cbn [packProducts];
    [eauto|].
  destruct (stocked inventoryMap p) eqn:Hst.
  - cbn [List.filter] in Hnd. rewrite Hst in Hnd. cbn [fmap list_fmap] in Hnd.
    apply NoDup_cons in Hnd as [Hnotin Hnd].
    assert (Hp : p ∈ p :: ps) by (by apply elem_of_cons; left).
    destruct (packProduct_ok aisle inventoryMap numUnits sc r p) as [[sc1 r1] Hp1].
    + intros u Hu. apply Hslots; [done | by apply Hvalid].
    + rewrite (Hfresh p Hp Hst). cbn [cur_unit freshCursor]. lia.
    + rewrite Hp1. apply IH; try done.
      * intros u l Hu Hl. apply (packProduct_hasSlot _ _ _ _ _ _ Hp1). by apply Hslots.
      * intros q Hq. apply Hvalid. by apply elem_of_cons; right.
      * intros q Hq Hqs.
        assert (Hne : targetOf q <> targetOf p).
        { intros Heq. apply Hnotin. rewrite <- Heq.
          apply list_elem_of_fmap. exists q. split; [done|].
          apply list_elem_of_In, filter_In. split; [by apply list_elem_of_In | done]. }
        revert Hp1. unfold packProduct.
        destruct (inventoryMap !! ap_productId p) as [invItem|].
        -- destruct (resolveDims invItem) as [[w h] d].
           destruct (forLoop _ _ _) as [[c' r']|e]; [|done].
           intros [= <- <-]. rewrite cursorOf_insert.
           rewrite decide_False by done. apply Hfresh; [by apply elem_of_cons; right | done].
        -- intros [= <- <-]. apply Hfresh; [by apply elem_of_cons; right | done].
  - cbn [List.filter] in Hnd. rewrite Hst in Hnd.
    assert (Hskip : packProduct aisle inventoryMap numUnits (sc, r) p = Ok (sc, r)).
    { unfold packProduct. unfold stocked in Hst.
      destruct (inventoryMap !! ap_productId p); [|done].
      by rewrite bool_decide_eq_true_2 in Hst by eauto. }
    rewrite Hskip. apply IH; try done.
    + intros q Hq. apply Hvalid. by apply elem_of_cons; right.
    + intros q Hq. apply Hfresh. by apply elem_of_cons; right.
Qed.

Lemma packProductsJs_number aisle inventoryMap n ps : forall st,
  packProductsJs aisle inventoryMap (Some n) st ps
  = packProducts aisle inventoryMap n st ps.
Proof.
  induction ps as [|p ps IH]; intros st; cbn [packProductsJs packProducts]; [done|].
  change (packProductJs aisle inventoryMap (Some n) st p)
    with (packProduct aisle inventoryMap n st p).
  destruct (packProduct aisle inventoryMap n st p); [apply IH | done].
Qed.

(** For sizes that are numbers the packing is [boxesByUnitAndLevel]. *)
Lemma boxesByUnitAndLevelJs_number aisle inventoryMap :
  boxesByUnitAndLevelJs (Number (aisle_length aisle)) (Some (shelves aisle)) aisle
                        inventoryMap
  = boxesByUnitAndLevel aisle inventoryMap.
Proof.
  unfold boxesByUnitAndLevelJs, boxesByUnitAndLevel.
  cbn [numUnitsJs initResultJs perLevelJs]. by rewrite packProductsJs_number.
Qed.

(** With a NaN length the structure has no unit, so the first box to be
    pushed raises. *)
Lemma packProductsJs_nan aisle inventoryMap ps : forall sc,
  (exists p, p ∈ ps /\ stocked inventoryMap p = true /\ 1 <= orZ (quantityBoxes p) 0) ->
  packProductsJs aisle inventoryMap None (sc, ∅) ps = Throw TypeError.
Proof.
  induction ps as [|p ps IH]; intros sc (q & Hq & Hst & Hcount).
  { by apply elem_of_nil in Hq. }
  cbn [packProductsJs]. unfold packProductJs.
  destruct (inventoryMap !! ap_productId p) as [invItem|] eqn:Hlk.
  - destruct (resolveDims invItem) as [[w h] d].
    destruct (Z.to_nat (orZ (quantityBoxes p) 0)) as [|n] eqn:Hn.
    + cbn [forLoop]. apply IH. exists q. split; [|done].
      apply elem_of_cons in Hq as [->|Hq]; [lia | done].
    + cbn [forLoop]. unfold placeBoxJs at 1.
      destruct (advanceUnitJs None d _) as [c stop] eqn:Hadv.
      assert (stop = false) as ->.
      { revert Hadv. unfold advanceUnitJs, unitsUsedUp.
        destruct (Qlt_le_dec endZ _); congruence. }
      unfold pushBox. by rewrite lookup_empty.
  - apply IH. exists q. split; [|done].
    apply elem_of_cons in Hq as [->|Hq]; [|done].
    unfold stocked in Hst. rewrite Hlk in Hst. done.
Qed.

(** A stored NaN length makes the packing raise as soon as a stocked
    allocation asks for a box. *)
Lemma nan_length_makes_packing_throw nShelves aisle inventoryMap :
  (exists p, p ∈ products aisle /\ stocked inventoryMap p = true /\
             1 <= orZ (quantityBoxes p) 0) ->
  boxesByUnitAndLevelJs NaN nShelves aisle inventoryMap = Throw TypeError.
Proof.
  intros Hex. unfold boxesByUnitAndLevelJs. cbn [numUnitsJs initResultJs].
  by rewrite packProductsJs_nan.
Qed.

(** The one-unit aisle with two cartons, its Depth field emptied, and the
    same with its Shelves field emptied. *)
Lemma emptied_field_makes_packing_throw :
  boxesByUnitAndLevelJs NaN (Some 1) Scenario.twoCartons (inventoryMapOf Scenario.stock)
  = Throw TypeError /\
  boxesByUnitAndLevelJs (Number 3) None Scenario.twoCartons (inventoryMapOf Scenario.stock)
  = Throw TypeError.
Proof. split; vm_compute; reflexivity. Qed.

(** Stocked allocations on pairwise distinct levels of the rack pack without
    an exception when length and shelf count are numbers. *)
Lemma distinct_levels_pack aisle inventoryMap q n :
  (forall p, p ∈ products aisle -> stocked inventoryMap p = true ->
             1 <= targetOf p <= n) ->
  NoDup (targetOf <$> List.filter (stocked inventoryMap) (products aisle)) ->
  exists result,
    boxesByUnitAndLevelJs (Number q) (Some n) aisle inventoryMap = Ok result.
Proof.
  intros Hvalid Hnd.
  unfold boxesByUnitAndLevelJs. cbn [numUnitsJs].
  change (initResultJs (Some (Z.max 1 (Qfloor (q / rackWidth)))) (Some n))
    with (initResult (Z.max 1 (Qfloor (q / rackWidth))) n).
  change (perLevelJs (Some n) freshCursor) with (perLevel n freshCursor).
  rewrite packProductsJs_number.
  destruct (packProducts_ok aisle inventoryMap (Z.max 1 (Qfloor (q / rackWidth)))
              n (products aisle) (perLevel n freshCursor)
              (initResult (Z.max 1 (Qfloor (q / rackWidth))) n))
    as [[sc r] ->]; try done.
  - lia.
  - intros u l Hu Hl. by apply hasSlot_initResult.
  - intros p _ _. apply cursorOf_perLevel.
  - eauto.
Qed.

(** X5.  For an aisle whose stored length is a number, when the stocked
    allocations target pairwise distinct levels between 1 and the stored
    shelf count (which is then a number, too), the packing raises nothing,
    however many boxes they ask for. *)
Theorem packing_succeeds_on_distinct_levels aisle inventoryMap length nShelves :
  length <> NaN ->
  (forall p, p ∈ products aisle -> stocked inventoryMap p = true ->
             exists n, nShelves = Some n /\ 1 <= targetOf p <= n) ->
  NoDup (targetOf <$> List.filter (stocked inventoryMap) (products aisle)) ->
  exists result, boxesByUnitAndLevelJs length nShelves aisle inventoryMap = Ok result.
Proof.
  intros Hnum Hvalid Hnd. destruct length as [q|]; [|done].
  destruct nShelves as [n|].
  - apply distinct_levels_pack; [|done].
    intros p Hp Hst. destruct (Hvalid p Hp Hst) as (n' & [= <-] & Hl). done.
  - (* no shelf count: the hypothesis leaves no stocked allocation *)
    assert (Hnone : List.filter (stocked inventoryMap) (products aisle) = []).
    { destruct (List.filter _ _) as [|p rest] eqn:Hf; [done|]. exfalso.
      assert (Hin : In p (List.filter (stocked inventoryMap) (products aisle)))
        by (rewrite Hf; by left).
      apply filter_In in Hin as [Hin Hst]. apply list_elem_of_In in Hin.
      by destruct (Hvalid p Hin Hst) as (n & Hn & _). }
    unfold boxesByUnitAndLevelJs. cbn [numUnitsJs].
    rewrite packProductsJs_number, <- packProducts_skips_unstocked, Hnone.
    cbn [packProducts]. eauto.
Qed.

(** Witness of X5. *)
Lemma packing_succeeds_on_distinct_levels_witness :
  exists result,
    boxesByUnitAndLevelJs (Number 3) (Some 1) Scenario.twoCartons
                          (inventoryMapOf Scenario.stock)
    = Ok result.
Proof.
  apply packing_succeeds_on_distinct_levels.
  - discriminate.
  - intros p Hp _. apply list_elem_of_singleton in Hp as ->. exists 1.
    split; [reflexivity|]. vm_compute. split; discriminate.
  - vm_compute. apply NoDup_singleton.
Defined.


(** ** Packing: one footprint per level *)







Lemma boxesOverlap_apart (b1 b2 : BoxData) :
  ((box_width b1 + box_width b2) / 2 <= box_x b1 - box_x b2)%Q \/
  ((box_width b1 + box_width b2) / 2 <= box_x b2 - box_x b1)%Q \/
  ((box_depth b1 + box_depth b2) / 2 <= box_z b1 - box_z b2)%Q \/
  ((box_depth b1 + box_depth b2) / 2 <= box_z b2 - box_z b1)%Q ->
  boxesOverlap b1 b2 = false.
Proof.
  unfold boxesOverlap, overlapsSpot. cbn [size_width size_depth].
  intros [H|[H|[H|H]]].
  - rewrite (Qltb_abs_false (box_x b1) (box_x b2)); [done | by left].
  - rewrite (Qltb_abs_false (box_x b1) (box_x b2)); [done | by right].
  - rewrite (Qltb_abs_false (box_z b1) (box_z b2)); [apply andb_false_r | by left].
  - rewrite (Qltb_abs_false (box_z b1) (box_z b2)); [apply andb_false_r | by right].
Qed.

Lemma rowInv_ext w d c f g :
  (forall u, f u = g u) -> rowInv w d c f -> rowInv w d c g.
Proof.
  intros Hfg (HA & HB & HC & HD). split; [|split; [|split]].
  - intros u b Hb. rewrite <- Hfg in Hb. by apply (HA u).
  - intros u Hu. rewrite <- Hfg. by apply HB.
  - intros b Hb. rewrite <- Hfg in Hb. by apply HC.
  - intros u i j b1 b2 H1 H2. rewrite <- Hfg in H1, H2. by apply (HD u i j).
Qed.

Lemma rowInv_move numUnits w d c f :
  (0 < w)%Q -> (0 < d)%Q ->
  rowInv w d c f -> rowInv w d (advanceUnit numUnits d (wrapRow w d c)).1 f.
Proof.
  intros Hw Hd (HA & HB & HC & HD). pose proof BOX_GAP_val as Hgap.
  pose proof (half_half w) as Hhw. pose proof (half_half d) as Hhd.
  assert (Hwrap : rowInv w d (wrapRow w d c) f).
  { unfold wrapRow. destruct (Qlt_le_dec endX _); [|done].
    split; [done|]. split; [done|]. split; [|done].
    cbn [cur_unit cur_x cur_z]. intros b Hb. destruct (HC b Hb) as [Hz _].
    split; [lra | left; lra]. }
  clear HA HB HC HD. destruct Hwrap as (HA & HB & HC & HD).
  unfold advanceUnit. destruct (Qlt_le_dec endZ _); [|done]. cbn [fst].
  split; [done|]. split; [|split; [|done]]; cbn [cur_unit cur_x cur_z].
  - intros u Hu. apply HB. lia.
  - intros b Hb. rewrite HB in Hb by lia. by apply elem_of_nil in Hb.
Qed.

Lemma rowInv_place aisle prod invItem cnt l h w d c f :
  (0 < w)%Q -> (0 < d)%Q ->
  rowInv w d c f ->
  rowInv w d (afterBox w c)
    (fun u => if decide (u = cur_unit c)
              then f u ++ [boxAt aisle prod invItem cnt l w h d c]
              else f u).
Proof.
  intros Hw Hd (HA & HB & HC & HD). pose proof BOX_GAP_val as Hgap.
  pose proof (half_half w) as Hhw. pose proof (half_half d) as Hhd.
  set (nb := boxAt aisle prod invItem cnt l w h d c).
  assert (Hnew : forall b, b ∈ f (cur_unit c) ->
                   boxesOverlap b nb = false /\ boxesOverlap nb b = false).
  { intros b Hb. destruct (HA _ _ Hb) as [Hbw Hbd]. destruct (HC b Hb) as [_ Hsep].
    pose proof (double_half w) as Hdw. pose proof (double_half d) as Hdd.
    split; apply boxesOverlap_apart; rewrite Hbw, Hbd; unfold nb;
      cbn [boxAt box_x box_z box_width box_depth]; destruct Hsep.
    - right; right; right. lra.
    - right; left. lra.
    - right; right; left. lra.
    - left. lra. }
  split; [|split; [|split]].
  - intros u b. split_decide; [|by apply HA].
    intros Hb. apply elem_of_app in Hb as [Hb|Hb]; [by apply (HA u)|].
    by apply list_elem_of_singleton in Hb as ->.
  - intros u Hu. cbn [afterBox cur_unit] in Hu. rewrite decide_False by lia. by apply HB.
  - cbn [afterBox cur_unit cur_x cur_z]. rewrite decide_True by done.
    intros b Hb. apply elem_of_app in Hb as [Hb|Hb].
    + destruct (HC b Hb) as [Hz Hsep]. split; [done|]. destruct Hsep; [left | right]; lra.
    + apply list_elem_of_singleton in Hb as ->. unfold nb. cbn [boxAt box_x box_z].
      split; [lra | right; lra].
  - intros u i j b1 b2. split_decide; [subst u|by apply HD].
    intros H1 H2 Hij.
    apply lookup_app_Some in H1 as [H1|[Hl1 H1]];
      apply lookup_app_Some in H2 as [H2|[Hl2 H2]].
    + by apply (HD (cur_unit c) i j).
    + apply list_lookup_singleton_Some in H2 as [_ <-].
      apply Hnew. apply list_elem_of_lookup. eauto.
    + apply list_lookup_singleton_Some in H1 as [_ <-].
      apply Hnew. apply list_elem_of_lookup. eauto.
    + apply list_lookup_singleton_Some in H1 as [Hi _].
      apply list_lookup_singleton_Some in H2 as [Hj _]. lia.
Qed.

(** X6.  When all stocked allocations of a level have the same positive
    width and depth, no two boxes of a unit of that level overlap under the
    centred-rectangle test. *)
Theorem uniform_level_packs_without_overlap aisle inventoryMap result l w d :
  (0 < w)%Q -> (0 < d)%Q ->
  uniformLevel aisle inventoryMap l w d ->
  boxesByUnitAndLevel aisle inventoryMap = Ok result ->
  forall u i j b1 b2,
    boxesAt result u l !! i = Some b1 ->
    boxesAt result u l !! j = Some b2 ->
    i <> j ->
    boxesOverlap b1 b2 = false.
Proof.
  intros Hw Hd Huni Hpack.
  destruct (boxesByUnitAndLevel_inv aisle inventoryMap
              (fun l' c f => l' = l -> rowInv w d c f))
    with (result := result) (l := l) as [c HJ]; try done.
  - intros l' c f g Hfg HJ Hl. by apply (rowInv_ext _ _ _ f); [|apply HJ].
  - intros prod invItem c f Hp Hlk. pose proof (Huni prod invItem Hp Hlk) as Hdims.
    destruct (resolveDims invItem) as [[w0 h0] d0]. cbn [fst snd] in Hdims.
    cbv zeta. intros HJ Hl. destruct (Hdims Hl) as [-> ->]. apply rowInv_move; auto.
  - intros prod invItem c f Hp Hlk. pose proof (Huni prod invItem Hp Hlk) as Hdims.
    destruct (resolveDims invItem) as [[w0 h0] d0]. cbn [fst snd] in Hdims.
    cbv zeta. intros HJ Hl. destruct (Hdims Hl) as [-> ->].
    apply rowInv_place; [done | done |]. apply rowInv_move; auto.
  - intros l' _. split; [|split; [|split]].
    + intros u b Hb. by apply elem_of_nil in Hb.
    + done.
    + intros b Hb. by apply elem_of_nil in Hb.
    + intros u i j b1 b2 H1. by rewrite lookup_nil in H1.
  - destruct (HJ eq_refl) as (_ & _ & _ & HD). intros u i j b1 b2. apply HD.
Qed.

(** Witness of X6. *)
Lemma uniform_level_packs_without_overlap_witness :
  exists result b0 b1,
    Scenario.pack Scenario.twoCartons = Ok result /\
    boxesAt result 0 1 !! 0%nat = Some b0 /\
    boxesAt result 0 1 !! 1%nat = Some b1 /\
    boxesOverlap b0 b1 = false.
Proof.
  destruct twoCartons_packed as (result & b0 & b1 & Hpack & Hb0 & Hb1).
  exists result, b0, b1. split; [exact Hpack|]. split; [exact Hb0|]. split; [exact Hb1|].
  apply (uniform_level_packs_without_overlap Scenario.twoCartons
           (inventoryMapOf Scenario.stock) result 1 (25 # 100) (2 # 10)
           ltac:(reflexivity) ltac:(reflexivity) twoCartons_uniform Hpack 0 0%nat 1%nat);
    [exact Hb0 | exact Hb1 | lia].
Defined.


(** ** Vacant spots: the search *)



Lemma forGrid_in_range {A : Type} (P : A -> Prop) size limit step
    (body : Q -> option (list A)) (start : Q) :
  (0 <= step)%Q ->
  (forall x xs, (start <= x)%Q -> (x + size <= limit)%Q ->
                body x = Some xs -> Forall P xs) ->
  forall fuel v res,
    (start <= v)%Q ->
    forGrid fuel v size limit step body = Some res -> Forall P res.
Proof.
  intros Hstep Hbody fuel. induction fuel as [|fuel IH]; intros v res Hv; cbn [forGrid].
  - destruct (Qle_bool (v + size) limit); [done|]. intros [= <-]. constructor.
  - destruct (Qle_bool (v + size) limit) eqn:Hle; [|intros [= <-]; constructor].
    apply Qle_bool_iff in Hle.
    destruct (body v) as [xs|] eqn:Hxs; [|done].
    destruct (forGrid fuel _ _ _ _ _) as [ys|] eqn:Hys; [|done].
    intros [= <-]. apply Forall_app. split; [by eapply Hbody|].
    eapply IH; [|exact Hys]. lra.
Qed.

Lemma ForallOrdPairs_app {A : Type} (R : A -> A -> Prop) (l1 l2 : list A) :
  ForallOrdPairs R l1 -> ForallOrdPairs R l2 ->
  (forall a b, a ∈ l1 -> b ∈ l2 -> R a b) ->
  ForallOrdPairs R (l1 ++ l2).
Proof.
  intros H1 H2. induction H1 as [|a l1 Ha H1 IH]; intros Hx; [done|].
  cbn [app]. constructor.
  - apply Forall_app. split; [done|]. apply Forall_forall. intros b Hb.
    apply Hx; [left | done].
  - apply IH. intros a' b Ha' Hb. apply Hx; [by right | done].
Qed.

Lemma ForallOrdPairs_lookup {A : Type} (R : A -> A -> Prop) (l : list A) :
  ForallOrdPairs R l ->
  forall i j a b, (i < j)%nat -> l !! i = Some a -> l !! j = Some b -> R a b.
Proof.
  induction 1 as [|x l Hx Hl IH]; intros i j a b Hij Ha Hb;
    [by rewrite lookup_nil in Ha|].
  destruct j as [|j]; [lia|]. cbn in Hb.
  destruct i as [|i]; cbn in Ha.
  - injection Ha as <-. rewrite Forall_forall in Hx. apply Hx.
    apply list_elem_of_lookup. eauto.
  - apply (IH i j); [lia | done | done].
Qed.

Lemma ForallOrdPairs_impl {A : Type} (P : A -> Prop) (R1 R2 : A -> A -> Prop)
    (l : list A) :
  (forall a b, P a -> P b -> R1 a b -> R2 a b) ->
  Forall P l -> ForallOrdPairs R1 l -> ForallOrdPairs R2 l.
Proof.
  intros Himp HP H1. induction H1 as [|a l Ha H1 IH]; [constructor|].
  apply Forall_cons in HP as [Pa HP]. constructor; [|by apply IH].
  rewrite Forall_forall in *. intros b Hb. apply Himp; auto.
Qed.

(** The results of a scan come in the order of the scan: what one turn gives
    has its key at the turn's position, what later turns give lies at least a
    step further. *)
Lemma forGrid_ordered {A : Type} (key : A -> Q) (R : A -> A -> Prop) (c : Q)
    size limit step (body : Q -> option (list A)) :
  (forall x xs, body x = Some xs ->
     Forall (fun a => (key a == x + c)%Q) xs /\ ForallOrdPairs R xs) ->
  (forall a b, (key a + step <= key b)%Q -> R a b) ->
  (0 <= step)%Q ->
  forall fuel v res,
    forGrid fuel v size limit step body = Some res ->
    Forall (fun a => (v + c <= key a)%Q) res /\ ForallOrdPairs R res.
Proof.
  intros Hbody Hacross Hstep fuel.
  induction fuel as [|fuel IH]; intros v res; cbn [forGrid].
  - destruct (Qle_bool (v + size) limit); [done|]. intros [= <-].
    split; constructor.
  - destruct (Qle_bool (v + size) limit); [|intros [= <-]; split; constructor].
    destruct (body v) as [xs|] eqn:Hxs; [|done].
    destruct (forGrid fuel _ _ _ _ _) as [ys|] eqn:Hys; [|done].
    intros [= <-]. destruct (Hbody _ _ Hxs) as [Hkx Hrx].
    destruct (IH _ _ Hys) as [Hky Hry].
    rewrite Forall_forall in Hkx, Hky. split.
    + apply Forall_app. split; apply Forall_forall; intros a Ha.
      * rewrite (Hkx a Ha). lra.
      * specialize (Hky a Ha). lra.
    + apply ForallOrdPairs_app; [done | done |].
      intros a b Ha Hb. apply Hacross. specialize (Hkx a Ha). specialize (Hky b Hb). lra.
Qed.

(** X7.  For a held box of positive width and depth the search for vacant
    spots ends; the footprint of every spot it offers lies in the scanned area
    of the shelf and is clear of every box the rack was given; and the spots
    come column by column, any later spot lying at least a box and a gap
    further along x, or in the same column at least a box and a gap further
    along z, so that no two of them overlap. *)
Theorem vacant_spots_are_free_on_the_shelf_and_apart width depth shelfBoxes vs :
  (0 < size_width vs)%Q -> (0 < size_depth vs)%Q ->
  exists spots,
    vacantSpots width depth shelfBoxes true (Some vs) = Some spots /\
    (forall s, s ∈ spots ->
       spotOnShelf width depth vs s /\
       forall b, b ∈ shelfBoxes -> overlapsSpot vs (spot_x s) (spot_z s) b = false) /\
    (forall i j s1 s2, (i < j)%nat ->
       spots !! i = Some s1 -> spots !! j = Some s2 -> spotAfter vs s1 s2).
Proof.
  intros Hw Hd. pose proof BOX_GAP_val as Hgap.
  pose proof (half_half (size_width vs)) as Hhw.
  pose proof (half_half (size_depth vs)) as Hhd.
  destruct (vacantSpots_total width depth shelfBoxes true (Some vs)) as [spots Hspots].
  { intros vs' [= <-]. lra. }
  exists spots. split; [done|].
  pose proof (vacantSpots_clear_of_given_boxes _ _ _ _ _ Hspots) as Hclear.
  rewrite Forall_forall in Hclear.
  unfold vacantSpots in Hspots. cbv zeta in Hspots.
  set (sX := (- width / 2 + POST_SIZE + (1 # 10))%Q) in *.
  set (sZ := (- depth / 2 + POST_SIZE + (1 # 10))%Q) in *.
  set (eX := (width / 2 - POST_SIZE - (1 # 10))%Q) in *.
  set (eZ := (depth / 2 - POST_SIZE - (1 # 10))%Q) in *.
  set (cell := fun x z : Q =>
         if existsb (overlapsSpot vs (x + size_width vs / 2) (z + size_depth vs / 2)) shelfBoxes
         then Some []
         else Some [ {| spot_x := (x + size_width vs / 2)%Q;
                        spot_z := (z + size_depth vs / 2)%Q |} ]) in *.
  assert (Hcell : forall x z xs, cell x z = Some xs ->
            xs = [] \/ xs = [ {| spot_x := (x + size_width vs / 2)%Q;
                                 spot_z := (z + size_depth vs / 2)%Q |} ]).
  { intros x z xs. unfold cell. destruct (existsb _ _); intros [= <-]; auto. }
  split.
  - intros s Hs. split.
    + revert s Hs. apply Forall_forall.
      refine (forGrid_in_range _ _ _ _ _ sX _ _ _ _ _ _ Hspots); [lra | | lra].
      intros x xs Hx1 Hx2 Hcol.
      refine (forGrid_in_range _ _ _ _ _ sZ _ _ _ _ _ _ Hcol); [lra | | lra].
      intros z zs Hz1 Hz2 Hz. destruct (Hcell _ _ _ Hz) as [-> | ->]; [constructor|].
      repeat constructor; cbn [spot_x spot_z]; fold sX eX sZ eZ; lra.
    + intros b Hb. specialize (Hclear s Hs). apply not_true_is_false. intros Hov.
      assert (existsb (overlapsSpot vs (spot_x s) (spot_z s)) shelfBoxes = true);
        [|congruence].
      apply existsb_exists. exists b. split; [by apply list_elem_of_In | done].
  - apply ForallOrdPairs_lookup.
    refine (proj2 (forGrid_ordered spot_x (spotAfter vs) (size_width vs / 2)
                     _ _ _ _ _ _ _ _ _ _ Hspots)); [| |lra].
    + intros x xs Hcol. split.
      * refine (forGrid_sound _ _ _ _ _ _ _ _ _ Hcol). intros z zs Hz.
        destruct (Hcell _ _ _ Hz) as [-> | ->]; repeat constructor.
      * assert (Hkey : Forall (fun s => (spot_x s == x + size_width vs / 2)%Q) xs).
        { refine (forGrid_sound _ _ _ _ _ _ _ _ _ Hcol). intros z zs Hz.
          destruct (Hcell _ _ _ Hz) as [-> | ->]; repeat constructor. }
        refine (ForallOrdPairs_impl _ _ _ _ _ Hkey
                  (proj2 (forGrid_ordered spot_z
                            (fun a b => (spot_z a + (size_depth vs + BOX_GAP) <= spot_z b)%Q)
                            (size_depth vs / 2) _ _ _ _ _ _ _ _ _ _ Hcol))).
        -- intros a b Ha Hb Hab. right. split; [|done]. by rewrite Ha, Hb.
        -- intros z zs Hz. destruct (Hcell _ _ _ Hz) as [-> | ->]; split;
             repeat constructor.
        -- done.
        -- lra.
    + intros a b Hab. by left.
Qed.

(** Witness of X7. *)
Lemma vacant_spots_are_free_on_the_shelf_and_apart_witness :
  exists spots,
    vacantSpots rackWidth rackDepth [Scenario.firstCarton] true
      (Some (mkSize (25 # 100) (2 # 10) (2 # 10))) = Some spots /\
    forall s, s ∈ spots ->
      overlapsSpot (mkSize (25 # 100) (2 # 10) (2 # 10)) (spot_x s) (spot_z s)
                   Scenario.firstCarton = false.
Proof.
  destruct (vacant_spots_are_free_on_the_shelf_and_apart rackWidth rackDepth
              [Scenario.firstCarton] (mkSize (25 # 100) (2 # 10) (2 # 10))
              ltac:(reflexivity) ltac:(reflexivity)) as (spots & Hrun & Hfree & _).
  exists spots. split; [exact Hrun|].
  intros s Hs. apply (proj2 (Hfree s Hs)). apply list_elem_of_singleton. reflexivity.
Defined.


(** ** Vacant spots: the cell a picked-up box has left *)

Lemma inject_nat_succ (k : nat) :
  (inject_Z (Z.of_nat (S k)) == inject_Z (Z.of_nat k) + 1)%Q.
Proof. rewrite Nat2Z.inj_succ. unfold Z.succ. by rewrite inject_Z_plus. Qed.

Lemma inject_nat_0 : (inject_Z (Z.of_nat 0) == 0)%Q.
Proof. reflexivity. Qed.

Lemma inject_nat_nonneg (k : nat) : (0 <= inject_Z (Z.of_nat k))%Q.
Proof. change 0%Q with (inject_Z 0). rewrite <- Zle_Qle. lia. Qed.

Lemma gridInv_ext w d c f g :
  (forall u, f u = g u) -> gridInv w d c f -> gridInv w d c g.
Proof.
  intros Hfg [Hc Hb]. split; [done|]. intros u b Hin. rewrite <- Hfg in Hin. by apply (Hb u).
Qed.

Lemma gridInv_move numUnits w d c f :
  (0 < w <= 25 # 10)%Q -> (0 < d <= 1)%Q ->
  gridInv w d c f ->
  let c1 := (advanceUnit numUnits d (wrapRow w d c)).1 in
  gridInv w d c1 f /\ (cur_x c1 + w <= endX)%Q /\ (cur_z c1 + d <= endZ)%Q.
Proof.
  intros Hw Hd [(k & m & Hx & Hz) Hb]. cbv zeta.
  pose proof startX_val. pose proof endX_val. pose proof startZ_val.
  pose proof endZ_val. pose proof BOX_GAP_val. pose proof inject_nat_0.
  unfold advanceUnit, wrapRow.
  destruct (Qlt_le_dec endX (cur_x c + w)) as [Hwrap|Hfit]; cbn [cur_x cur_z cur_unit boxIdx].
  - destruct (Qlt_le_dec endZ _) as [Hfull|Hok]; cbn [fst cur_x cur_z].
    + split; [|split; lra]. split; [|done]. exists O, O. cbn [cur_x cur_z]. change (inject_Z (Z.of_nat 0)) with 0%Q. split; lra.
    + split; [|split; lra]. split; [|done]. exists O, (S m). cbn [cur_x cur_z]. change (inject_Z (Z.of_nat 0)) with 0%Q.
      split; [lra|]. rewrite inject_nat_succ. lra.
  - destruct (Qlt_le_dec endZ _) as [Hfull|Hok]; cbn [fst cur_x cur_z].
    + split; [|split; lra]. split; [|done]. exists O, O. cbn [cur_x cur_z]. change (inject_Z (Z.of_nat 0)) with 0%Q. split; lra.
    + split; [|split; lra]. split; [|done]. by exists k, m.
Qed.

Lemma gridInv_place aisle prod invItem cnt l numUnits w h d c f :
  (0 < w <= 25 # 10)%Q -> (0 < d <= 1)%Q ->
  let c' := (advanceUnit numUnits d (wrapRow w d c)).1 in
  gridInv w d c f ->
  gridInv w d (afterBox w c')
    (fun u => if decide (u = cur_unit c')
              then f u ++ [boxAt aisle prod invItem cnt l w h d c']
              else f u).
Proof.
  intros Hw Hd c' Hinv.
  destruct (gridInv_move numUnits w d c f Hw Hd Hinv) as ([(k & m & Hx & Hz) Hb] & Hfx & Hfz).
  fold c' in Hx, Hz, Hfx, Hfz.
  pose proof (half_half w) as Hhw. pose proof (half_half d) as Hhd.
  split.
  - exists (S k), m. cbn [afterBox cur_x cur_z]. split; [|done].
    rewrite inject_nat_succ. lra.
  - intros u b. split_decide; [|by apply Hb].
    intros Hin. apply elem_of_app in Hin as [Hin|Hin]; [by apply (Hb u)|].
    apply list_elem_of_singleton in Hin as ->.
    exists k, m. cbn [boxAt box_x box_z]. repeat split; lra.
Qed.

Lemma forGrid_complete {A : Type} size limit step (body : Q -> option (list A)) :
  (0 < step)%Q ->
  forall (i : nat) fuel v res,
    forGrid fuel v size limit step body = Some res ->
    (v + inject_Z (Z.of_nat i) * step + size <= limit)%Q ->
    exists x xs,
      (x == v + inject_Z (Z.of_nat i) * step)%Q /\ body x = Some xs /\
      forall a, a ∈ xs -> a ∈ res.
Proof.
  intros Hstep i. induction i as [|i IH]; intros fuel v res Hrun Hfit.
  - assert (Hle : Qle_bool (v + size) limit = true).
    { apply Qle_bool_iff. change (inject_Z (Z.of_nat 0)) with 0%Q in Hfit. lra. }
    destruct fuel as [|fuel]; cbn [forGrid] in Hrun; rewrite Hle in Hrun; [done|].
    destruct (body v) as [xs|] eqn:Hxs; [|done].
    destruct (forGrid fuel _ _ _ _ _) as [ys|]; [|done].
    injection Hrun as <-. exists v, xs. split; [change (inject_Z (Z.of_nat 0)) with 0%Q; lra|]. split; [done|].
    intros a Ha. apply elem_of_app. by left.
  - rewrite inject_nat_succ in Hfit.
    pose proof (inject_nat_nonneg i) as Hi.
    assert (Hprod : (0 <= inject_Z (Z.of_nat i) * step)%Q).
    { apply Qmult_le_0_compat; lra. }
    assert (Hle : Qle_bool (v + size) limit = true).
    { apply Qle_bool_iff. lra. }
    destruct fuel as [|fuel]; cbn [forGrid] in Hrun; rewrite Hle in Hrun; [done|].
    destruct (body v) as [xs|] eqn:Hxs; [|done].
    destruct (forGrid fuel _ _ _ _ _) as [ys|] eqn:Hys; [|done].
    injection Hrun as <-.
    destruct (IH fuel (v + step)%Q ys Hys) as (x & xs' & Hx & Hbody & Hin); [lra|].
    exists x, xs'. split; [rewrite inject_nat_succ; lra|]. split; [done|].
    intros a Ha. apply elem_of_app. right. by apply Hin.
Qed.

Lemma Qltb_Qeq (a a' t : Q) : (a == a')%Q -> Qltb a t = Qltb a' t.
Proof.
  intros Heq. unfold Qltb.
  destruct (Qlt_le_dec a t), (Qlt_le_dec a' t); try done; lra.
Qed.

Lemma overlapsSpot_Qeq vs x x' z z' b :
  (x == x')%Q -> (z == z')%Q -> overlapsSpot vs x z b = overlapsSpot vs x' z' b.
Proof.
  intros Hx Hz. unfold overlapsSpot.
  rewrite (Qltb_Qeq (Qabs (box_x b - x)) (Qabs (box_x b - x'))) by (by rewrite Hx).
  rewrite (Qltb_Qeq (Qabs (box_z b - z)) (Qabs (box_z b - z'))) by (by rewrite Hz).
  done.
Qed.

Lemma find_level {V : Type} (m : gmap Z V) (l : Z) :
  snd <$> List.find (fun b => Z.eqb (fst b) l) (map_to_list m) = m !! l.
Proof.
  destruct (List.find _ _) as [[l' v]|] eqn:Hfind.
  - apply find_some in Hfind as [Hin Hl]. cbn in Hl. apply Z.eqb_eq in Hl as ->.
    apply list_elem_of_In, elem_of_map_to_list in Hin. by rewrite Hin.
  - destruct (m !! l) as [v|] eqn:Hlk; [|done]. exfalso.
    apply elem_of_map_to_list, list_elem_of_In in Hlk.
    pose proof (find_none _ _ Hfind _ Hlk) as Hno. cbn in Hno.
    by rewrite Z.eqb_refl in Hno.
Qed.

Lemma shelfBoxesOf_left result picked u l :
  shelfBoxesOf (rackBoxes result u LeftRack) (Some picked) l =
  List.filter (fun box => negb (bool_decide (boxId box ∈ picked))) (boxesAt result u l).
Proof.
  unfold shelfBoxesOf, rackBoxes, boxesAt. f_equal.
  destruct (result !! u) as [m|]; cbn; [|done]. by rewrite find_level.
Qed.

(** X8.  On a level whose stocked allocations all have the same footprint,
    at most 2.5 m by 1 m, the cell of a picked-up box is offered again: with
    the box's id among the picked-up ids, the search of the left rack of its
    unit and level, run for the box's size, lists a spot at the coordinates
    the box had.  (This is about the search only.  A click on the spot goes
    through [handlePlaceBox], which draws the override relative to the right
    rack, see [placedBoxWorld], and leaves the id among the picked-up ones.) *)
Theorem left_rack_offers_cell_of_picked_box aisle inventoryMap result u l w d i b picked :
  (0 < w <= 25 # 10)%Q -> (0 < d <= 1)%Q ->
  uniformLevel aisle inventoryMap l w d ->
  boxesByUnitAndLevel aisle inventoryMap = Ok result ->
  boxesAt result u l !! i = Some b ->
  boxId b ∈ picked ->
  exists spots s,
    rackVacantSpots result (Some picked) true
      (Some (mkSize (box_width b) (box_height b) (box_depth b))) u LeftRack l
      = Some spots /\
    s ∈ spots /\ (spot_x s == box_x b)%Q /\ (spot_z s == box_z b)%Q.
Proof.
  intros Hw Hd Huni Hpack Hb Hpicked.
  pose proof BOX_GAP_val as Hgap.
  pose proof (half_half w) as Hhw. pose proof (half_half d) as Hhd.
  (* the two invariants of the level *)
  destruct (boxesByUnitAndLevel_inv aisle inventoryMap
              (fun l' c f => l' = l -> rowInv w d c f /\ gridInv w d c f))
    with (result := result) (l := l) as [c HJ]; try done.
  { intros l' c f g Hfg HJ Hl. destruct (HJ Hl) as [H1 H2].
    split; [by apply (rowInv_ext _ _ _ f) | by apply (gridInv_ext _ _ _ f)]. }
  { intros prod invItem c f Hp Hlk. pose proof (Huni prod invItem Hp Hlk) as Hdims.
    destruct (resolveDims invItem) as [[w0 h0] d0]. cbn [fst snd] in Hdims.
    cbv zeta. intros HJ Hl. destruct (Hdims Hl) as [-> ->]. destruct (HJ Hl) as [H1 H2].
    split; [apply rowInv_move; tauto|]. by apply gridInv_move. }
  { intros prod invItem c f Hp Hlk. pose proof (Huni prod invItem Hp Hlk) as Hdims.
    destruct (resolveDims invItem) as [[w0 h0] d0]. cbn [fst snd] in Hdims.
    cbv zeta. intros HJ Hl. destruct (Hdims Hl) as [-> ->]. destruct (HJ Hl) as [H1 H2].
    split.
    - apply rowInv_place; [tauto | tauto |]. apply rowInv_move; tauto.
    - by apply gridInv_place. }
  { intros l' _. split.
    - split; [|split; [|split]].
      + intros u0 b0 Hb0. by apply elem_of_nil in Hb0.
      + done.
      + intros b0 Hb0. by apply elem_of_nil in Hb0.
      + intros u0 i0 j0 b1 b2 H1. by rewrite lookup_nil in H1.
    - split; [exists O, O; change (inject_Z (Z.of_nat 0)) with 0%Q;
               cbn [freshCursor cur_x cur_z]; split; lra|].
      intros u0 b0 Hb0. by apply elem_of_nil in Hb0. }
  destruct (HJ eq_refl) as [(Hdimsb & _ & _ & Hapart) [_ Hgrid]].
  assert (Hbin : b ∈ boxesAt result u l) by (apply list_elem_of_lookup; eauto).
  destruct (Hdimsb u b Hbin) as [Hbw Hbd].
  destruct (Hgrid u b Hbin) as (gi & gj & Hbx & Hbz & Hfx & Hfz).
  (* the search *)
  unfold rackVacantSpots. rewrite shelfBoxesOf_left.
  set (shelf := List.filter _ (boxesAt result u l)).
  set (vs := mkSize (box_width b) (box_height b) (box_depth b)).
  destruct (vacantSpots_total rackWidth rackDepth shelf true (Some vs)) as [spots Hspots].
  { intros vs' [= <-]. cbn [vs size_width size_depth]. rewrite Hbw, Hbd. lra. }
  exists spots. rewrite Hspots.
  assert (Hfree : forall x z, (x == box_x b)%Q -> (z == box_z b)%Q ->
            existsb (overlapsSpot vs x z) shelf = false).
  { intros x z Hx Hz. apply not_true_is_false. intros Hex.
    apply existsb_exists in Hex as (b' & Hin' & Hov).
    apply filter_In in Hin' as [Hin' Hkeep]. apply negb_true_iff, bool_decide_eq_false in Hkeep.
    apply list_elem_of_In, list_elem_of_lookup in Hin' as [j Hj].
    assert (Hij : j <> i) by (intros ->; congruence).
    rewrite (overlapsSpot_Qeq vs x (box_x b) z (box_z b)) in Hov by done.
    pose proof (Hapart u j i b' b Hj Hb Hij) as Hno. unfold boxesOverlap in Hno.
    fold vs in Hno. congruence. }
  unfold vacantSpots in Hspots. cbv zeta in Hspots.
  cbn [vs size_width size_depth] in Hspots. rewrite Hbw, Hbd in Hspots.
  fold startX startZ endX endZ in Hspots.
  assert (HstepX : (0 < w + BOX_GAP)%Q) by lra.
  assert (HstepZ : (0 < d + BOX_GAP)%Q) by lra.
  destruct (forGrid_complete _ _ _ _ HstepX gi _ _ _ Hspots) as (x & col & Hx & Hcol & Hincl).
  { lra. }
  cbv beta in Hcol.
  destruct (forGrid_complete _ _ _ _ HstepZ gj _ _ _ Hcol) as (z & cell & Hz & Hcell & Hincl').
  { lra. }
  cbv beta zeta in Hcell.
  rewrite <- Hbw, <- Hbd in Hcell. fold vs in Hcell.
  rewrite Hfree in Hcell by (rewrite ?Hbw, ?Hbd; lra).
  injection Hcell as <-.
  eexists. split; [done|]. split.
  - apply Hincl, Hincl'. by apply list_elem_of_singleton.
  - cbn [spot_x spot_z]. rewrite Hbw, Hbd. split; lra.
Qed.

(** Witness of X8. *)
Lemma left_rack_offers_cell_of_picked_box_witness :
  exists result b spots s,
    Scenario.pack Scenario.twoCartons = Ok result /\
    boxesAt result 0 1 !! 0%nat = Some b /\
    rackVacantSpots result (Some {[ boxId b ]}) true
      (Some (mkSize (box_width b) (box_height b) (box_depth b))) 0 LeftRack 1
      = Some spots /\
    s ∈ spots /\ (spot_x s == box_x b)%Q /\ (spot_z s == box_z b)%Q.
Proof.
  destruct twoCartons_packed as (result & b0 & _ & Hpack & Hb0 & _).
  destruct (left_rack_offers_cell_of_picked_box Scenario.twoCartons
              (inventoryMapOf Scenario.stock) result 0 1 (25 # 100) (2 # 10) 0%nat b0
              {[ boxId b0 ]}) as (spots & s & H);
    [split; [reflexivity | vm_compute; discriminate]
    |split; [reflexivity | vm_compute; discriminate]
    |exact twoCartons_uniform | exact Hpack | exact Hb0
    |apply elem_of_singleton; reflexivity|].
  exists result, b0, spots, s. split; [exact Hpack|]. split; [exact Hb0|]. exact H.
Defined.


(** ** Box interaction: the overrides *)

Lemma sceneRun_snoc sid inventory evs ev :
  sceneRun sid inventory (evs ++ [ev]) =
  sceneStep sid inventory (sceneRun sid inventory evs) ev.
Proof. unfold sceneRun. by rewrite foldl_app. Qed.



(** X9.  In a session that starts with nothing placed, every override
    drawn has a record in the shared store with the same id, product, aisle,
    level and position. *)
Theorem drawn_overrides_are_recorded sid inventory evs :
  forall pb, pb ∈ placedBoxesData (sceneRun sid inventory evs) ->
    exists p, p ∈ placedBoxes (sceneRun sid inventory evs) /\ recorded pb p.
Proof.
  induction evs as [|ev evs IH] using rev_ind; [by intros pb Hpb; apply elem_of_nil in Hpb|].
  rewrite sceneRun_snoc. revert IH. generalize (sceneRun sid inventory evs). intros st IH.
  destruct ev as [b|now a u l x z|i|m|]; cbn [sceneStep]; try done.
  - unfold handlePlaceBox. destruct (heldBox st) as [held|]; [|done].
    destruct sid; [|done]. cbn [placedBoxesData placedBoxes].
    intros pb Hpb. apply elem_of_app in Hpb as [Hpb|Hpb].
    + destruct (IH pb Hpb) as (p & Hp & Hrec). exists p. split; [|done].
      apply elem_of_app. by left.
    + apply list_elem_of_singleton in Hpb as ->. eexists. split.
      * apply elem_of_app. right. by apply list_elem_of_singleton.
      * by repeat split.
  - destruct (placedBoxesData st !! i) as [pb0|]; [|done].
    unfold handleGrabPlacedBox. destruct (heldBox st); [done|].
    destruct (List.find _ inventory); [|done]. cbn [placedBoxesData placedBoxes].
    intros pb Hpb. apply IH. by eapply elem_of_filter_list.
  - cbn. intros pb Hpb. by apply elem_of_nil in Hpb.
Qed.

(** Witness of X9. *)
Lemma drawn_overrides_are_recorded_witness :
  exists pb p,
    pb ∈ placedBoxesData (sceneRun (Some "s1") Scenario.stock Demo.moved) /\
    p ∈ placedBoxes (sceneRun (Some "s1") Scenario.stock Demo.moved) /\
    recorded pb p.
Proof.
  assert (H : exists pb,
            placedBoxesData (sceneRun (Some "s1") Scenario.stock Demo.moved) !! 0%nat
            = Some pb) by (eexists; vm_compute; reflexivity).
  destruct H as [pb Hpb]. apply list_elem_of_lookup_2 in Hpb.
  destruct (drawn_overrides_are_recorded (Some "s1") Scenario.stock Demo.moved pb Hpb)
    as (p & Hp & Hrec).
  exists pb, p. split; [exact Hpb|]. split; [exact Hp | exact Hrec].
Defined.


Lemma clickTimes_snoc evs ev :
  clickTimes (evs ++ [ev]) =
  clickTimes evs ++ match ev with PlaceBox now _ _ _ _ _ => [now] | _ => [] end.
Proof. unfold clickTimes. rewrite omap_app. by destruct ev. Qed.



Lemma placed_ids_from_clicks sid inventory evs :
  NoDup (clickTimes evs) ->
  NoDup (pb_id <$> placedBoxesData (sceneRun sid inventory evs)) /\
  forall pb, pb ∈ placedBoxesData (sceneRun sid inventory evs) ->
    exists now, now ∈ clickTimes evs /\ pb_id pb = "placed-" +:+ pretty now.
Proof.
  induction evs as [|ev evs IH] using rev_ind.
  { intros _. split; [constructor | by intros pb Hpb; apply elem_of_nil in Hpb]. }
  rewrite clickTimes_snoc, sceneRun_snoc. intros Hnd.
  apply NoDup_app in Hnd as (Hnd & Hfresh & _). specialize (IH Hnd).
  revert IH. generalize (sceneRun sid inventory evs). intros st [IHnd IHin].
  assert (Hkeep : forall st',
            placedBoxesData st' = placedBoxesData st ->
            NoDup (pb_id <$> placedBoxesData st') /\
            forall pb, pb ∈ placedBoxesData st' ->
              exists now, now ∈ clickTimes evs ++
                  match ev with PlaceBox now _ _ _ _ _ => [now] | _ => [] end /\
                pb_id pb = "placed-" +:+ pretty now).
  { intros st' ->. split; [done|]. intros pb Hpb.
    destruct (IHin pb Hpb) as (now & Hnow & Hid). exists now. split; [|done].
    apply elem_of_app. by left. }
  destruct ev as [b|now a u l x z|i|m|]; cbn [sceneStep]; try by apply Hkeep.
  - unfold handlePlaceBox. destruct (heldBox st) as [held|]; [|by apply Hkeep].
    destruct sid; [|by apply Hkeep]. cbn [placedBoxesData]. split.
    + rewrite fmap_app. apply NoDup_app. split; [done|]. split; [|apply NoDup_singleton].
      intros id Hid Hnew. cbn in Hnew. apply list_elem_of_singleton in Hnew as ->.
      apply list_elem_of_fmap in Hid as (pb & Hpbid & Hpb).
      destruct (IHin pb Hpb) as (now' & Hnow' & Hid').
      rewrite Hid' in Hpbid. apply (inj (String.append "placed-")) in Hpbid.
      apply (inj pretty) in Hpbid as ->.
      apply (Hfresh _ Hnow'). by apply list_elem_of_singleton.
    + intros pb Hpb. apply elem_of_app in Hpb as [Hpb|Hpb].
      * destruct (IHin pb Hpb) as (now' & Hnow' & Hid). exists now'.
        split; [apply elem_of_app; by left | done].
      * apply list_elem_of_singleton in Hpb as ->. exists now.
        split; [apply elem_of_app; right; by apply list_elem_of_singleton | done].
  - destruct (placedBoxesData st !! i) as [pb0|]; [|by apply Hkeep].
    unfold handleGrabPlacedBox. destruct (heldBox st); [by apply Hkeep|].
    destruct (List.find _ inventory); [|by apply Hkeep]. cbn [placedBoxesData].
    split; [by apply NoDup_fmap_filter|].
    intros pb Hpb. apply elem_of_filter_list in Hpb.
    destruct (IHin pb Hpb) as (now' & Hnow' & Hid). exists now'.
    split; [|done]. rewrite app_nil_r. done.
  - cbn. split; [constructor|]. intros pb Hpb. by apply elem_of_nil in Hpb.
Qed.

Lemma filter_other_ids_absent (l : list PlacedBoxData) (id : string) :
  id ∉ pb_id <$> l ->
  List.filter (fun pb' => negb (String.eqb (pb_id pb') id)) l = l.
Proof.
  induction l as [|y l IH]; [done|]. intros Hnin.
  cbn [List.filter]. destruct (String.eqb (pb_id y) id) eqn:Hy.
  - apply String.eqb_eq in Hy. exfalso. apply Hnin. rewrite <- Hy. cbn. left.
  - cbn [negb]. f_equal. apply IH. intros Hin. apply Hnin. cbn. by right.
Qed.

Lemma filter_other_ids_delete (l : list PlacedBoxData) i pb :
  NoDup (pb_id <$> l) -> l !! i = Some pb ->
  List.filter (fun pb' => negb (String.eqb (pb_id pb') (pb_id pb))) l = delete i l.
Proof.
  revert i. induction l as [|x l IH]; intros i Hnd Hi; [done|].
  cbn [fmap list_fmap] in Hnd. apply NoDup_cons in Hnd as [Hnin Hnd].
  destruct i as [|i]; cbn in Hi; cbn [List.filter delete].
  - injection Hi as ->. rewrite String.eqb_refl. cbn [negb].
    by apply filter_other_ids_absent.
  - destruct (String.eqb (pb_id x) (pb_id pb)) eqn:Hx.
    + apply String.eqb_eq in Hx. exfalso. apply Hnin. rewrite Hx.
      apply list_elem_of_fmap. exists pb. split; [done|]. apply list_elem_of_lookup. eauto.
    + cbn [negb]. cbn. f_equal. by apply IH.
Qed.

(** X10.  When the clicks on vacant spots happened at pairwise distinct
    times, re-grabbing the [i]-th drawn override with an empty hand, its
    product being in the inventory, removes exactly that override from the
    drawn ones and puts a box of its product and size in the hand. *)
Theorem regrab_takes_exactly_the_clicked_override sid inventory evs i pb :
  NoDup (clickTimes evs) ->
  placedBoxesData (sceneRun sid inventory evs) !! i = Some pb ->
  heldBox (sceneRun sid inventory evs) = None ->
  (exists product, product ∈ inventory /\ inv_id product = pb_productId pb) ->
  let st' := sceneStep sid inventory (sceneRun sid inventory evs) (GrabPlacedBox i) in
  placedBoxesData st' = delete i (placedBoxesData (sceneRun sid inventory evs)) /\
  exists held,
    heldBox st' = Some held /\
    box_productId held = pb_productId pb /\
    (box_width held, box_height held, box_depth held)
      = (pb_width pb, pb_height pb, pb_depth pb) /\
    inv_id (box_product held) = pb_productId pb.
Proof.
  intros Hnd Hi Hheld (product & Hin & Hprod). cbv zeta.
  destruct (placed_ids_from_clicks sid inventory evs Hnd) as [Hids _].
  revert Hi Hheld Hids. generalize (sceneRun sid inventory evs). intros st Hi Hheld Hids.
  cbn [sceneStep]. rewrite Hi. unfold handleGrabPlacedBox. rewrite Hheld.
  destruct (List.find _ inventory) as [p|] eqn:Hfind.
  - cbn [placedBoxesData heldBox]. split; [by apply filter_other_ids_delete|].
    eexists. split; [done|]. cbn. split; [done|]. split; [done|].
    apply find_some in Hfind as [_ Hp]. by apply String.eqb_eq in Hp.
  - exfalso. apply list_elem_of_In in Hin.
    pose proof (find_none _ _ Hfind product Hin) as Hno. cbv beta in Hno.
    rewrite Hprod, String.eqb_refl in Hno. done.
Qed.

(** Witness of X10. *)
Lemma regrab_takes_exactly_the_clicked_override_witness :
  placedBoxesData
    (sceneStep (Some "s1") Scenario.stock
       (sceneRun (Some "s1") Scenario.stock Demo.moved) (GrabPlacedBox 0))
  = delete 0%nat (placedBoxesData (sceneRun (Some "s1") Scenario.stock Demo.moved)).
Proof.
  assert (H : exists pb,
            placedBoxesData (sceneRun (Some "s1") Scenario.stock Demo.moved) !! 0%nat
            = Some pb /\ pb_productId pb = "carton")
    by (eexists; split; vm_compute; reflexivity).
  destruct H as (pb & Hpb & Hprod).
  apply (regrab_takes_exactly_the_clicked_override (Some "s1") Scenario.stock
           Demo.moved 0%nat pb).
  - vm_compute. apply NoDup_singleton.
  - exact Hpb.
  - vm_compute. reflexivity.
  - exists Scenario.carton. split; [left | by rewrite Hprod].
Defined.


(** ** Aisle editor: floor plan, preview and view *)







Lemma rectOverlapsAisle_sym (a b : Aisle) :
  rectOverlapsAisle (rectOfAisle a) b = rectOverlapsAisle (rectOfAisle b) a.
Proof.
  unfold rectOverlapsAisle, rectOfAisle. cbn [rect_x rect_z rect_width rect_length].
  by destruct (Qle_bool (aisle_x a + aisle_width a) (aisle_x b)),
             (Qle_bool (aisle_x b + aisle_width b) (aisle_x a)),
             (Qle_bool (aisle_z a + aisle_length a) (aisle_z b)),
             (Qle_bool (aisle_z b + aisle_length b) (aisle_z a)).
Qed.

Lemma rectOverlapsAisle_rect (r1 r2 : Rect) (a : Aisle) :
  rect_x r1 = rect_x r2 -> rect_z r1 = rect_z r2 ->
  rect_width r1 = rect_width r2 -> rect_length r1 = rect_length r2 ->
  rectOverlapsAisle r1 a = rectOverlapsAisle r2 a.
Proof. unfold rectOverlapsAisle. by intros -> -> -> ->. Qed.

Lemma rectOverlapsAisle_aisle (r : Rect) (a b : Aisle) :
  rectOfAisle a = rectOfAisle b -> rectOverlapsAisle r a = rectOverlapsAisle r b.
Proof. unfold rectOverlapsAisle, rectOfAisle. by intros [= -> -> -> ->]. Qed.

Lemma updateAisleRect_storeId rid r a :
  aisle_storeId (updateAisleRect rid r a) = aisle_storeId a.
Proof. unfold updateAisleRect. by destruct (String.eqb _ _). Qed.

Lemma filter_map_updateAisleRect rid r sid (l : list Aisle) :
  List.filter (fun a => String.eqb (aisle_storeId a) sid) (List.map (updateAisleRect rid r) l) =
  List.map (updateAisleRect rid r) (List.filter (fun a => String.eqb (aisle_storeId a) sid) l).
Proof.
  induction l as [|a l IH]; [done|]. cbn [List.map List.filter].
  rewrite updateAisleRect_storeId. destruct (String.eqb _ sid); cbn [List.map]; by rewrite IH.
Qed.



Lemma NoDup_ids_lookup (l : list Aisle) i j a b :
  NoDup (aisle_id <$> l) -> l !! i = Some a -> l !! j = Some b -> i <> j ->
  aisle_id a <> aisle_id b.
Proof.
  intros Hnd Ha Hb Hij Heq. apply Hij.
  apply (NoDup_lookup _ i j (aisle_id a) Hnd).
  - by rewrite list_lookup_fmap, Ha.
  - by rewrite list_lookup_fmap, Hb, Heq.
Qed.

Lemma existsb_false_elem {A} (f : A -> bool) (l : list A) x :
  existsb f l = false -> x ∈ l -> f x = false.
Proof.
  intros Hex Hin. apply not_true_is_false. intros Hfx.
  assert (existsb f l = true); [|congruence].
  apply existsb_exists. exists x. split; [by apply list_elem_of_In | done].
Qed.

Lemma layoutOK_same_aisles st st' :
  stores st' = stores st -> currentStoreId st' = currentStoreId st ->
  aisles st' = aisles st -> layoutOK st -> layoutOK st'.
Proof.
  unfold layoutOK, getCurrentStore, getCurrentAisles. by intros -> -> ->.
Qed.

Lemma layoutOK_resized st r rid sid store :
  NoDup (aisle_id <$> aisles st) ->
  currentStoreId st = Some sid -> getCurrentStore st = Some store ->
  (0 <= rect_x r)%Q -> (0 <= rect_z r)%Q ->
  (rect_x r + rect_width r <= store_width store)%Q ->
  (rect_z r + rect_length r <= store_depth store)%Q ->
  (1 <= rect_width r)%Q -> (1 <= rect_length r)%Q ->
  existsb (fun aisle => if String.eqb (aisle_id aisle) rid then false
                        else rectOverlapsAisle r aisle) (getCurrentAisles st) = false ->
  layoutOK st ->
  layoutOK (endResize st (List.map (updateAisleRect rid r) (aisles st))).
Proof.
  intros Hnd Hsid Hstore Hx Hz Hr Hb Hw Hl Hfree Hok store' Hstore'.
  assert (store' = store) as ->.
  { unfold getCurrentStore in *. cbn [endResize stores currentStoreId] in Hstore'. congruence. }
  destruct (Hok store Hstore) as [Hin Hpair].
  assert (Hcur : getCurrentAisles (endResize st (List.map (updateAisleRect rid r) (aisles st)))
                 = List.map (updateAisleRect rid r) (getCurrentAisles st)).
  { unfold getCurrentAisles. cbn [endResize aisles currentStoreId]. rewrite Hsid.
    apply filter_map_updateAisleRect. }
  rewrite Hcur.
  assert (Hnd' : NoDup (aisle_id <$> getCurrentAisles st)).
  { unfold getCurrentAisles. rewrite Hsid. by apply NoDup_fmap_filter. }
  assert (Hupd : forall a, String.eqb (aisle_id a) rid = true ->
                   rectOfAisle (updateAisleRect rid r a) = r).
  { intros a Ha. unfold updateAisleRect. rewrite Ha. by destruct r. }
  assert (Hkeep : forall a, String.eqb (aisle_id a) rid = false ->
                   updateAisleRect rid r a = a).
  { intros a Ha. unfold updateAisleRect. by rewrite Ha. }
  assert (Hclear : forall a, a ∈ getCurrentAisles st ->
                     String.eqb (aisle_id a) rid = false -> rectOverlapsAisle r a = false).
  { intros a Ha Hne. pose proof (existsb_false_elem _ _ a Hfree Ha) as H.
    cbv beta in H. by rewrite Hne in H. }
  split.
  - intros a' Ha'. apply list_elem_of_In, in_map_iff in Ha' as (a & <- & Ha).
    apply list_elem_of_In in Ha. destruct (String.eqb (aisle_id a) rid) eqn:Hid.
    + unfold aisleInStore, updateAisleRect. rewrite Hid. cbn. tauto.
    + rewrite Hkeep by done. by apply Hin.
  - intros i j a' b' Ha' Hb' Hij.
    change (List.map (updateAisleRect rid r) (getCurrentAisles st))
      with (updateAisleRect rid r <$> getCurrentAisles st) in Ha', Hb'.
    rewrite list_lookup_fmap in Ha', Hb'.
    destruct (getCurrentAisles st !! i) as [a|] eqn:Ha; [|done].
    destruct (getCurrentAisles st !! j) as [b|] eqn:Hlb; [|done].
    injection Ha' as <-. injection Hb' as <-.
    pose proof (NoDup_ids_lookup _ i j a b Hnd' Ha Hlb Hij) as Hne.
    assert (Hina : a ∈ getCurrentAisles st) by (apply list_elem_of_lookup; eauto).
    assert (Hinb : b ∈ getCurrentAisles st) by (apply list_elem_of_lookup; eauto).
    destruct (String.eqb (aisle_id a) rid) eqn:Hida;
      destruct (String.eqb (aisle_id b) rid) eqn:Hidb.
    + apply String.eqb_eq in Hida, Hidb. congruence.
    + rewrite (Hkeep b) by done. rewrite Hupd by done. by apply Hclear.
    + rewrite (Hkeep a) by done. rewrite rectOverlapsAisle_sym, Hupd by done.
      by apply Hclear.
    + rewrite (Hkeep a), (Hkeep b) by done. by apply (Hpair i j).
Qed.

Lemma layoutOK_created st r sid id store n :
  currentStoreId st = Some sid -> getCurrentStore st = Some store ->
  Qltb (rect_width r) 1 || Qltb (rect_length r) 1 = false ->
  outOfBounds r store = false ->
  existsb (rectOverlapsAisle r) (getCurrentAisles st) = false ->
  layoutOK st ->
  layoutOK (endDrag st (aisles st ++ [newAisleOf sid id n r]) None).
Proof.
  intros Hsid Hstore Hmin Hoob Hfree Hok store' Hstore'.
  assert (store' = store) as ->.
  { unfold getCurrentStore in *. cbn [endDrag stores currentStoreId] in Hstore'. congruence. }
  destruct (Hok store Hstore) as [Hin Hpair].
  assert (Hcur : getCurrentAisles (endDrag st (aisles st ++ [newAisleOf sid id n r]) None)
                 = getCurrentAisles st ++ [newAisleOf sid id n r]).
  { unfold getCurrentAisles. cbn [endDrag aisles currentStoreId]. rewrite Hsid.
    rewrite List.filter_app. cbn [List.filter newAisleOf aisle_storeId].
    by rewrite String.eqb_refl. }
  rewrite Hcur.
  apply orb_false_iff in Hmin as [Hw Hl].
  apply Qltb_false_iff in Hw, Hl.
  unfold outOfBounds in Hoob.
  apply orb_false_iff in Hoob as [Hoob Hb]. apply orb_false_iff in Hoob as [Hoob Hr].
  apply orb_false_iff in Hoob as [Hx Hz].
  apply Qltb_false_iff in Hx, Hz, Hr, Hb.
  assert (Hnew : forall a, a ∈ getCurrentAisles st ->
            rectOverlapsAisle (rectOfAisle (newAisleOf sid id n r)) a = false).
  { intros a Ha. rewrite <- (existsb_false_elem _ _ a Hfree Ha).
    by apply rectOverlapsAisle_rect. }
  split.
  - intros a Ha. apply elem_of_app in Ha as [Ha|Ha]; [by apply Hin|].
    apply list_elem_of_singleton in Ha as ->. unfold aisleInStore. cbn. tauto.
  - intros i j a b Ha Hb' Hij.
    apply lookup_app_Some in Ha as [Ha|[Hla Ha]];
      apply lookup_app_Some in Hb' as [Hb'|[Hlb Hb']].
    + by apply (Hpair i j).
    + apply list_lookup_singleton_Some in Hb' as [_ <-].
      rewrite rectOverlapsAisle_sym. apply Hnew. apply list_elem_of_lookup. eauto.
    + apply list_lookup_singleton_Some in Ha as [_ <-].
      apply Hnew. apply list_elem_of_lookup. eauto.
    + apply list_lookup_singleton_Some in Ha as [Hi _].
      apply list_lookup_singleton_Some in Hb' as [Hj _]. lia.
Qed.

(** [handleMouseUp] is the call followed at once by its resumption. *)
Lemma handleMouseUp_called_resumed db st :
  handleMouseUp db st =
  match mouseUpCalled st with
  | inl st' => st'
  | inr wait => mouseUpResumed db wait st
  end.
Proof.
  unfold handleMouseUp, mouseUpCalled.
  assert (Hcreate :
    match isDragging st, currentDragRect st, currentStoreId st with
    | true, Some r, Some sid =>
        match getCurrentStore st with
        | None => endDrag st (aisles st) None
        | Some currentStore =>
            let MIN_SIZE : Q := 1%Q in
            if Qltb (rect_width r) MIN_SIZE || Qltb (rect_length r) MIN_SIZE then
              endDrag st (aisles st) None
            else if outOfBounds r currentStore then
              endDrag st (aisles st) None
            else
              let currentAisles := getCurrentAisles st in
              if existsb (rectOverlapsAisle r) currentAisles then
                endDrag st (aisles st) None
              else
                match db with
                | Some aisleId =>
                    endDrag st
                      (aisles st ++ [newAisleOf sid aisleId (length currentAisles) r])
                      None
                | None => endDrag st (aisles st) None
                end
        end
    | _, _, _ => endDrag st (aisles st) (currentDragRect st)
    end
    = match
        match isDragging st, currentDragRect st, currentStoreId st with
        | true, Some r, Some sid =>
            match getCurrentStore st with
            | None => inl (endDrag st (aisles st) None)
            | Some currentStore =>
                let MIN_SIZE : Q := 1%Q in
                if Qltb (rect_width r) MIN_SIZE || Qltb (rect_length r) MIN_SIZE then
                  inl (endDrag st (aisles st) None)
                else if outOfBounds r currentStore then
                  inl (endDrag st (aisles st) None)
                else
                  let currentAisles := getCurrentAisles st in
                  if existsb (rectOverlapsAisle r) currentAisles then
                    inl (endDrag st (aisles st) None)
                  else inr (AwaitCreate sid (length currentAisles) r)
            end
        | _, _, _ => inl (endDrag st (aisles st) (currentDragRect st))
        end
      with
      | inl st' => st'
      | inr wait => mouseUpResumed db wait st
      end).
  { destruct (isDragging st); [|done].
    destruct (currentDragRect st) as [r|]; [|done].
    destruct (currentStoreId st) as [sid|]; [|done].
    destruct (getCurrentStore st) as [store|]; [|done].
    cbv zeta. destruct (_ || _); [done|].
    destruct (outOfBounds r store); [done|].
    destruct (existsb _ _); [done|]. done. }
  destruct (isResizing st); [|exact Hcreate].
  destruct (currentDragRect st) as [r|]; [|exact Hcreate].
  destruct (resizeAisleId st) as [rid|]; [|exact Hcreate].
  destruct (currentStoreId st) as [sid|]; [|exact Hcreate].
  destruct (getCurrentStore st) as [store|]; [|done].
  cbv zeta. destruct (_ && negb _); done.
Qed.

(** A call that does not commit leaves the aisles as they are. *)
Lemma mouseUpCalled_done st st' :
  mouseUpCalled st = inl st' ->
  stores st' = stores st /\ currentStoreId st' = currentStoreId st /\
  aisles st' = aisles st.
Proof.
  set (same := fun st' : EditorState =>
                 stores st' = stores st /\ currentStoreId st' = currentStoreId st /\
                 aisles st' = aisles st).
  assert (Hd : forall rect, same (endDrag st (aisles st) rect)) by done.
  assert (Hr : same (endResize st (aisles st))) by done.
  change (mouseUpCalled st = inl st' -> same st'). clearbody same.
  unfold mouseUpCalled.
  assert (Hcreate :
    match isDragging st, currentDragRect st, currentStoreId st with
    | true, Some r, Some sid =>
        match getCurrentStore st with
        | None => inl (endDrag st (aisles st) None)
        | Some currentStore =>
            let MIN_SIZE : Q := 1%Q in
            if Qltb (rect_width r) MIN_SIZE || Qltb (rect_length r) MIN_SIZE then
              inl (endDrag st (aisles st) None)
            else if outOfBounds r currentStore then
              inl (endDrag st (aisles st) None)
            else
              let currentAisles := getCurrentAisles st in
              if existsb (rectOverlapsAisle r) currentAisles then
                inl (endDrag st (aisles st) None)
              else inr (AwaitCreate sid (length currentAisles) r)
        end
    | _, _, _ => inl (endDrag st (aisles st) (currentDragRect st))
    end = inl st' -> same st').
  { destruct (isDragging st); [|by intros [= <-]].
    destruct (currentDragRect st) as [r|]; [|by intros [= <-]].
    destruct (currentStoreId st) as [sid|]; [|by intros [= <-]].
    destruct (getCurrentStore st) as [store|]; [|by intros [= <-]].
    cbv zeta. destruct (_ || _); [by intros [= <-]|].
    destruct (outOfBounds r store); [by intros [= <-]|].
    destruct (existsb _ _); [by intros [= <-]|done]. }
  destruct (isResizing st); [|exact Hcreate].
  destruct (currentDragRect st) as [r|]; [|exact Hcreate].
  destruct (resizeAisleId st) as [rid|]; [|exact Hcreate].
  destruct (currentStoreId st) as [sid|]; [|exact Hcreate].
  destruct (getCurrentStore st) as [store|]; [|by intros [= <-]].
  cbv zeta. destruct (_ && negb _); [done | by intros [= <-]].
Qed.

(** What a call that commits has checked. *)
Lemma mouseUpCalled_update st rid r :
  mouseUpCalled st = inr (AwaitUpdate rid r) ->
  exists sid store,
    currentStoreId st = Some sid /\ getCurrentStore st = Some store /\
    (0 <= rect_x r)%Q /\ (0 <= rect_z r)%Q /\
    (rect_x r + rect_width r <= store_width store)%Q /\
    (rect_z r + rect_length r <= store_depth store)%Q /\
    (1 <= rect_width r)%Q /\ (1 <= rect_length r)%Q /\
    existsb (fun aisle => if String.eqb (aisle_id aisle) rid then false
                          else rectOverlapsAisle r aisle) (getCurrentAisles st) = false.
Proof.
  unfold mouseUpCalled.
  assert (Hcreate :
    match isDragging st, currentDragRect st, currentStoreId st with
    | true, Some r, Some sid =>
        match getCurrentStore st with
        | None => inl (endDrag st (aisles st) None)
        | Some currentStore =>
            let MIN_SIZE : Q := 1%Q in
            if Qltb (rect_width r) MIN_SIZE || Qltb (rect_length r) MIN_SIZE then
              inl (endDrag st (aisles st) None)
            else if outOfBounds r currentStore then
              inl (endDrag st (aisles st) None)
            else
              let currentAisles := getCurrentAisles st in
              if existsb (rectOverlapsAisle r) currentAisles then
                inl (endDrag st (aisles st) None)
              else inr (AwaitCreate sid (length currentAisles) r)
        end
    | _, _, _ => inl (endDrag st (aisles st) (currentDragRect st))
    end <> inr (AwaitUpdate rid r)).
  { destruct (isDragging st); [|done].
    destruct (currentDragRect st) as [r0|]; [|done].
    destruct (currentStoreId st) as [sid|]; [|done].
    destruct (getCurrentStore st) as [store|]; [|done].
    cbv zeta. destruct (_ || _); [done|].
    destruct (outOfBounds r0 store); [done|].
    destruct (existsb _ _); done. }
  destruct (isResizing st); [|done].
  destruct (currentDragRect st) as [r0|]; [|done].
  destruct (resizeAisleId st) as [rid0|]; [|done].
  destruct (currentStoreId st) as [sid|]; [|done].
  destruct (getCurrentStore st) as [store|]; [|done].
  cbv zeta. destruct (_ && negb _) eqn:Hvalid; [|done].
  intros [= -> ->]. exists sid, store.
  apply andb_true_iff in Hvalid as [Hvalid Hfree].
  apply negb_true_iff in Hfree.
  repeat (apply andb_true_iff in Hvalid as [Hvalid ?]).
  repeat match goal with H : Qle_bool _ _ = true |- _ => apply Qle_bool_iff in H end.
  tauto.
Qed.

Lemma mouseUpCalled_create st sid n r :
  mouseUpCalled st = inr (AwaitCreate sid n r) ->
  exists store,
    currentStoreId st = Some sid /\ getCurrentStore st = Some store /\
    Qltb (rect_width r) 1 || Qltb (rect_length r) 1 = false /\
    outOfBounds r store = false /\
    existsb (rectOverlapsAisle r) (getCurrentAisles st) = false.
Proof.
  unfold mouseUpCalled.
  assert (Hcreate :
    match isDragging st, currentDragRect st, currentStoreId st with
    | true, Some r, Some sid =>
        match getCurrentStore st with
        | None => inl (endDrag st (aisles st) None)
        | Some currentStore =>
            let MIN_SIZE : Q := 1%Q in
            if Qltb (rect_width r) MIN_SIZE || Qltb (rect_length r) MIN_SIZE then
              inl (endDrag st (aisles st) None)
            else if outOfBounds r currentStore then
              inl (endDrag st (aisles st) None)
            else
              let currentAisles := getCurrentAisles st in
              if existsb (rectOverlapsAisle r) currentAisles then
                inl (endDrag st (aisles st) None)
              else inr (AwaitCreate sid (length currentAisles) r)
        end
    | _, _, _ => inl (endDrag st (aisles st) (currentDragRect st))
    end = inr (AwaitCreate sid n r) ->
    exists store,
      currentStoreId st = Some sid /\ getCurrentStore st = Some store /\
      Qltb (rect_width r) 1 || Qltb (rect_length r) 1 = false /\
      outOfBounds r store = false /\
      existsb (rectOverlapsAisle r) (getCurrentAisles st) = false).
  { destruct (isDragging st); [|done].
    destruct (currentDragRect st) as [r0|]; [|done].
    destruct (currentStoreId st) as [sid0|]; [|done].
    destruct (getCurrentStore st) as [store|]; [|done].
    cbv zeta. destruct (_ || _) eqn:Hmin; [done|].
    destruct (outOfBounds r0 store) eqn:Hoob; [done|].
    destruct (existsb _ _) eqn:Hfree; [done|].
    intros [= -> _ ->]. by exists store. }
  destruct (isResizing st); [|exact Hcreate].
  destruct (currentDragRect st) as [r0|]; [|exact Hcreate].
  destruct (resizeAisleId st) as [rid0|]; [|exact Hcreate].
  destruct (currentStoreId st) as [sid0|]; [|exact Hcreate].
  destruct (getCurrentStore st) as [store|]; [|done].
  cbv zeta. destruct (_ && negb _); done.
Qed.

(** X11.  A release of the mouse commits a sound floor plan.  Let the aisles
    have distinct ids and those of the current store lie in the store,
    measure at least 1 m each way and not overlap each other when
    [handleMouseUp] is called.  A call that commits nothing leaves them so.
    A call that commits leaves them so once the database has answered,
    whatever the answer, provided the aisles, the stores and the current
    store are then still those the call has read, that is, no other commit
    has fallen in between. *)
Theorem release_commits_sound_floor_plan db st :
  NoDup (aisle_id <$> aisles st) ->
  layoutOK st ->
  (forall st', mouseUpCalled st = inl st' -> layoutOK st') /\
  (forall wait st',
     mouseUpCalled st = inr wait ->
     stores st' = stores st -> currentStoreId st' = currentStoreId st ->
     aisles st' = aisles st ->
     layoutOK (mouseUpResumed db wait st')).
Proof.
  intros Hnd Hok. split.
  - intros st' Hcall. destruct (mouseUpCalled_done st st' Hcall) as (Hs & Hc & Ha).
    by apply (layoutOK_same_aisles st).
  - intros wait st' Hcall Hs Hc Ha.
    assert (Hok' : layoutOK st') by (by apply (layoutOK_same_aisles st)).
    assert (Hcur : getCurrentAisles st' = getCurrentAisles st).
    { unfold getCurrentAisles. by rewrite Hc, Ha. }
    assert (Hst : getCurrentStore st' = getCurrentStore st).
    { unfold getCurrentStore. by rewrite Hc, Hs. }
    destruct wait as [rid r|sid n r]; cbn [mouseUpResumed].
    + destruct (mouseUpCalled_update st rid r Hcall)
        as (sid & store & Hsid & Hstore & Hx & Hz & Hr & Hb & Hw & Hl & Hfree).
      destruct db as [x|]; [|by apply (layoutOK_same_aisles st')].
      apply (layoutOK_resized st' r rid sid store); try done; by congruence.
    + destruct (mouseUpCalled_create st sid n r Hcall)
        as (store & Hsid & Hstore & Hmin & Hoob & Hfree).
      destruct db as [id|]; [|by apply (layoutOK_same_aisles st')].
      apply (layoutOK_created st' r sid id store); try done; by congruence.
Qed.

(** What the editor holds in the middle of the drag. *)
Lemma midDrag_facts :
  getCurrentStore Demo.midDrag = Some Scenario.shop /\
  getCurrentAisles Demo.midDrag = [Scenario.firstAisle] /\
  aisles Demo.midDrag = [Scenario.firstAisle] /\
  currentStoreId Demo.midDrag = Some "s1" /\
  currentDragRect Demo.midDrag = Some (mkRect 10 0 10 10).
Proof. repeat split; vm_compute; reflexivity. Qed.

(** One aisle of 10 m by 10 m in a store of 20 m by 20 m. *)
Lemma midDrag_layoutOK : layoutOK Demo.midDrag.
Proof.
  destruct midDrag_facts as (Hstore & Hcur & _).
  intros store Hs. rewrite Hstore in Hs. injection Hs as <-. rewrite Hcur. split.
  - intros a Ha. apply list_elem_of_singleton in Ha as ->.
    unfold aisleInStore. repeat split; vm_compute; discriminate.
  - intros i j a b Ha Hb Hij.
    apply list_lookup_singleton_Some in Ha as [-> _].
    apply list_lookup_singleton_Some in Hb as [-> _]. done.
Qed.

(** Witness of X11: the drag of [midDrag] is committed after the pointer has
    moved once more. *)
Lemma release_commits_sound_floor_plan_witness :
  layoutOK (mouseUpResumed (Some "a2") (AwaitCreate "s1" 1 (mkRect 10 0 10 10))
              (handleMouseMove 210 100 210 100 Demo.midDrag)).
Proof.
  destruct (release_commits_sound_floor_plan (Some "a2") Demo.midDrag) as [_ Hcommit].
  - destruct midDrag_facts as (_ & _ & -> & _). apply NoDup_singleton.
  - exact midDrag_layoutOK.
  - apply Hcommit; vm_compute; reflexivity.
Defined.

(** The button released and the pointer then leaving the canvas call the
    handler twice on the same state; both calls find the plan free, and their
    resumptions add the same rectangle twice. *)
Lemma double_release_adds_overlapping_aisles :
  exists wait,
    mouseUpCalled Demo.midDrag = inr wait /\
    ~ layoutOK (mouseUpResumed (Some "a3") wait
                  (mouseUpResumed (Some "a2") wait Demo.midDrag)).
Proof.
  eexists. split; [vm_compute; reflexivity|].
  intros Hok. destruct (Hok Scenario.shop) as [_ Hpair]; [vm_compute; reflexivity|].
  match type of Hpair with
  | forall i j a b, ?l !! i = _ -> _ =>
      destruct (l !! 1%nat) as [a|] eqn:Ha; [|vm_compute in Ha; discriminate];
      destruct (l !! 2%nat) as [b|] eqn:Hb; [|vm_compute in Hb; discriminate];
      specialize (Hpair 1%nat 2%nat a b Ha Hb ltac:(lia));
      vm_compute in Ha; injection Ha as <-;
      vm_compute in Hb; injection Hb as <-
  end.
  vm_compute in Hpair. discriminate.
Qed.


(** X12.  What the preview shows is what the release does: on a preview
    drawn red the release leaves the aisles as they are; on a preview drawn
    green, once the database has answered, a resize stores the preview in the
    resized aisle and a create drag appends one aisle. *)
Theorem preview_colour_predicts_commit st r sid store :
  currentDragRect st = Some r ->
  currentStoreId st = Some sid ->
  getCurrentStore st = Some store ->
  (previewInvalid st store r = true ->
   forall db, aisles (handleMouseUp db st) = aisles st) /\
  (previewInvalid st store r = false ->
   forall id,
     aisles (handleMouseUp (Some id) st) =
       match isResizing st, resizeAisleId st with
       | true, Some rid => List.map (updateAisleRect rid r) (aisles st)
       | _, _ =>
           if isDragging st
           then aisles st ++ [newAisleOf sid id (length (getCurrentAisles st)) r]
           else aisles st
       end).
Proof.
  intros Hrect Hsid Hstore.
  assert (Hvalid :
    (Qle_bool 0 (rect_x r) && Qle_bool 0 (rect_z r) &&
     Qle_bool (rect_x r + rect_width r) (store_width store) &&
     Qle_bool (rect_z r + rect_length r) (store_depth store) &&
     Qle_bool 1 (rect_width r) && Qle_bool 1 (rect_length r)) =
    negb (outOfBounds r store || (Qltb (rect_width r) 1 || Qltb (rect_length r) 1))).
  { unfold outOfBounds.
    assert (Hneg : forall a b, Qle_bool a b = negb (Qltb b a)).
    { intros a b. destruct (Qltb b a) eqn:H.
      - apply Qltb_true in H. by apply Qle_bool_false.
      - apply Qltb_false_iff in H. by apply Qle_bool_iff. }
    rewrite !Hneg.
    by destruct (Qltb (rect_x r) 0), (Qltb (rect_z r) 0),
         (Qltb (store_width store) _), (Qltb (store_depth store) _),
         (Qltb (rect_width r) 1), (Qltb (rect_length r) 1). }
  unfold previewInvalid, handleMouseUp. rewrite Hrect, Hsid, Hstore. cbv zeta.
  fold (outOfBounds r store). rewrite Hvalid.
  destruct (isResizing st); [destruct (resizeAisleId st) as [rid|]|]; cbn [andb].
  - destruct (outOfBounds r store), (Qltb (rect_width r) 1 || Qltb (rect_length r) 1),
      (existsb _ _); cbn; split; try done; by intros _ [|].
  - assert (Hsame : forall l, existsb (fun aisle : Aisle => rectOverlapsAisle r aisle) l
                              = existsb (rectOverlapsAisle r) l) by done.
    rewrite Hsame.
    destruct (isDragging st); cbn [endDrag aisles]; [|split; try done; by intros _ [|]].
    destruct (Qltb (rect_width r) 1 || Qltb (rect_length r) 1), (outOfBounds r store),
      (existsb _ _); cbn; split; try done; by intros _ [|].
  - assert (Hsame : forall l, existsb (fun aisle : Aisle => rectOverlapsAisle r aisle) l
                              = existsb (rectOverlapsAisle r) l) by done.
    rewrite Hsame.
    destruct (isDragging st); cbn [endDrag aisles]; [|split; try done; by intros _ [|]].
    destruct (Qltb (rect_width r) 1 || Qltb (rect_length r) 1), (outOfBounds r store),
      (existsb _ _); cbn; split; try done; by intros _ [|].
Qed.

(** Witness of X12. *)
Lemma preview_colour_predicts_commit_witness :
  previewInvalid Demo.midDrag Scenario.shop (mkRect 10 0 10 10) = false /\
  aisles (handleMouseUp (Some "a2") Demo.midDrag) =
    aisles Demo.midDrag ++
    [newAisleOf "s1" "a2" (length (getCurrentAisles Demo.midDrag)) (mkRect 10 0 10 10)].
Proof.
  destruct midDrag_facts as (Hstore & _ & _ & Hsid & Hrect).
  assert (Hvalid : previewInvalid Demo.midDrag Scenario.shop (mkRect 10 0 10 10) = false)
    by (vm_compute; reflexivity).
  split; [exact Hvalid|].
  exact (proj2 (preview_colour_predicts_commit Demo.midDrag (mkRect 10 0 10 10) "s1"
                  Scenario.shop Hrect Hsid Hstore) Hvalid "a2").
Defined.






(** X13.  A resize preview is at least 1 m wide and long and moves only the
    dragged edges: dragging a west handle keeps the east edge, any other
    handle keeps the west edge, and likewise north and south; with a handle
    that has no part on an axis, the extent along it, if at least 1 m, is the
    original one. *)
Theorem resize_moves_only_dragged_edges h orig currentX currentZ :
  let r := resizeRect h orig currentX currentZ in
  (1 <= rect_width r)%Q /\ (1 <= rect_length r)%Q /\
  (hasW h = true ->
     (rect_x r + rect_width r == aisle_x orig + aisle_width orig)%Q) /\
  (hasW h = false -> rect_x r = aisle_x orig) /\
  (hasN h = true ->
     (rect_z r + rect_length r == aisle_z orig + aisle_length orig)%Q) /\
  (hasN h = false -> rect_z r = aisle_z orig) /\
  (hasW h = false -> hasE h = false -> (1 <= aisle_width orig)%Q ->
     (rect_width r == aisle_width orig)%Q) /\
  (hasN h = false -> hasS h = false -> (1 <= aisle_length orig)%Q ->
     (rect_length r == aisle_length orig)%Q).
Proof.
  cbv zeta. unfold resizeRect. cbn [rect_x rect_z rect_width rect_length].
  split; [apply Q.le_max_l|]. split; [apply Q.le_max_l|].
  destruct h; cbn [hasN hasS hasW hasE]; repeat split; intros; try done;
    minmax_cases; lra.
Qed.

(** Witness of X13. *)
Lemma resize_moves_only_dragged_edges_witness :
  (rect_x (resizeRect H_w Scenario.firstAisle 3 0)
   + rect_width (resizeRect H_w Scenario.firstAisle 3 0)
   == aisle_x Scenario.firstAisle + aisle_width Scenario.firstAisle)%Q.
Proof.
  destruct (resize_moves_only_dragged_edges H_w Scenario.firstAisle 3 0)
    as (_ & _ & Hright & _).
  apply Hright. reflexivity.
Defined.


(** X14.  With positive scale and zoom [toWorld] and the drawing transform
    of [renderCanvas] are inverse to each other: a world point is found at the
    pixel it is drawn at, and back. *)
Theorem screen_world_round_trip st :
  (0 < scale st)%Q -> (0 < zoom st)%Q ->
  (forall x z,
     ((toWorld st (toScreen st x z).1 (toScreen st x z).2).1 == x)%Q /\
     ((toWorld st (toScreen st x z).1 (toScreen st x z).2).2 == z)%Q) /\
  (forall px py,
     ((toScreen st (toWorld st px py).1 (toWorld st px py).2).1 == px)%Q /\
     ((toScreen st (toWorld st px py).1 (toWorld st px py).2).2 == py)%Q).
Proof.
  intros Hs Hz. unfold toWorld, toScreen. cbn [fst snd].
  split; intros a b; split; field; lra.
Qed.

(** Witness of X14. *)
Lemma screen_world_round_trip_witness :
  ((toWorld (Scenario.idleEditor [])
      (toScreen (Scenario.idleEditor []) 3 4).1
      (toScreen (Scenario.idleEditor []) 3 4).2).1 == 3)%Q.
Proof.
  destruct (screen_world_round_trip (Scenario.idleEditor [])
              ltac:(reflexivity) ltac:(reflexivity)) as [Hworld _].
  exact (proj1 (Hworld 3%Q 4%Q)).
Defined.


(** X15.  The wheel zooms about the pointer: the world point under the
    pointer is the same before and after [handleWheelCapture]. *)
Theorem wheel_zoom_keeps_point_under_pointer deltaY mouseX mouseY st :
  (0 < scale st)%Q -> (0 < zoom st)%Q ->
  ((toWorld (handleWheelCapture deltaY mouseX mouseY st) mouseX mouseY).1
     == (toWorld st mouseX mouseY).1)%Q /\
  ((toWorld (handleWheelCapture deltaY mouseX mouseY st) mouseX mouseY).2
     == (toWorld st mouseX mouseY).2)%Q.
Proof.
  intros Hs Hz. unfold toWorld, handleWheelCapture, setView.
  cbn [fst snd zoom panOffset scale].
  set (nz := Qmax (1 # 10) (Qmin 5 (zoom st * (if Qltb 0 deltaY then 9 # 10 else 11 # 10)))).
  assert (Hnz : (1 # 10 <= nz)%Q) by apply Q.le_max_l.
  split; field; repeat split; lra.
Qed.

(** Witness of X15. *)
Lemma wheel_zoom_keeps_point_under_pointer_witness :
  ((toWorld (handleWheelCapture (- (1)) 50 60 (Scenario.idleEditor [])) 50 60).1
   == (toWorld (Scenario.idleEditor []) 50 60).1)%Q.
Proof.
  exact (proj1 (wheel_zoom_keeps_point_under_pointer (- (1)) 50 60 (Scenario.idleEditor [])
                  ltac:(reflexivity) ltac:(reflexivity))).
Defined.


Lemma zoom_setView st z p : zoom (setView st z p) = z.
Proof. done. Qed.

Lemma getCurrentStore_viewStep st ev :
  getCurrentStore (viewStep st ev) = getCurrentStore st.
Proof.
  destruct ev; try done.
  unfold viewStep, handleFitToScreen. by destruct (getCurrentStore st) eqn:H.
Qed.

Lemma viewStep_zoom_range st ev :
  (forall store, getCurrentStore st = Some store ->
     (0 < store_width store <= 895)%Q /\ (0 < store_depth store <= 895)%Q) ->
  (1 # 10 <= zoom st <= 5)%Q ->
  (1 # 10 <= zoom (viewStep st ev) <= 5)%Q.
Proof.
  intros Hstore Hz. destruct ev as [dy mx my| | | |]; cbn [viewStep].
  - unfold handleWheelCapture. rewrite zoom_setView. minmax_cases; lra.
  - unfold handleZoomIn. rewrite zoom_setView. minmax_cases; lra.
  - unfold handleZoomOut. rewrite zoom_setView.
    assert (Hdiv : (zoom st / (12 # 10) == zoom st * (10 # 12))%Q) by (field; lra).
    minmax_cases; lra.
  - unfold handleFitToScreen. destruct (getCurrentStore st) as [store|]; [|cbn; lra].
    rewrite zoom_setView. cbv zeta.
    destruct (Hstore store eq_refl) as [Hw Hd].
    unfold CONFIG_canvasWidth, CONFIG_canvasHeight, CONFIG_scale.
    assert (Hx : (1 # 10 <= 2000 * (9 # 10) / ((store_width store + 5) * 20))%Q).
    { apply Qle_shift_div_l; lra. }
    assert (Hy : (1 # 10 <= 2000 * (9 # 10) / ((store_depth store + 5) * 20))%Q).
    { apply Qle_shift_div_l; lra. }
    minmax_cases; lra.
  - cbn. lra.
Qed.

(** X16.  In a store of positive extent, at most 895 m each way, the wheel
    and the view buttons (zoom in, zoom out, fit, reset), in any order, keep
    the zoom between 0.1 and 5. *)
Theorem zoom_stays_in_range st evs :
  (forall store, getCurrentStore st = Some store ->
     (0 < store_width store <= 895)%Q /\ (0 < store_depth store <= 895)%Q) ->
  (1 # 10 <= zoom st <= 5)%Q ->
  (1 # 10 <= zoom (foldl viewStep st evs) <= 5)%Q.
Proof.
  revert st. induction evs as [|ev evs IH]; intros st Hstore Hz; [done|].
  cbn [foldl]. apply IH.
  - intros store. rewrite getCurrentStore_viewStep. apply Hstore.
  - by apply viewStep_zoom_range.
Qed.

(** The store of the idle editor measures 20 m by 20 m. *)
Lemma idle_store_small store :
  getCurrentStore (Scenario.idleEditor []) = Some store ->
  (0 < store_width store <= 895)%Q /\ (0 < store_depth store <= 895)%Q.
Proof.
  intros Hs. vm_compute in Hs. injection Hs as <-.
  repeat split; vm_compute; (reflexivity || discriminate).
Qed.

(** Witness of X16. *)
Lemma zoom_stays_in_range_witness :
  (1 # 10 <= zoom (foldl viewStep (Scenario.idleEditor [])
                     [Wheel (- (1)) 50 60; ZoomIn; FitToScreen; ZoomOut]) <= 5)%Q.
Proof.
  apply zoom_stays_in_range.
  - exact idle_store_small.
  - split; vm_compute; discriminate.
Defined.


(** X17.  For a store of positive width and depth, after fit-to-screen the
    zoom is positive and at most 2, the store with its 5 m margin spans at
    most 90% of the configured canvas each way at the configured scale, one of
    these three bounds is attained, and the pan is reset. *)
Theorem fit_to_screen_shows_whole_store st store :
  getCurrentStore st = Some store ->
  (0 < store_width store)%Q -> (0 < store_depth store)%Q ->
  let st' := handleFitToScreen st in
  (0 < zoom st' <= 2)%Q /\
  ((store_width store + 5) * CONFIG_scale * zoom st' <= CONFIG_canvasWidth * (9 # 10))%Q /\
  ((store_depth store + 5) * CONFIG_scale * zoom st' <= CONFIG_canvasHeight * (9 # 10))%Q /\
  ((zoom st' == 2)%Q \/
   ((store_width store + 5) * CONFIG_scale * zoom st' == CONFIG_canvasWidth * (9 # 10))%Q \/
   ((store_depth store + 5) * CONFIG_scale * zoom st' == CONFIG_canvasHeight * (9 # 10))%Q) /\
  panOffset st' = (0%Q, 0%Q).
Proof.
  intros Hstore Hw Hd. cbv zeta. unfold handleFitToScreen. rewrite Hstore. cbv zeta.
  rewrite zoom_setView. cbn [setView panOffset].
  unfold CONFIG_canvasWidth, CONFIG_canvasHeight, CONFIG_scale.
  set (zx := (2000 * (9 # 10) / ((store_width store + 5) * 20))%Q).
  set (zy := (2000 * (9 # 10) / ((store_depth store + 5) * 20))%Q).
  assert (Hzx : ((store_width store + 5) * 20 * zx == 2000 * (9 # 10))%Q).
  { unfold zx. field. lra. }
  assert (Hzy : ((store_depth store + 5) * 20 * zy == 2000 * (9 # 10))%Q).
  { unfold zy. field. lra. }
  assert (Hpx : (0 < zx)%Q). { unfold zx. apply Qlt_shift_div_l; lra. }
  assert (Hpy : (0 < zy)%Q). { unfold zy. apply Qlt_shift_div_l; lra. }
  assert (Hmul : forall a z1 z2 : Q, (0 < a)%Q -> (z1 <= z2)%Q -> (a * z1 <= a * z2)%Q).
  { intros a z1 z2 Ha Hle. rewrite (Qmult_comm a z1), (Qmult_comm a z2).
    apply Qmult_le_compat_r; lra. }
  set (m := Qmin (Qmin zx zy) 2).
  assert (Hm : (m <= zx /\ m <= zy /\ m <= 2 /\ 0 < m /\ (m == 2 \/ m == zx \/ m == zy))%Q).
  { unfold m. minmax_cases; repeat split; try lra; auto. }
  destruct Hm as (Hmx & Hmy & Hm2 & Hm0 & Hcase).
  split; [lra|]. split; [|split; [|split; [|done]]].
  - rewrite <- Hzx. apply Hmul; lra.
  - rewrite <- Hzy. apply Hmul; lra.
  - destruct Hcase as [H|[H|H]]; [by left | right; left | right; right].
    + by rewrite H.
    + by rewrite H.
Qed.

(** Witness of X17. *)
Lemma fit_to_screen_shows_whole_store_witness :
  (0 < zoom (handleFitToScreen (Scenario.idleEditor [])) <= 2)%Q.
Proof.
  exact (proj1 (fit_to_screen_shows_whole_store (Scenario.idleEditor []) Scenario.shop
                  ltac:(vm_compute; reflexivity) ltac:(reflexivity) ltac:(reflexivity))).
Defined.


Lemma near_true (a b t : Q) :
  (- t < a - b)%Q -> (a - b < t)%Q -> Qltb (Qabs (a - b)) t = true.
Proof. intros H1 H2. apply Qltb_true. by apply Qabs_Qlt_condition. Qed.



(** X18.  On an aisle at least two detection radii (1.6 m over the zoom)
    wide and long, a click on the pixel at which [drawAisle] centres a resize
    handle is recognised by [getResizeHandle] as that very handle. *)
Theorem click_on_drawn_handle_grabs_it st a h :
  (0 < scale st)%Q -> (0 < zoom st)%Q ->
  (2 * ((8 # 10) / zoom st) <= aisle_width a)%Q ->
  (2 * ((8 # 10) / zoom st) <= aisle_length a)%Q ->
  getResizeHandle st
    (toWorld st (handlePixel st a h).1 (handlePixel st a h).2) a = Some h.
Proof.
  intros Hs Hz Hw Hl.
  assert (Hhs : (0 < (8 # 10) / zoom st)%Q) by (apply Qlt_shift_div_l; lra).
  unfold getResizeHandle. cbv zeta.
  set (hs := ((8 # 10) / zoom st)%Q) in *.
  set (wx := (toWorld st (handlePixel st a h).1 (handlePixel st a h).2).1).
  set (wz := (toWorld st (handlePixel st a h).1 (handlePixel st a h).2).2).
  cbn [fst snd].
  assert (Hpos :
    (wx == aisle_x a + (if hasW h then 0 else if hasE h then 1 else 1 # 2) * aisle_width a)%Q /\
    (wz == aisle_z a + (if hasN h then 0 else if hasS h then 1 else 1 # 2) * aisle_length a)%Q).
  { unfold wx, wz, toWorld, handlePixel.
    destruct h; cbn [fst snd hasN hasS hasW hasE]; split; field; lra. }
  clearbody wx wz. destruct Hpos as [Hx Hy].
  destruct h; cbn [hasN hasS hasW hasE] in Hx, Hy;
    repeat first
      [ rewrite near_true by lra
      | rewrite Qltb_abs_false by (left; lra)
      | rewrite Qltb_abs_false by (right; lra)
      | rewrite (proj2 (Qltb_true _ _)) by lra
      | rewrite (proj2 (Qltb_false_iff _ _)) by lra ];
    reflexivity.
Qed.

(** Witness of X18. *)
Lemma click_on_drawn_handle_grabs_it_witness :
  getResizeHandle (Scenario.idleEditor [Scenario.firstAisle])
    (toWorld (Scenario.idleEditor [Scenario.firstAisle])
       (handlePixel (Scenario.idleEditor [Scenario.firstAisle]) Scenario.firstAisle H_n).1
       (handlePixel (Scenario.idleEditor [Scenario.firstAisle]) Scenario.firstAisle H_n).2)
    Scenario.firstAisle = Some H_n.
Proof.
  apply click_on_drawn_handle_grabs_it.
  - reflexivity.
  - reflexivity.
  - vm_compute. discriminate.
  - vm_compute. discriminate.
Defined.


(** X19.  A plain left press on an aisle of the current store, ids being
    non-empty as the database gives them, never starts drawing a new aisle
    and changes no aisle: it starts a resize of the selected aisle or selects
    an aisle under the pointer. *)
Theorem press_on_aisle_never_starts_drawing button shiftKey clientX clientY px py st a :
  Z.eqb button 1 || (Z.eqb button 0 && shiftKey) || panToolActive st = false ->
  is_Some (getCurrentStore st) ->
  isDragging st = false ->
  (forall b, b ∈ getCurrentAisles st -> aisle_id b <> "") ->
  a ∈ getCurrentAisles st ->
  onAisle (toWorld st px py) a ->
  let st' := handleMouseDown button shiftKey clientX clientY px py st in
  isDragging st' = false /\
  aisles st' = aisles st /\
  (isResizing st' = true \/
   exists b, b ∈ getCurrentAisles st /\ onAisle (toWorld st px py) b /\
             selectedAisleId st' = Some (aisle_id b)).
Proof.
  intros Hpan [store Hstore] Hdrag _ Ha Hon. cbv zeta. unfold handleMouseDown.
  rewrite Hpan, Hstore. cbv zeta.
  destruct (match selectedAisleId st with Some _ => _ | None => _ end)
    as [[[h sel] selectedAisle]|].
  { cbn. auto. }
  set (hit := fun a0 : Aisle => _ && _ && _ && _).
  assert (Hhit : forall b, hit b = true <-> onAisle (toWorld st px py) b).
  { intros b. unfold hit, onAisle. rewrite !andb_true_iff, !Qle_bool_iff. tauto. }
  destruct (List.find hit (rev (getCurrentAisles st))) as [b|] eqn:Hfind.
  - apply find_some in Hfind as [Hin Hb]. cbn. split; [done|]. split; [done|].
    right. exists b. split; [|split; [by apply Hhit | done]].
    apply list_elem_of_In. by apply in_rev.
  - exfalso. assert (Hnone : hit a = false).
    { apply (find_none _ _ Hfind a). apply in_rev. rewrite rev_involutive.
      by apply list_elem_of_In. }
    apply Hhit in Hon. congruence.
Qed.

(** Witness of X19. *)
Lemma press_on_aisle_never_starts_drawing_witness :
  isDragging (handleMouseDown 0 false 150 150 150 150
                (Scenario.idleEditor [Scenario.firstAisle])) = false.
Proof.
  refine (proj1 (press_on_aisle_never_starts_drawing 0 false 150 150 150 150
                   (Scenario.idleEditor [Scenario.firstAisle]) Scenario.firstAisle
                   _ _ _ _ _ _)).
  - reflexivity.
  - exists Scenario.shop. vm_compute. reflexivity.
  - reflexivity.
  - intros b Hb. apply list_elem_of_singleton in Hb as ->. discriminate.
  - apply list_elem_of_singleton. reflexivity.
  - unfold onAisle. repeat split; vm_compute; discriminate.
Defined.


(** ** Shelf count and capacity *)





Lemma Qfloor_bounds (x : Q) :
  (inject_Z (Qfloor x) <= x)%Q /\ (x < inject_Z (Qfloor x) + 1)%Q.
Proof.
  split; [apply Qfloor_le|]. pose proof (Qlt_floor x) as H.
  rewrite inject_Z_plus in H. exact H.
Qed.

Lemma Qfloor_lt_Z (x : Q) (n : Z) : (x < inject_Z n)%Q -> Qfloor x < n.
Proof.
  intros H. destruct (Qfloor_bounds x) as [Hlo _]. rewrite Zlt_Qlt. lra.
Qed.

Lemma Qfloor_ge_Z (x : Q) (n : Z) : (inject_Z n <= x)%Q -> n <= Qfloor x.
Proof.
  intros H. apply Qfloor_resp_le in H. by rewrite Qfloor_Z in H.
Qed.

Lemma usable_over_spacing (u : Q) : (u / (35 # 100) == u * (100 # 35))%Q.
Proof. field. Qed.

(** The quotient [usableHeight / SHELF_SPACING] of [calculateShelfCount]. *)
Lemma shelf_quotient_below_6 (h : Q) :
  Qfloor ((Qmin h (21 # 10) - (15 # 100)) / (35 # 100)) < 6.
Proof.
  apply Qfloor_lt_Z. change (inject_Z 6) with 6%Q. rewrite usable_over_spacing.
  destruct (Qmin_spec h (21 # 10)) as [[? ->]|[? ->]]; lra.
Qed.

Lemma calculateShelfCount_mono (h h' : Q) :
  (h <= h')%Q -> calculateShelfCount h <= calculateShelfCount h'.
Proof.
  intros Hh. unfold calculateShelfCount. cbv zeta.
  assert (Hmono : Qfloor ((Qmin h (21 # 10) - (15 # 100)) / (35 # 100))
                  <= Qfloor ((Qmin h' (21 # 10) - (15 # 100)) / (35 # 100))).
  { apply Qfloor_resp_le. rewrite !usable_over_spacing.
    destruct (Qmin_spec h (21 # 10)) as [[? ->]|[? ->]];
      destruct (Qmin_spec h' (21 # 10)) as [[? ->]|[? ->]]; lra. }
  lia.
Qed.

Lemma calculateShelfCount_fit (h : Q) :
  (1 # 2 <= h)%Q ->
  ((15 # 100) + inject_Z (calculateShelfCount h) * (35 # 100) <= Qmin h (21 # 10))%Q.
Proof.
  intros Hh. unfold calculateShelfCount. cbv zeta.
  set (u := (Qmin h (21 # 10) - (15 # 100))%Q).
  pose proof (usable_over_spacing u) as Hdiv.
  destruct (Qfloor_bounds (u / (35 # 100))) as [Hlo _].
  pose proof (shelf_quotient_below_6 h) as Hle5. fold u in Hle5.
  assert (H1 : 1 <= Qfloor (u / (35 # 100))).
  { apply Qfloor_ge_Z. change (inject_Z 1) with 1%Q. rewrite Hdiv.
    unfold u. destruct (Qmin_spec h (21 # 10)) as [[? ->]|[? ->]]; lra. }
  replace (Z.max 1 (Z.min 10 (Qfloor (u / (35 # 100))))) with (Qfloor (u / (35 # 100))) by lia.
  unfold u in Hlo, Hdiv |- *. lra.
Qed.

(** X20.  The computed shelf count lies between 1 and 5 and grows with the
    height; from a height of 0.5 m on, that many shelves at 0.35 m spacing,
    above the 0.15 m clearance, fit under the accessible height min(h, 2.1),
    and one more never does. *)
Theorem shelf_count_fits_accessible_height (h : Q) :
  1 <= calculateShelfCount h <= 5 /\
  (forall h', (h <= h')%Q -> calculateShelfCount h <= calculateShelfCount h') /\
  ((1 # 2 <= h)%Q ->
   ((15 # 100) + inject_Z (calculateShelfCount h) * (35 # 100) <= Qmin h (21 # 10))%Q) /\
  (Qmin h (21 # 10) < (15 # 100) + inject_Z (calculateShelfCount h + 1) * (35 # 100))%Q.
Proof.
  pose proof (shelf_quotient_below_6 h) as Hle5.
  split; [unfold calculateShelfCount; cbv zeta; lia|].
  split; [intros h'; apply calculateShelfCount_mono|].
  split; [apply calculateShelfCount_fit|].
  unfold calculateShelfCount. cbv zeta.
  set (u := (Qmin h (21 # 10) - (15 # 100))%Q) in *.
  pose proof (usable_over_spacing u) as Hdiv.
  destruct (Qfloor_bounds (u / (35 # 100))) as [_ Hhi].
  destruct (Z_lt_le_dec (Qfloor (u / (35 # 100))) 1) as [Hsmall|Hbig].
  - replace (Z.max 1 (Z.min 10 (Qfloor (u / (35 # 100))))) with 1 by lia.
    assert (u / (35 # 100) < 1)%Q.
    { assert (Qfloor (u / (35 # 100)) + 1 <= 1) as H by lia.
      rewrite Zle_Qle, inject_Z_plus in H. change (inject_Z 1) with 1%Q in H. lra. }
    change (inject_Z (1 + 1)) with 2%Q. unfold u in *. lra.
  - replace (Z.max 1 (Z.min 10 (Qfloor (u / (35 # 100))))) with (Qfloor (u / (35 # 100))) by lia.
    rewrite inject_Z_plus. change (inject_Z 1) with 1%Q. unfold u in *. lra.
Qed.

(** Witness of X20. *)
Lemma shelf_count_fits_accessible_height_witness :
  ((15 # 100) + inject_Z (calculateShelfCount 3) * (35 # 100) <= Qmin 3 (21 # 10))%Q.
Proof.
  destruct (shelf_count_fits_accessible_height 3) as (_ & _ & Hfit & _).
  apply Hfit. vm_compute. discriminate.
Defined.


(** X21.  A height typed into the panel, if positive, is stored as at least
    1 m and not below the typed value, together with a shelf count between 2
    and 5 that fits under it; id, position, footprint and products of the
    aisle are untouched. *)
Theorem height_edit_sets_fitting_shelf_count (val : Q) (a : Aisle) :
  (0 < val)%Q ->
  let a' := onHeightChange val a in
  (1 <= aisle_height a')%Q /\ (val <= aisle_height a')%Q /\
  2 <= shelves a' <= 5 /\
  ((15 # 100) + inject_Z (shelves a') * (35 # 100) <= aisle_height a')%Q /\
  (aisle_id a', aisle_x a', aisle_z a', aisle_width a', aisle_length a', products a')
    = (aisle_id a, aisle_x a, aisle_z a, aisle_width a, aisle_length a, products a).
Proof.
  intros Hval. cbv zeta. unfold onHeightChange.
  destruct (Qlt_le_dec 0 val) as [_|Hle]; [|lra].
  cbn [handleUpdate aisle_height shelves aisle_id aisle_x aisle_z aisle_width
       aisle_length products].
  set (hh := Qmax 1 val).
  assert (Hh : (1 <= hh)%Q /\ (val <= hh)%Q).
  { unfold hh. destruct (Qmax_spec 1 val) as [[? ->]|[? ->]]; lra. }
  pose proof (shelf_quotient_below_6 hh) as Hle5.
  assert (Hr : calculateShelfCount hh <= 5) by (unfold calculateShelfCount; cbv zeta; lia).
  pose proof (calculateShelfCount_mono 1 hh (proj1 Hh)) as Hmono.
  assert (H2 : calculateShelfCount 1 = 2) by (vm_compute; reflexivity).
  split; [tauto|]. split; [tauto|]. split; [lia|]. split; [|done].
  assert (Hf := calculateShelfCount_fit hh ltac:(lra)).
  destruct (Qmin_spec hh (21 # 10)) as [[? Hm]|[? Hm]]; rewrite Hm in Hf; lra.
Qed.

(** Witness of X21. *)
Lemma height_edit_sets_fitting_shelf_count_witness :
  2 <= shelves (onHeightChange 3 Scenario.firstAisle) <= 5.
Proof.
  destruct (height_edit_sets_fitting_shelf_count 3 Scenario.firstAisle ltac:(reflexivity))
    as (_ & _ & Hrange & _).
  exact Hrange.
Defined.


Lemma Qfloor_nonneg (x : Q) : (0 <= x)%Q -> 0 <= Qfloor x.
Proof. intros H. apply (Qfloor_ge_Z x 0). exact H. Qed.

Lemma over_size (x : Q) : (x / (15 # 100) == x * (100 # 15))%Q.
Proof. field. Qed.

Lemma countDeep_nonneg (aisleWidth : Q) :
  0 <= Qfloor (Qmax (1 # 10) ((aisleWidth - (15 # 10)) / 2) / PRODUCT_SIZE_depth).
Proof.
  apply Qfloor_nonneg. unfold PRODUCT_SIZE_depth. rewrite over_size.
  destruct (Qmax_spec (1 # 10) ((aisleWidth - (15 # 10)) / 2)) as [[? E]|[? E]];
    rewrite E; lra.
Qed.

Lemma countDeep_mono (w1 w2 : Q) :
  (w1 <= w2)%Q ->
  Qfloor (Qmax (1 # 10) ((w1 - (15 # 10)) / 2) / PRODUCT_SIZE_depth) <=
  Qfloor (Qmax (1 # 10) ((w2 - (15 # 10)) / 2) / PRODUCT_SIZE_depth).
Proof.
  intros Hw. apply Qfloor_resp_le. unfold PRODUCT_SIZE_depth. rewrite !over_size.
  assert (H1 : ((w1 - (15 # 10)) / 2 == (w1 - (15 # 10)) * (1 # 2))%Q) by field.
  assert (H2 : ((w2 - (15 # 10)) / 2 == (w2 - (15 # 10)) * (1 # 2))%Q) by field.
  destruct (Qmax_spec (1 # 10) ((w1 - (15 # 10)) / 2)) as [[? E1]|[? E1]];
    destruct (Qmax_spec (1 # 10) ((w2 - (15 # 10)) / 2)) as [[? E2]|[? E2]];
    rewrite E1, E2; lra.
Qed.

(** X22.  The estimated shelf capacity is at least 1, is 1 or even, is 1
    for every aisle narrower than 1.8 m, and grows with width and length;
    when above 1 it claims no more product footprints than the shelf area on
    both sides of the walkway holds; and the total over a non-negative number
    of shelves is at least that number. *)
Theorem shelf_capacity_estimate (aisleWidth aisleLength : Q) :
  1 <= calculateShelfCapacity aisleWidth aisleLength /\
  (calculateShelfCapacity aisleWidth aisleLength = 1 \/
   Z.even (calculateShelfCapacity aisleWidth aisleLength) = true) /\
  ((aisleWidth < 18 # 10)%Q -> calculateShelfCapacity aisleWidth aisleLength = 1) /\
  (1 < calculateShelfCapacity aisleWidth aisleLength ->
   (inject_Z (calculateShelfCapacity aisleWidth aisleLength)
      * (PRODUCT_SIZE_width * PRODUCT_SIZE_depth)
    <= aisleLength * (aisleWidth - (15 # 10)))%Q) /\
  (forall w' l', (aisleWidth <= w')%Q -> (aisleLength <= l')%Q ->
     calculateShelfCapacity aisleWidth aisleLength <= calculateShelfCapacity w' l') /\
  (forall shelfCount,
     0 <= shelfCount ->
     shelfCount <= calculateTotalAisleCapacity aisleWidth aisleLength shelfCount).
Proof.
  unfold calculateTotalAisleCapacity, calculateShelfCapacity. cbv zeta.
  set (cl := Qfloor (aisleLength / PRODUCT_SIZE_width)).
  set (cd := Qfloor (Qmax (1 # 10) ((aisleWidth - (15 # 10)) / 2) / PRODUCT_SIZE_depth)).
  pose proof (countDeep_nonneg aisleWidth) as Hcd. fold cd in Hcd.
  split; [lia|]. split; [|split; [|split; [|split]]].
  - destruct (Z_lt_le_dec (cl * cd * 2) 1) as [H|H]; [left; lia | right].
    replace (Z.max 1 (cl * cd * 2)) with (cl * cd * 2) by lia.
    rewrite Z.even_mul. cbn. apply orb_true_r.
  - intros Hw. assert (cd = 0) as ->; [|lia].
    assert (cd < 1); [|lia]. unfold cd. apply Qfloor_lt_Z.
    change (inject_Z 1) with 1%Q. unfold PRODUCT_SIZE_depth. rewrite over_size.
    assert (H1 : ((aisleWidth - (15 # 10)) / 2 == (aisleWidth - (15 # 10)) * (1 # 2))%Q) by field.
    destruct (Qmax_spec (1 # 10) ((aisleWidth - (15 # 10)) / 2)) as [[? E]|[? E]];
      rewrite E; lra.
  - intros Hbig. replace (Z.max 1 (cl * cd * 2)) with (cl * cd * 2) by lia.
    assert (Hcl1 : 1 <= cl) by nia. assert (Hcd1 : 1 <= cd) by nia.
    destruct (Qfloor_bounds (aisleLength / PRODUCT_SIZE_width)) as [Hl _]. fold cl in Hl.
    destruct (Qfloor_bounds (Qmax (1 # 10) ((aisleWidth - (15 # 10)) / 2) / PRODUCT_SIZE_depth))
      as [Hd _]. fold cd in Hd.
    unfold PRODUCT_SIZE_width, PRODUCT_SIZE_depth in *. rewrite over_size in Hl, Hd.
    assert (H1 : ((aisleWidth - (15 # 10)) / 2 == (aisleWidth - (15 # 10)) * (1 # 2))%Q) by field.
    assert (Hcd1' : (1 <= inject_Z cd)%Q).
    { change 1%Q with (inject_Z 1). by rewrite <- Zle_Qle. }
    assert (Hcl1' : (1 <= inject_Z cl)%Q).
    { change 1%Q with (inject_Z 1). by rewrite <- Zle_Qle. }
    assert (Hdepth : (inject_Z cd <= (aisleWidth - (15 # 10)) * (1 # 2) * (100 # 15))%Q).
    { destruct (Qmax_spec (1 # 10) ((aisleWidth - (15 # 10)) / 2)) as [[? E]|[? E]];
        rewrite E in Hd; lra. }
    rewrite !inject_Z_mult. change (inject_Z 2) with 2%Q.
    set (L := (aisleLength * (100 # 15))%Q) in *.
    set (D := ((aisleWidth - (15 # 10)) * (1 # 2) * (100 # 15))%Q) in *.
    assert (Hprod : (inject_Z cl * inject_Z cd <= L * D)%Q).
    { apply Qle_trans with (inject_Z cl * D)%Q.
      - rewrite (Qmult_comm (inject_Z cl) (inject_Z cd)), (Qmult_comm (inject_Z cl) D).
        apply Qmult_le_compat_r; lra.
      - apply Qmult_le_compat_r; lra. }
    assert (Harea : (aisleLength * (aisleWidth - (15 # 10))
                     == L * D * 2 * ((15 # 100) * (15 # 100)))%Q).
    { unfold L, D. ring. }
    rewrite Harea.
    assert (inject_Z cl * inject_Z cd * 2 * ((15 # 100) * (15 # 100))
            == (inject_Z cl * inject_Z cd) * (2 * ((15 # 100) * (15 # 100))))%Q as -> by ring.
    assert (L * D * 2 * ((15 # 100) * (15 # 100))
            == (L * D) * (2 * ((15 # 100) * (15 # 100))))%Q as -> by ring.
    apply Qmult_le_compat_r; [done | lra].
  - intros w' l' Hw Hl.
    set (cl' := Qfloor (l' / PRODUCT_SIZE_width)).
    set (cd' := Qfloor (Qmax (1 # 10) ((w' - (15 # 10)) / 2) / PRODUCT_SIZE_depth)).
    pose proof (countDeep_nonneg w') as Hcd'. fold cd' in Hcd'.
    pose proof (countDeep_mono _ _ Hw) as Hdm. fold cd cd' in Hdm.
    assert (Hlm : cl <= cl').
    { apply Qfloor_resp_le. unfold PRODUCT_SIZE_width. rewrite !over_size. lra. }
    destruct (Z_lt_le_dec cl 1) as [Hneg|Hpos]; [nia|]. nia.
  - intros n Hn. nia.
Qed.

(** Witness of X22. *)
Lemma shelf_capacity_estimate_witness :
  calculateShelfCapacity (17 # 10) 100 = 1.
Proof.
  destruct (shelf_capacity_estimate (17 # 10) 100) as (_ & _ & Hnarrow & _).
  apply Hnarrow. reflexivity.
Defined.


(** ** The shared store *)

Lemma findIndex_Some {A} (p : A -> bool) (l : list A) i :
  UseStore.findIndex p l = Some i ->
  exists x, l !! i = Some x /\ p x = true /\
            forall j y, (j < i)%nat -> l !! j = Some y -> p y = false.
Proof.
  revert i. induction l as [|x l IH]; intros i; cbn [UseStore.findIndex]; [done|].
  destruct (p x) eqn:Hx.
  - intros [= <-]. exists x. split; [done|]. split; [done|]. intros j y Hj. lia.
  - destruct (UseStore.findIndex p l) as [i'|]; [|done]. intros [= <-].
    destruct (IH i' eq_refl) as (x' & Hlk & Hp & Hfirst).
    exists x'. split; [done|]. split; [done|].
    intros [|j] y Hj Hy; cbn in Hy; [congruence|]. apply (Hfirst j); [lia | done].
Qed.

Lemma findIndex_None {A} (p : A -> bool) (l : list A) :
  UseStore.findIndex p l = None -> forall x, x ∈ l -> p x = false.
Proof.
  induction l as [|x l IH]; cbn [UseStore.findIndex]; intros H y Hy;
    [by apply elem_of_nil in Hy|].
  destruct (p x) eqn:Hx; [done|]. destruct (UseStore.findIndex p l); [done|].
  apply elem_of_cons in Hy as [->|Hy]; [done | by apply IH].
Qed.

Lemma find_first {A} (p : A -> bool) (l : list A) i x :
  l !! i = Some x -> p x = true ->
  (forall j y, (j < i)%nat -> l !! j = Some y -> p y = false) ->
  List.find p l = Some x.
Proof.
  revert i. induction l as [|z l IH]; intros i Hlk Hp Hfirst; [done|].
  cbn [List.find]. destruct i as [|i]; cbn in Hlk.
  - injection Hlk as ->. by rewrite Hp.
  - rewrite (Hfirst O z) by (lia || done). apply (IH i); [done | done |].
    intros j y Hj Hy. apply (Hfirst (S j)); [lia | done].
Qed.

Lemma find_app_none {A} (p : A -> bool) (l : list A) x :
  (forall y, y ∈ l -> p y = false) -> p x = true -> List.find p (l ++ [x]) = Some x.
Proof.
  induction l as [|z l IH]; intros Hnone Hp; cbn [app List.find]; [by rewrite Hp|].
  rewrite (Hnone z) by left. apply IH; [|done]. intros y Hy. apply Hnone. by right.
Qed.

(** X23.  After [setCurrentStore(store)] the current store read back is
    [store] and no aisle is selected; the aisles are untouched, stores with
    another id are kept, nothing but [store] is new, and the number of stores
    grows by one exactly when the id was not there. *)
Theorem set_current_store_round_trip store state :
  let state' := UseStore.setCurrentStore store state in
  UseStore.getCurrentStore state' = Some store /\
  UseStore.selectedAisleId state' = None /\
  UseStore.aisles state' = UseStore.aisles state /\
  (forall s, s ∈ UseStore.stores state -> store_id s <> store_id store ->
             s ∈ UseStore.stores state') /\
  (forall s, s ∈ UseStore.stores state' -> s = store \/ s ∈ UseStore.stores state) /\
  (length (UseStore.stores state') =
     if bool_decide (store_id store ∈ store_id <$> UseStore.stores state)
     then length (UseStore.stores state)
     else S (length (UseStore.stores state))).
Proof.
  cbv zeta. unfold UseStore.setCurrentStore, UseStore.getCurrentStore.
  destruct (UseStore.findIndex _ (UseStore.stores state)) as [i|] eqn:Hidx.
  - apply findIndex_Some in Hidx as (x & Hlk & Hx & Hfirst).
    apply String.eqb_eq in Hx.
    cbn [UseStore.stores UseStore.currentStoreId UseStore.selectedAisleId UseStore.aisles
         UseStore.isId].
    assert (Hi : (i < length (UseStore.stores state))%nat)
      by (apply lookup_lt_is_Some; eauto).
    split; [|split; [done|split; [done|split; [|split]]]].
    + apply (find_first _ _ i).
      * by apply list_lookup_insert_eq.
      * apply String.eqb_refl.
      * intros j y Hj Hy. rewrite list_lookup_insert_ne in Hy by lia.
        apply (Hfirst j y Hj Hy).
    + intros s Hs Hne. apply list_elem_of_lookup in Hs as [j Hj].
      apply list_elem_of_lookup. exists j.
      rewrite list_lookup_insert_ne; [done|]. intros ->. congruence.
    + intros s Hs. apply list_elem_of_lookup in Hs as [j Hj].
      destruct (decide (i = j)) as [->|Hne].
      * rewrite list_lookup_insert_eq in Hj by done. left. congruence.
      * rewrite list_lookup_insert_ne in Hj by done. right.
        apply list_elem_of_lookup. eauto.
    + rewrite length_insert. rewrite bool_decide_eq_true_2; [done|].
      apply list_elem_of_fmap. exists x. split; [done|]. apply list_elem_of_lookup. eauto.
  - pose proof (findIndex_None _ _ Hidx) as Hnone.
    cbn [UseStore.stores UseStore.currentStoreId UseStore.selectedAisleId UseStore.aisles
         UseStore.isId].
    split; [|split; [done|split; [done|split; [|split]]]].
    + apply find_app_none; [|apply String.eqb_refl]. exact Hnone.
    + intros s Hs _. apply elem_of_app. by left.
    + intros s Hs. apply elem_of_app in Hs as [Hs|Hs]; [by right|].
      apply list_elem_of_singleton in Hs. by left.
    + rewrite length_app. cbn [length]. rewrite bool_decide_eq_false_2; [lia|].
      intros Hin. apply list_elem_of_fmap in Hin as (s & Hid & Hs).
      specialize (Hnone s Hs). cbv beta in Hnone. rewrite <- Hid, String.eqb_refl in Hnone.
      done.
Qed.

(** Witness of X23. *)
Lemma set_current_store_round_trip_witness :
  UseStore.getCurrentStore (UseStore.setCurrentStore Demo.widerShop Demo.planner)
    = Some Demo.widerShop /\
  length (UseStore.stores (UseStore.setCurrentStore Demo.widerShop Demo.planner)) = 1%nat.
Proof.
  destruct (set_current_store_round_trip Demo.widerShop Demo.planner)
    as (Hget & _ & _ & _ & _ & Hlen).
  split; [exact Hget|]. rewrite Hlen. vm_compute. reflexivity.
Defined.


Lemma filter_filter_implied {A} (p q : A -> bool) (l : list A) :
  (forall x, p x = true -> q x = true) ->
  List.filter p (List.filter q l) = List.filter p l.
Proof.
  intros Himp. induction l as [|x l IH]; [done|]. cbn [List.filter].
  destruct (q x) eqn:Hq; cbn [List.filter].
  - by rewrite IH.
  - destruct (p x) eqn:Hp; [|done]. apply Himp in Hp. congruence.
Qed.

Lemma filter_none {A} (p : A -> bool) (l : list A) :
  (forall x, x ∈ l -> p x = false) -> List.filter p l = [].
Proof.
  induction l as [|x l IH]; intros H; [done|]. cbn [List.filter].
  rewrite (H x) by left. apply IH. intros y Hy. apply H. by right.
Qed.

Lemma find_filter_keep {A} (p q : A -> bool) (l : list A) :
  (forall x, p x = true -> q x = true) ->
  List.find p (List.filter q l) = List.find p l.
Proof.
  intros Himp. induction l as [|x l IH]; [done|]. cbn [List.filter List.find].
  destruct (q x) eqn:Hq; cbn [List.find].
  - by rewrite IH.
  - destruct (p x) eqn:Hp; [|done]. apply Himp in Hp. congruence.
Qed.

(** X24.  [deleteStore] removes exactly the stores of that id and exactly
    the aisles of that store; deleting the current store leaves no current
    store and no current aisles, deleting another one changes neither. *)
Theorem delete_store_cascades storeId state :
  let state' := UseStore.deleteStore storeId state in
  (forall s, s ∈ UseStore.stores state' <->
             s ∈ UseStore.stores state /\ store_id s <> storeId) /\
  (forall a, a ∈ UseStore.aisles state' <->
             a ∈ UseStore.aisles state /\ aisle_storeId a <> storeId) /\
  (UseStore.currentStoreId state = Some storeId ->
     UseStore.getCurrentStore state' = None /\ UseStore.getCurrentAisles state' = []) /\
  (UseStore.currentStoreId state <> Some storeId ->
     UseStore.getCurrentStore state' = UseStore.getCurrentStore state /\
     UseStore.getCurrentAisles state' = UseStore.getCurrentAisles state).
Proof.
  cbv zeta. split; [|split; [|split]].
  - intros s. cbn [UseStore.deleteStore UseStore.stores].
    rewrite list_elem_of_In, filter_In, <- list_elem_of_In, negb_true_iff.
    by rewrite String.eqb_neq.
  - intros a. cbn [UseStore.deleteStore UseStore.aisles].
    rewrite list_elem_of_In, filter_In, <- list_elem_of_In, negb_true_iff.
    by rewrite String.eqb_neq.
  - intros Hcur. unfold UseStore.getCurrentStore, UseStore.getCurrentAisles.
    cbn [UseStore.deleteStore UseStore.stores UseStore.aisles UseStore.currentStoreId].
    rewrite Hcur. cbn [UseStore.isId]. rewrite String.eqb_refl. split.
    + clear. induction (List.filter _ _); [done|]. cbn. done.
    + apply filter_none. done.
  - intros Hcur. unfold UseStore.getCurrentStore, UseStore.getCurrentAisles.
    cbn [UseStore.deleteStore UseStore.stores UseStore.aisles UseStore.currentStoreId].
    assert (Hkeep : (if UseStore.isId storeId (UseStore.currentStoreId state)
                     then None else UseStore.currentStoreId state)
                    = UseStore.currentStoreId state).
    { destruct (UseStore.currentStoreId state) as [c|]; cbn [UseStore.isId]; [|done].
      destruct (String.eqb_spec storeId c) as [->|]; [done | done]. }
    rewrite Hkeep.
    assert (Hother : forall id, UseStore.isId id (UseStore.currentStoreId state) = true ->
                                negb (String.eqb id storeId) = true).
    { intros id. destruct (UseStore.currentStoreId state) as [c|]; cbn [UseStore.isId]; [|done].
      intros Hid. apply String.eqb_eq in Hid as ->. apply negb_true_iff, String.eqb_neq.
      congruence. }
    split.
    + apply find_filter_keep. intros s. apply Hother.
    + apply filter_filter_implied. intros a. apply Hother.
Qed.

(** Witness of X24. *)
Lemma delete_store_cascades_witness :
  UseStore.getCurrentStore (UseStore.deleteStore "s1" Demo.planner) = None /\
  UseStore.getCurrentAisles (UseStore.deleteStore "s1" Demo.planner) = [].
Proof.
  destruct (delete_store_cascades "s1" Demo.planner) as (_ & _ & Hcur & _).
  apply Hcur. reflexivity.
Defined.


(** X25.  [deleteAisle] removes exactly the aisles of that id; it deselects
    the deleted aisle and leaves any other selection, and the aisle it
    designates, as they were. *)
Theorem delete_aisle_deselects_only_it aisleId state :
  let state' := UseStore.deleteAisle aisleId state in
  (forall a, a ∈ UseStore.aisles state' <->
             a ∈ UseStore.aisles state /\ aisle_id a <> aisleId) /\
  (UseStore.selectedAisleId state = Some aisleId ->
     UseStore.getSelectedAisle state' = None) /\
  (UseStore.selectedAisleId state <> Some aisleId ->
     UseStore.getSelectedAisle state' = UseStore.getSelectedAisle state).
Proof.
  cbv zeta. split; [|split].
  - intros a. cbn [UseStore.deleteAisle UseStore.aisles].
    rewrite list_elem_of_In, filter_In, <- list_elem_of_In, negb_true_iff.
    by rewrite String.eqb_neq.
  - intros Hsel. unfold UseStore.getSelectedAisle.
    cbn [UseStore.deleteAisle UseStore.aisles UseStore.selectedAisleId].
    rewrite Hsel. cbn [UseStore.isId]. rewrite String.eqb_refl.
    clear. induction (List.filter _ _); [done|]. cbn. done.
  - intros Hsel. unfold UseStore.getSelectedAisle.
    cbn [UseStore.deleteAisle UseStore.aisles UseStore.selectedAisleId].
    assert (Hkeep : (if UseStore.isId aisleId (UseStore.selectedAisleId state)
                     then None else UseStore.selectedAisleId state)
                    = UseStore.selectedAisleId state).
    { destruct (UseStore.selectedAisleId state) as [c|]; cbn [UseStore.isId]; [|done].
      destruct (String.eqb_spec aisleId c) as [->|]; [done | done]. }
    rewrite Hkeep. apply find_filter_keep. intros a.
    destruct (UseStore.selectedAisleId state) as [c|]; cbn [UseStore.isId]; [|done].
    intros Hid. apply String.eqb_eq in Hid as ->. apply negb_true_iff, String.eqb_neq.
    congruence.
Qed.

(** Witness of X25. *)
Lemma delete_aisle_deselects_only_it_witness :
  UseStore.getSelectedAisle (UseStore.deleteAisle "a1" Demo.planner) = None.
Proof.
  destruct (delete_aisle_deselects_only_it "a1" Demo.planner) as (_ & Hsel & _).
  apply Hsel. reflexivity.
Defined.


Lemma find_map_commute {A} (p : A -> bool) (f : A -> A) (l : list A) :
  (forall x, p (f x) = p x) ->
  List.find p (List.map f l) = f <$> List.find p l.
Proof.
  intros Hp. induction l as [|x l IH]; [done|]. cbn [List.map List.find].
  rewrite Hp. by destruct (p x).
Qed.

Lemma filter_map_commute {A} (p : A -> bool) (f : A -> A) (l : list A) :
  (forall x, p (f x) = p x) ->
  List.filter p (List.map f l) = List.map f (List.filter p l).
Proof.
  intros Hp. induction l as [|x l IH]; [done|]. cbn [List.map List.filter].
  rewrite Hp. destruct (p x); cbn [List.map]; by rewrite IH.
Qed.

(** X26.  An update that changes neither id nor store of an aisle keeps the
    ids of all aisles in place, and the current aisles and the selected aisle
    read back are the former ones, updated where the id matches; the current
    store is untouched. *)
Theorem update_aisle_touches_only_that_aisle aisleId updates state :
  (forall a, aisle_id (updates a) = aisle_id a /\
             aisle_storeId (updates a) = aisle_storeId a) ->
  let state' := UseStore.updateAisle aisleId updates state in
  let upd := fun a => if String.eqb (aisle_id a) aisleId then updates a else a in
  aisle_id <$> UseStore.aisles state' = aisle_id <$> UseStore.aisles state /\
  UseStore.getCurrentAisles state' = List.map upd (UseStore.getCurrentAisles state) /\
  UseStore.getSelectedAisle state' = upd <$> UseStore.getSelectedAisle state /\
  UseStore.getCurrentStore state' = UseStore.getCurrentStore state /\
  (forall i a, UseStore.aisles state !! i = Some a ->
     UseStore.aisles state' !! i =
       Some (if String.eqb (aisle_id a) aisleId then updates a else a)).
Proof.
  intros Hkeep. cbv zeta.
  assert (Hid : forall a, aisle_id (if String.eqb (aisle_id a) aisleId then updates a else a)
                          = aisle_id a).
  { intros a. destruct (String.eqb _ _); [apply Hkeep | done]. }
  assert (Hsid : forall a,
            aisle_storeId (if String.eqb (aisle_id a) aisleId then updates a else a)
            = aisle_storeId a).
  { intros a. destruct (String.eqb _ _); [apply Hkeep | done]. }
  unfold UseStore.getCurrentAisles, UseStore.getSelectedAisle, UseStore.getCurrentStore.
  cbn [UseStore.updateAisle UseStore.aisles UseStore.stores UseStore.currentStoreId
       UseStore.selectedAisleId].
  split; [|split; [|split; [|split]]].
  - change (List.map ?f ?l) with (f <$> l). rewrite <- list_fmap_compose.
    apply list_fmap_ext. intros i a _. apply Hid.
  - apply filter_map_commute. intros a. by rewrite Hsid.
  - apply find_map_commute. intros a. by rewrite Hid.
  - done.
  - intros i a Hi. change (List.map ?f ?l) with (f <$> l).
    by rewrite list_lookup_fmap, Hi.
Qed.

(** Witness of X26. *)
Lemma update_aisle_touches_only_that_aisle_witness :
  aisle_id <$> UseStore.aisles
                 (UseStore.updateAisle "a1" (fun a => withProducts a []) Demo.planner)
  = aisle_id <$> UseStore.aisles Demo.planner.
Proof.
  refine (proj1 (update_aisle_touches_only_that_aisle "a1" (fun a => withProducts a [])
                   Demo.planner _)).
  intros a. split; reflexivity.
Defined.


(** ** Product manager *)

Lemma shelfCounts_step_lookup nShelves ps : forall (counts : list Z) l,
  1 <= l <= nShelves ->
  foldl (fun (counts : list Z) p =>
           if Z.ltb 0 (ap_shelfLevel p) && Z.leb (ap_shelfLevel p) nShelves
           then alter Z.succ (Z.to_nat (ap_shelfLevel p - 1)) counts
           else counts) counts ps !! Z.to_nat (l - 1)
  = (fun c => c + loadOf ps l) <$> counts !! Z.to_nat (l - 1).
Proof.
  induction ps as [|p ps IH]; intros counts l Hl; cbn [foldl].
  { unfold loadOf. cbn. destruct (counts !! _); cbn; [f_equal; lia | done]. }
  rewrite IH by done. unfold loadOf. cbn [List.filter].
  destruct (Z.eqb_spec (ap_shelfLevel p) l) as [->|Hne].
  - replace (0 <? l) with true by (symmetry; apply Z.ltb_lt; lia).
    replace (l <=? nShelves) with true by (symmetry; apply Z.leb_le; lia).
    cbn [andb]. rewrite list_lookup_alter, decide_True by done. cbn [length].
    destruct (counts !! _); cbn [fmap option_fmap option_map]; [f_equal; lia | done].
  - destruct (_ && _) eqn:Hguard; [|done].
    apply andb_true_iff in Hguard as [H0 H1]. apply Z.ltb_lt in H0. apply Z.leb_le in H1.
    rewrite list_lookup_alter_ne by lia. done.
Qed.

Lemma shelfCounts_step_length nShelves ps : forall counts : list Z,
  length (foldl (fun (counts : list Z) p =>
           if Z.ltb 0 (ap_shelfLevel p) && Z.leb (ap_shelfLevel p) nShelves
           then alter Z.succ (Z.to_nat (ap_shelfLevel p - 1)) counts
           else counts) counts ps) = length counts.
Proof.
  induction ps as [|p ps IH]; intros counts; cbn [foldl]; [done|].
  rewrite IH. destruct (_ && _); [apply length_alter | done].
Qed.

Lemma shelfCounts_length nShelves ps :
  length (shelfCounts nShelves ps) = Z.to_nat nShelves.
Proof. unfold shelfCounts. by rewrite shelfCounts_step_length, length_replicate. Qed.

Lemma shelfCounts_lookup nShelves ps l :
  1 <= l <= nShelves ->
  shelfCounts nShelves ps !! Z.to_nat (l - 1) = Some (loadOf ps l).
Proof.
  intros Hl. unfold shelfCounts. rewrite shelfCounts_step_lookup by done.
  rewrite lookup_replicate_2 by lia. done.
Qed.

Lemma foldl_min_spec rest : forall x,
  (forall y, y ∈ x :: rest -> foldl Z.min x rest <= y) /\ foldl Z.min x rest ∈ x :: rest.
Proof.
  induction rest as [|z rest IH]; intros x; cbn [foldl].
  - split; [|left]. intros y Hy. apply list_elem_of_singleton in Hy as ->. lia.
  - destruct (IH (Z.min x z)) as [Hle Hin]. split.
    + intros y Hy. apply elem_of_cons in Hy as [->|Hy].
      * specialize (Hle (Z.min x z) ltac:(left)). lia.
      * apply elem_of_cons in Hy as [->|Hy].
        -- specialize (Hle (Z.min x z) ltac:(left)). lia.
        -- apply Hle. by right.
    + apply elem_of_cons in Hin as [Heq|Hin].
      * rewrite Heq. destruct (Z.min_spec x z) as [[_ ->]|[_ ->]]; [left | right; left].
      * right. by right.
Qed.

Lemma indexOf_spec v arr :
  v ∈ arr ->
  0 <= indexOf v arr /\
  arr !! Z.to_nat (indexOf v arr) = Some v /\
  forall j, (j < Z.to_nat (indexOf v arr))%nat -> arr !! j <> Some v.
Proof.
  induction arr as [|x arr IH]; intros Hin; [by apply elem_of_nil in Hin|].
  cbn [indexOf]. destruct (Z.eqb_spec x v) as [->|Hne].
  - split; [lia|]. split; [done|]. intros j Hj. cbn in Hj. lia.
  - apply elem_of_cons in Hin as [->|Hin]; [done|].
    destruct (IH Hin) as (H0 & Hlk & Hfirst).
    destruct (Z.eqb_spec (indexOf v arr) (-1)) as [Hm|_]; [lia|].
    split; [lia|]. replace (Z.to_nat (indexOf v arr + 1)) with (S (Z.to_nat (indexOf v arr))) by lia.
    split; [done|]. intros [|j] Hj; cbn; [congruence|]. apply Hfirst. lia.
Qed.

(** The index [indexOf] returns is that of the first least count. *)
Lemma targetShelfOf_first_min nShelves products :
  1 <= nShelves ->
  let t := targetShelfOf nShelves products in
  1 <= t <= nShelves /\
  exists m,
    shelfCounts nShelves products !! Z.to_nat (t - 1) = Some m /\
    (forall c, c ∈ shelfCounts nShelves products -> m <= c) /\
    (forall j, (j < Z.to_nat (t - 1))%nat -> shelfCounts nShelves products !! j <> Some m).
Proof.
  intros Hn. cbv zeta. unfold targetShelfOf.
  pose proof (shelfCounts_length nShelves products) as Hlen.
  destruct (shelfCounts nShelves products) as [|x rest] eqn:Hcounts.
  { cbn in Hlen. lia. }
  cbn [minOf]. destruct (foldl_min_spec rest x) as [Hmin Hin].
  set (m := foldl Z.min x rest) in *.
  destruct (indexOf_spec m (x :: rest) Hin) as (H0 & Hlk & Hfirst).
  set (i := indexOf m (x :: rest)) in *.
  assert (Hi : (Z.to_nat i < Z.to_nat nShelves)%nat).
  { rewrite <- Hlen. apply lookup_lt_is_Some. eauto. }
  replace (i + 1 - 1) with i by lia.
  split; [lia|]. exists m. split; [done|]. split; [done|]. done.
Qed.

(** X27.  On an aisle with at least one shelf, confirming the picker
    appends one allocation of the chosen product and quantity, on a level of
    the rack that holds the fewest allocations, the lowest such level. *)
Theorem confirm_add_picks_lowest_least_loaded_shelf now sel qty aisle products :
  1 <= shelves aisle ->
  exists new,
    handleConfirmAdd now sel qty aisle products = products ++ [new] /\
    ap_productId new = inv_id sel /\ quantityBoxes new = qty /\
    1 <= ap_shelfLevel new <= shelves aisle /\
    forall l, 1 <= l <= shelves aisle ->
      loadOf products (ap_shelfLevel new) <= loadOf products l /\
      (loadOf products l = loadOf products (ap_shelfLevel new) -> ap_shelfLevel new <= l).
Proof.
  intros Hn. eexists. split; [reflexivity|]. cbn [ap_productId quantityBoxes ap_shelfLevel].
  split; [done|]. split; [done|].
  destruct (targetShelfOf_first_min (shelves aisle) products Hn)
    as (Ht & m & Hlk & Hmin & Hfirst).
  set (t := targetShelfOf (shelves aisle) products) in *.
  rewrite (shelfCounts_lookup _ _ t Ht) in Hlk. injection Hlk as Hload.
  split; [done|]. intros l Hl.
  pose proof (shelfCounts_lookup (shelves aisle) products l Hl) as Hll.
  rewrite Hload. split.
  - apply Hmin. apply list_elem_of_lookup. eauto.
  - intros Heq. destruct (Z_lt_le_dec l t) as [Hlt|]; [|done].
    exfalso. apply (Hfirst (Z.to_nat (l - 1))); [lia|]. by rewrite Hll, Heq.
Qed.

(** Witness of X27. *)
Lemma confirm_add_picks_lowest_least_loaded_shelf_witness :
  exists new,
    handleConfirmAdd 7 Scenario.carton 5 Demo.twoShelves (products Demo.twoShelves)
      = products Demo.twoShelves ++ [new] /\
    1 <= ap_shelfLevel new <= 2.
Proof.
  destruct (confirm_add_picks_lowest_least_loaded_shelf 7 Scenario.carton 5 Demo.twoShelves
              (products Demo.twoShelves)) as (new & Hadd & _ & _ & Hlevel & _).
  - vm_compute. discriminate.
  - exists new. split; [exact Hadd | exact Hlevel].
Defined.


Lemma loadOf_zero_not_in ps l :
  loadOf ps l = 0 -> l ∉ ap_shelfLevel <$> ps.
Proof.
  unfold loadOf. induction ps as [|p ps IH]; [intros _ H; by apply elem_of_nil in H|].
  cbn [List.filter]. destruct (Z.eqb_spec (ap_shelfLevel p) l) as [Heq|Hne].
  - cbn [length]. lia.
  - intros H0 Hin. cbn in Hin. apply elem_of_cons in Hin as [Hl|Hin]; [congruence|].
    by apply IH.
Qed.

Lemma loadOf_nonneg ps l : 0 <= loadOf ps l.
Proof. unfold loadOf. lia. Qed.

(** With fewer allocations than shelves some shelf is empty. *)
Lemma some_shelf_empty nShelves ps :
  (forall p, p ∈ ps -> 1 <= ap_shelfLevel p <= nShelves) ->
  Z.of_nat (length ps) < nShelves ->
  NoDup (ap_shelfLevel <$> ps) ->
  exists l, 1 <= l <= nShelves /\ loadOf ps l = 0.
Proof.
  intros Hin Hlen Hnd.
  assert (Hex : exists l, l ∈ seqZ 1 nShelves /\ l ∉ ap_shelfLevel <$> ps).
  { destruct (decide (Forall (fun l => l ∈ ap_shelfLevel <$> ps) (seqZ 1 nShelves)))
      as [Hall|Hnot].
    - exfalso.
      assert (Hsub : seqZ 1 nShelves ⊆ ap_shelfLevel <$> ps).
      { intros l Hl. rewrite Forall_forall in Hall. by apply Hall. }
      pose proof (submseteq_length _ _ (NoDup_submseteq _ _ (NoDup_seqZ 1 nShelves)
                    (fun x Hx => Hsub x Hx))) as Hle.
      rewrite length_seqZ, length_fmap in Hle. lia.
    - apply not_Forall_Exists in Hnot; [|intros l; apply _].
      apply Exists_exists in Hnot as (l & Hl & Hnl). eauto. }
  destruct Hex as (l & Hl & Hnl). apply elem_of_seqZ in Hl.
  exists l. split; [lia|].
  unfold loadOf. destruct (List.filter _ ps) as [|q rest] eqn:Hf; [done|].
  exfalso. apply Hnl.
  assert (Hq : In q (List.filter (fun p => ap_shelfLevel p =? l) ps)) by (rewrite Hf; left; done).
  apply filter_In in Hq as [Hq Hlq]. apply Z.eqb_eq in Hlq. rewrite <- Hlq.
  apply list_elem_of_fmap. exists q. split; [done | by apply list_elem_of_In].
Qed.

Lemma onePerShelf_add now sel qty aisle ps :
  onePerShelf (shelves aisle) ps ->
  Z.of_nat (length ps) < shelves aisle ->
  onePerShelf (shelves aisle) (handleConfirmAdd now sel qty aisle ps).
Proof.
  intros [Hin Hnd] Hlen.
  assert (Hn : 1 <= shelves aisle) by lia.
  destruct (targetShelfOf_first_min (shelves aisle) ps Hn) as (Ht & m & Hlk & Hmin & _).
  destruct (some_shelf_empty _ _ Hin Hlen Hnd) as (l & Hl & Hl0).
  rewrite (shelfCounts_lookup _ _ _ Ht) in Hlk. injection Hlk as Hload.
  assert (Hle : m <= loadOf ps l).
  { apply Hmin. apply list_elem_of_lookup. exists (Z.to_nat (l - 1)).
    by apply shelfCounts_lookup. }
  pose proof (loadOf_nonneg ps (targetShelfOf (shelves aisle) ps)).
  assert (H0 : loadOf ps (targetShelfOf (shelves aisle) ps) = 0) by lia.
  unfold handleConfirmAdd. split.
  - intros p Hp. apply elem_of_app in Hp as [Hp|Hp]; [by apply Hin|].
    by apply list_elem_of_singleton in Hp as ->.
  - rewrite fmap_app. apply NoDup_app. split; [done|]. split; [|apply NoDup_singleton].
    intros x Hx Hnew. cbn in Hnew. apply list_elem_of_singleton in Hnew as ->.
    by apply (loadOf_zero_not_in ps _ H0).
Qed.

Lemma onePerShelf_remove nShelves id ps :
  onePerShelf nShelves ps -> onePerShelf nShelves (handleRemoveProduct id ps).
Proof.
  intros [Hin Hnd]. unfold handleRemoveProduct. split.
  - intros p Hp. apply Hin. apply list_elem_of_In, filter_In in Hp as [Hp _].
    by apply list_elem_of_In.
  - induction ps as [|p ps IH]; [done|]. cbn [List.filter].
    cbn [fmap list_fmap] in Hnd. apply NoDup_cons in Hnd as [Hnin Hnd].
    assert (IH' : NoDup (ap_shelfLevel <$>
                   List.filter (fun p => negb (String.eqb (ap_id p) id)) ps)).
    { apply IH; [|done]. intros q Hq. apply Hin. by right. }
    destruct (negb _); [|done]. cbn [fmap list_fmap]. apply NoDup_cons. split; [|done].
    intros Hx. apply Hnin. apply list_elem_of_fmap in Hx as (q & Hq & Hqin).
    apply list_elem_of_fmap. exists q. split; [done|].
    apply list_elem_of_In, filter_In in Hqin as [Hqin _]. by apply list_elem_of_In.
Qed.



(** X28.  An aisle whose allocations sit on pairwise distinct levels of its
    rack, between 1 and its shelf count, packs without an exception whenever
    its stored length is a number, and the product manager keeps the
    allocations so: removing one does, and so does adding one while there are
    fewer allocations than shelves. *)
Theorem one_allocation_per_shelf_is_kept_and_packs aisle inventoryMap :
  onePerShelf (shelves aisle) (products aisle) ->
  (forall length, length <> NaN ->
     exists result,
       boxesByUnitAndLevelJs length (Some (shelves aisle)) aisle inventoryMap
       = Ok result) /\
  (forall id,
     onePerShelf (shelves aisle) (handleRemoveProduct id (products aisle))) /\
  (forall now sel qty,
     Z.of_nat (length (products aisle)) < shelves aisle ->
     onePerShelf (shelves aisle) (handleConfirmAdd now sel qty aisle (products aisle))).
Proof.
  intros Hone. split; [|split].
  - intros [q|] Hnum; [|done]. destruct Hone as [Hin Hnd].
    assert (Htarget : forall p, p ∈ products aisle -> targetOf p = ap_shelfLevel p).
    { intros p Hp. specialize (Hin p Hp). unfold targetOf, orZ.
      destruct (Z.eqb_spec (ap_shelfLevel p) 0); [lia | done]. }
    apply distinct_levels_pack.
    + intros p Hp _. rewrite Htarget by done. by apply Hin.
    + assert (Heq : targetOf <$> List.filter (stocked inventoryMap) (products aisle)
                    = ap_shelfLevel <$> List.filter (stocked inventoryMap) (products aisle)).
      { apply list_fmap_ext. intros i p Hp. apply Htarget.
        apply list_elem_of_lookup_2 in Hp.
        apply list_elem_of_In, filter_In in Hp as [Hp _]. by apply list_elem_of_In. }
      rewrite Heq. by apply NoDup_fmap_filter.
  - intros id. by apply onePerShelf_remove.
  - intros now sel qty Hlen. by apply onePerShelf_add.
Qed.

(** [twoShelves] has one allocation, on level 1 of 2. *)
Lemma twoShelves_onePerShelf :
  onePerShelf (shelves Demo.twoShelves) (products Demo.twoShelves).
Proof.
  split.
  - intros p Hp. apply list_elem_of_singleton in Hp as ->. vm_compute. split; discriminate.
  - vm_compute. apply NoDup_singleton.
Qed.

(** Witness of X28. *)
Lemma one_allocation_per_shelf_is_kept_and_packs_witness :
  (exists result,
     boxesByUnitAndLevelJs (Number 3) (Some 2) Demo.twoShelves
                           (inventoryMapOf Scenario.stock)
     = Ok result) /\
  onePerShelf (shelves Demo.twoShelves)
    (handleConfirmAdd 7 Scenario.carton 5 Demo.twoShelves (products Demo.twoShelves)).
Proof.
  destruct (one_allocation_per_shelf_is_kept_and_packs Demo.twoShelves
              (inventoryMapOf Scenario.stock) twoShelves_onePerShelf)
    as (Hpack & _ & Hadd).
  split; [apply (Hpack (Number 3)); discriminate|]. apply Hadd. vm_compute. reflexivity.
Defined.


Lemma allocated_in_acc pid ps : forall acc,
  foldl (fun allocated p =>
           if String.eqb (ap_productId p) pid
           then allocated + orZ (quantityBoxes p) 0 else allocated) acc ps
  = acc + foldl (fun allocated p =>
           if String.eqb (ap_productId p) pid
           then allocated + orZ (quantityBoxes p) 0 else allocated) 0 ps.
Proof.
  induction ps as [|p ps IH]; intros acc; cbn [foldl]; [lia|].
  destruct (String.eqb (ap_productId p) pid); [|apply IH].
  rewrite IH, (IH (0 + orZ (quantityBoxes p) 0)). lia.
Qed.

Lemma allocatedBoxes_acc pid aisles : forall acc,
  foldl (fun allocated a =>
           foldl (fun allocated p =>
                    if String.eqb (ap_productId p) pid
                    then allocated + orZ (quantityBoxes p) 0 else allocated)
                 allocated (products a)) acc aisles
  = acc + allocatedBoxes aisles pid.
Proof.
  unfold allocatedBoxes. induction aisles as [|a aisles IH]; intros acc; cbn [foldl]; [lia|].
  rewrite IH. symmetry. rewrite IH. rewrite (allocated_in_acc pid (products a) acc). lia.
Qed.

Lemma allocatedBoxes_cons pid a aisles :
  allocatedBoxes (a :: aisles) pid = allocatedBoxes [a] pid + allocatedBoxes aisles pid.
Proof.
  unfold allocatedBoxes at 1 2. cbn [foldl]. by rewrite allocatedBoxes_acc.
Qed.

Lemma allocatedBoxes_added pid a new :
  allocatedBoxes [withProducts a (products a ++ [new])] pid =
  allocatedBoxes [a] pid +
  (if String.eqb (ap_productId new) pid then orZ (quantityBoxes new) 0 else 0).
Proof.
  unfold allocatedBoxes. cbn [foldl withProducts products]. rewrite foldl_app. cbn [foldl].
  destruct (String.eqb _ _); lia.
Qed.

Lemma allocatedBoxes_updated pid aid a new aisles :
  NoDup (aisle_id <$> aisles) -> a ∈ aisles -> aisle_id a = aid ->
  allocatedBoxes
    (List.map (fun b => if String.eqb (aisle_id b) aid
                        then withProducts b (products a ++ [new]) else b) aisles) pid =
  allocatedBoxes aisles pid +
  (if String.eqb (ap_productId new) pid then orZ (quantityBoxes new) 0 else 0).
Proof.
  intros Hnd Hin Haid. induction aisles as [|b aisles IH]; [by apply elem_of_nil in Hin|].
  cbn [fmap list_fmap] in Hnd. apply NoDup_cons in Hnd as [Hnin Hnd].
  cbn [List.map]. rewrite allocatedBoxes_cons, (allocatedBoxes_cons pid b aisles).
  apply elem_of_cons in Hin as [<-|Hin].
  - rewrite Haid, String.eqb_refl. rewrite allocatedBoxes_added.
    assert (Hsame : List.map (fun b => if String.eqb (aisle_id b) aid
                        then withProducts b (products a ++ [new]) else b) aisles = aisles).
    { clear IH Hnd. induction aisles as [|c aisles IH]; [done|]. cbn [List.map].
      rewrite IH by (intros H; apply Hnin; cbn; by right).
      destruct (String.eqb_spec (aisle_id c) aid) as [Hc|_]; [|done].
      exfalso. apply Hnin. cbn. rewrite Haid, <- Hc. left. }
    rewrite Hsame. lia.
  - rewrite IH by done.
    destruct (String.eqb_spec (aisle_id b) aid) as [Hb|_]; [|lia].
    exfalso. apply Hnin. rewrite Hb, <- Haid. apply list_elem_of_fmap. eauto.
Qed.

Lemma quantity_in_stock allAisles product inputs :
  getAvailableStock allAisles (inv_id product) (totalBoxesStock product) <> 0 ->
  1 <= foldl (fun _ parsed => onQuantityChange allAisles product parsed)
             (handleSelectProduct allAisles product) inputs
    <= getAvailableStock allAisles (inv_id product) (totalBoxesStock product).
Proof.
  intros Havail.
  assert (H0 : 0 <= getAvailableStock allAisles (inv_id product) (totalBoxesStock product)).
  { unfold getAvailableStock. lia. }
  destruct inputs as [|parsed inputs] using rev_ind.
  - cbn [foldl]. unfold handleSelectProduct. cbv zeta. lia.
  - rewrite foldl_app. cbn [foldl]. unfold onQuantityChange. cbv zeta. lia.
Qed.

(** X29.  The picker never allocates more than the stock: aisle ids being
    distinct and the selected aisle one of the current store, for a product
    with stock left, whatever is typed into the quantity field, the quantity
    confirmed lies between 1 and the available stock, and after the update of
    the selected aisle the boxes of that product allocated over the current
    store exceed the former ones by that quantity and the product's total
    stock by nothing; the allocations of other products are untouched. *)
Theorem picker_never_over_allocates state aisle product inputs now :
  NoDup (aisle_id <$> UseStore.aisles state) ->
  UseStore.getSelectedAisle state = Some aisle ->
  UseStore.currentStoreId state = Some (aisle_storeId aisle) ->
  let allAisles := UseStore.getCurrentAisles state in
  getAvailableStock allAisles (inv_id product) (totalBoxesStock product) <> 0 ->
  let boxQuantity :=
    foldl (fun _ parsed => onQuantityChange allAisles product parsed)
          (handleSelectProduct allAisles product) inputs in
  let updatedProducts :=
    handleConfirmAdd now product boxQuantity aisle (products aisle) in
  let state' :=
    UseStore.updateAisle (aisle_id aisle) (fun a => withProducts a updatedProducts) state in
  let allAisles' := UseStore.getCurrentAisles state' in
  1 <= boxQuantity <=
    getAvailableStock allAisles (inv_id product) (totalBoxesStock product) /\
  allocatedBoxes allAisles' (inv_id product)
    = allocatedBoxes allAisles (inv_id product) + boxQuantity /\
  allocatedBoxes allAisles' (inv_id product) <= totalBoxesStock product /\
  forall other, other <> inv_id product ->
    allocatedBoxes allAisles' other = allocatedBoxes allAisles other.
Proof.
  intros Hnd Hsel Hstore. cbv zeta. intros Havail.
  assert (Hin : aisle ∈ UseStore.getCurrentAisles state).
  { unfold UseStore.getSelectedAisle in Hsel. apply find_some in Hsel as [Hin _].
    unfold UseStore.getCurrentAisles. apply list_elem_of_In, filter_In. split; [done|].
    rewrite Hstore. cbn [UseStore.isId]. apply String.eqb_refl. }
  pose proof (quantity_in_stock _ product inputs Havail) as Hqty.
  set (qty := foldl _ _ inputs) in *.
  assert (Hcur : UseStore.getCurrentAisles
                   (UseStore.updateAisle (aisle_id aisle)
                      (fun a => withProducts a
                                  (handleConfirmAdd now product qty aisle (products aisle)))
                      state)
                 = List.map (fun b => if String.eqb (aisle_id b) (aisle_id aisle)
                                      then withProducts b
                                             (handleConfirmAdd now product qty aisle
                                                               (products aisle))
                                      else b)
                            (UseStore.getCurrentAisles state)).
  { unfold UseStore.getCurrentAisles.
    cbn [UseStore.updateAisle UseStore.aisles UseStore.currentStoreId].
    apply filter_map_commute. intros a. by destruct (String.eqb (aisle_id a) (aisle_id aisle)). }
  rewrite Hcur. unfold handleConfirmAdd.
  assert (Hnd' : NoDup (aisle_id <$> UseStore.getCurrentAisles state)).
  { unfold UseStore.getCurrentAisles. by apply NoDup_fmap_filter. }
  split; [done|]. split; [|split].
  - rewrite allocatedBoxes_updated by done. cbn [ap_productId quantityBoxes].
    rewrite String.eqb_refl. unfold orZ. destruct (Z.eqb_spec qty 0); lia.
  - rewrite allocatedBoxes_updated by done. cbn [ap_productId quantityBoxes].
    rewrite String.eqb_refl. unfold orZ. unfold getAvailableStock in *.
    destruct (Z.eqb_spec qty 0); lia.
  - intros other Hother. rewrite allocatedBoxes_updated by done.
    cbn [ap_productId]. destruct (String.eqb_spec (inv_id product) other); [congruence | lia].
Qed.

(** Witness of X29. *)
Lemma picker_never_over_allocates_witness :
  allocatedBoxes
    (UseStore.getCurrentAisles
       (UseStore.updateAisle "a1"
          (fun a => withProducts a
             (handleConfirmAdd 7 Scenario.carton
                (foldl (fun _ parsed =>
                          onQuantityChange (UseStore.getCurrentAisles Demo.planner)
                                           Scenario.carton parsed)
                       (handleSelectProduct (UseStore.getCurrentAisles Demo.planner)
                                            Scenario.carton)
                       [Some 500])
                Demo.twoShelves (products Demo.twoShelves)))
          Demo.planner))
    "carton"
  <= totalBoxesStock Scenario.carton.
Proof.
  refine (proj1 (proj2 (proj2
    (picker_never_over_allocates Demo.planner Demo.twoShelves Scenario.carton [Some 500] 7
       _ _ _ _)))).
  - vm_compute. apply NoDup_singleton.
  - vm_compute. reflexivity.
  - reflexivity.
  - vm_compute. discriminate.
Defined.

